(** * Graph-Art-Service: the planner and the tracker

    A shallow embedding of [src/planner.js] (glyph layout on the contribution
    grid, background leveling, emission and sort of the plan, grid and
    summary), of [src/tracker.js] (the ledger of completed days and the
    pending diff), and of the commit loop of [src/index.js] with the count
    [makeCommits] returns.

    Conventions of the embedding:
    - JavaScript numbers are integers of [Z]; strings are [string]s of 8-bit
      code units.
    - Plain objects used as dictionaries ([FONT], [scrapedExisting],
      [data.completed]) are [gmap string _] holding their own properties:
      the keys looked up are glyph keys of one character (or "<3") and ISO
      dates, none of which names an inherited property.  The
      insertion-ordered [Map] of the planner is an association list.
    - The text phase builds each of its dates afresh from the graph start
      with one [setDate] and only reads the calendar day back: there a
      [Date] carries a whole number of days since 1970-01-01, or is the
      Invalid Date (module [JSDate]); a date is valid within 100,000,000
      days of the epoch, as ECMAScript's TimeClip has it for midnight UTC.
    - The leveling loop carries one [Date] object from turn to turn and
      compares it with the end date: there a [Date] carries a time value in
      milliseconds, read and set through the local time of the host's time
      zone (module [JSTime]), so that a day whose local midnight is skipped
      by a clock change leaves the object at a later time of day.  The zone
      is a parameter of the planner ([JSTime.TimeZone]).
    - [console.warn] appends its line to a log carried in the layout state. *)

From Stdlib Require Import ZArith Lia Ascii DecimalString DecimalZ.
From stdpp Require Import gmap strings list sorting.

Local Open Scope Z_scope.
Set Warnings "-clear-no-such-hyp".

(** ** ECMAScript day arithmetic (ECMA-262, "Time Values and Time Range") *)

Module JSDate.

(** Days are counted from 1970-01-01; the year may be any integer (proleptic
    Gregorian calendar). *)

Definition DaysInYear (y : Z) : Z :=
  if negb (y mod 4 =? 0) then 365
  else if negb (y mod 100 =? 0) then 366
  else if negb (y mod 400 =? 0) then 365
  else 366.

Definition DayFromYear (y : Z) : Z :=
  365 * (y - 1970) + (y - 1969) / 4 - (y - 1901) / 100 + (y - 1601) / 400.

(** [YearFromDay t] is the largest [y] with [DayFromYear y <= t]
    (lemma [YearFromDay_spec]); it is computed from the mean year length and
    corrected by at most one year. *)
Definition YearFromDay (t : Z) : Z :=
  let y0 := 1970 + (400 * t) / 146097 in
  if t <? DayFromYear y0 then y0 - 1
  else if DayFromYear (y0 + 1) <=? t then y0 + 1
  else y0.

Definition InLeapYear (t : Z) : Z :=
  if DaysInYear (YearFromDay t) =? 366 then 1 else 0.

Definition DayWithinYear (t : Z) : Z := t - DayFromYear (YearFromDay t).

(** First day-within-year of month [m] (0-based) in a year with leap flag
    [leap]. *)
Definition MonthStart (m leap : Z) : Z :=
  match m with
  | 0 => 0 | 1 => 31 | 2 => 59 + leap | 3 => 90 + leap | 4 => 120 + leap
  | 5 => 151 + leap | 6 => 181 + leap | 7 => 212 + leap | 8 => 243 + leap
  | 9 => 273 + leap | 10 => 304 + leap | _ => 334 + leap
  end.

Definition MonthFromDay (t : Z) : Z :=
  let d := DayWithinYear t in
  let leap := InLeapYear t in
  if d <? 31 then 0
  else if d <? 59 + leap then 1
  else if d <? 90 + leap then 2
  else if d <? 120 + leap then 3
  else if d <? 151 + leap then 4
  else if d <? 181 + leap then 5
  else if d <? 212 + leap then 6
  else if d <? 243 + leap then 7
  else if d <? 273 + leap then 8
  else if d <? 304 + leap then 9
  else if d <? 334 + leap then 10
  else 11.

Definition DateFromDay (t : Z) : Z :=
  DayWithinYear t - MonthStart (MonthFromDay t) (InLeapYear t) + 1.

Definition WeekDay (t : Z) : Z := (t + 4) mod 7.

(** [MakeDay year month date]: the day number of the [date]-th day counted
    from the first of month [month] of [year]; months and dates out of range
    carry over. *)
Definition MakeDay (year month date : Z) : Z :=
  let ym := year + month / 12 in
  let mn := month mod 12 in
  let leap := if DaysInYear ym =? 366 then 1 else 0 in
  DayFromYear ym + MonthStart mn leap + date - 1.

(** A [Date] object: [Some t] is day [t], [None] the Invalid Date. *)
Definition Date : Type := option Z.

Definition TimeClip (t : Z) : Date :=
  if Z.abs t <=? 100000000 then Some t else None.

(** [MakeFullYear]: a year in [0, 99] means 1900 + year. *)
Definition MakeFullYear (year : Z) : Z :=
  if (0 <=? year) && (year <=? 99) then 1900 + year else year.

(** [new Date(year, monthIndex, day)] *)
Definition newDate (year monthIndex day : Z) : Date :=
  let yr := MakeFullYear year in
  TimeClip (MakeDay yr monthIndex day).

(** The getters return [None] for NaN. *)
Definition getFullYear (d : Date) : option Z := YearFromDay <$> d.
Definition getMonth (d : Date) : option Z := MonthFromDay <$> d.
Definition getDate (d : Date) : option Z := DateFromDay <$> d.
Definition getDay (d : Date) : option Z := WeekDay <$> d.

(** [d.setDate(dt)], returning the updated date. *)
Definition setDate (d : Date) (dt : option Z) : Date :=
  t ← d; n ← dt; TimeClip (MakeDay (YearFromDay t) (MonthFromDay t) n).

End JSDate.

Import JSDate.

(** ** ECMAScript time values and local time (ECMA-262, "Local Time Zone
    Adjustment", "LocalTime", "UTC", "MakeDate") *)

Module JSTime.

Definition msPerHour : Z := 3600000.
Definition msPerDay : Z := 86400000.

Definition Day (t : Z) : Z := t / msPerDay.
Definition TimeWithinDay (t : Z) : Z := t mod msPerDay.
Definition MakeDate (day time : Z) : Z := day * msPerDay + time.

(** Local time under the offsets [tza]: [tza t true] is the offset in force
    at the time value [t]; [tza t false] is the offset by which the local
    time [t] is read, which for a local time skipped or repeated at a clock
    change is the offset before the change. *)
Definition LocalTimeOf (tza : Z → bool → Z) (t : Z) : Z := t + tza t true.
Definition UTCOf (tza : Z → bool → Z) (t : Z) : Z := t - tza t false.

(** The host's time zone, which is not among the sources: its offsets
    [LocalTZA] are a parameter.  Three facts about the zone come with it:
    - a local time is never read as an earlier one ([zone_forward]: a local
      time that exists is read as itself, a skipped one as the time the
      clocks show instead);
    - the local midnight of a day, when skipped, is read as a time of that
      same day ([zone_midnight]: no clock change skips a whole day);
    - the calendar day of the local clock never goes back
      ([zone_days]: no clock change sets the clocks back across midnight
      after the new day has begun). *)
Record TimeZone : Type := mkZone {
  LocalTZA : Z → bool → Z;
  zone_forward : ∀ t : Z, t ≤ LocalTimeOf LocalTZA (UTCOf LocalTZA t);
  zone_midnight : ∀ day : Z,
    Day (LocalTimeOf LocalTZA (UTCOf LocalTZA (MakeDate day 0))) = day;
  zone_days : ∀ t1 t2 : Z,
    t1 ≤ t2 → Day (LocalTimeOf LocalTZA t1) ≤ Day (LocalTimeOf LocalTZA t2)
}.

(** Offsets with two clock changes, at the time values [t1 < t2]: [off0]
    before [t1] and from [t2] on, [off1] in between.  A local time is read
    by the offset before a change up to the later of the two local readings
    of the change. *)
Definition twoShifts (off0 off1 t1 t2 : Z) (t : Z) (isUTC : bool) : Z :=
  if isUTC then
    if t <? t1 then off0 else if t <? t2 then off1 else off0
  else
    if t <? t1 + Z.max off0 off1 then off0
    else if t <? t2 + Z.max off1 off0 then off1
    else off0.

Ltac zone_cases :=
  cbv [LocalTimeOf UTCOf Day MakeDate twoShifts msPerDay msPerHour];
  intros;
  repeat match goal with
         | |- context [?a <? ?b] => destruct (Z.ltb_spec a b)
         end;
  first [lia | Z.div_mod_to_equations; lia].

(** Universal time: no offset, no clock change. *)
Definition utc : TimeZone :=
  mkZone (λ _ _, 0) ltac:(zone_cases) ltac:(zone_cases) ltac:(zone_cases).

(** A [Date] object: [Some t] is the time value [t] in milliseconds since
    the epoch, [None] the Invalid Date. *)
Definition Date : Type := option Z.

Definition TimeClip (t : Z) : Date :=
  if Z.abs t <=? 8640000000000000 then Some t else None.

Section Zone.

Variable tz : TimeZone.

Definition LocalTime (t : Z) : Z := LocalTimeOf (LocalTZA tz) t.
Definition UTC (t : Z) : Z := UTCOf (LocalTZA tz) t.

(** [new Date(year, monthIndex, day)]: local midnight of the day. *)
Definition newDate (year monthIndex day : Z) : Date :=
  let yr := MakeFullYear year in
  TimeClip (UTC (MakeDate (MakeDay yr monthIndex day) 0)).

(** The calendar day of the local clock at [d], as a date of whole days:
    what [getFullYear], [getMonth] and [getDate] read. *)
Definition localDay (d : Date) : JSDate.Date :=
  (λ t, Day (LocalTime t)) <$> d.

Definition getDate (d : Date) : option Z := JSDate.getDate (localDay d).

(** [d.setDate(dt)], returning the updated date: the day is replaced, the
    local time of day is kept. *)
Definition setDate (d : Date) (dt : option Z) : Date :=
  t ← d; n ← dt;
  let local := LocalTime t in
  let day := MakeDay (YearFromDay (Day local)) (MonthFromDay (Day local)) n in
  TimeClip (UTC (MakeDate day (TimeWithinDay local))).

(** [a <= b] compares the time values; it is false when either side is
    NaN. *)
Definition le (a b : Date) : bool :=
  match a, b with
  | Some x, Some y => x <=? y
  | _, _ => false
  end.

End Zone.

End JSTime.

(** ** JavaScript strings *)

Module JSString.

(** [String(n)] for an integer [n]. *)
Definition String_of_Z (n : Z) : string := NilZero.string_of_int (Z.to_int n).

(** [String(n)] for a number that may be NaN ([None]). *)
Definition String_of_number (n : option Z) : string :=
  match n with
  | Some z => String_of_Z z
  | None => "NaN"
  end.

Fixpoint repeat_string (pad : string) (n : nat) : string :=
  match n with
  | O => ""
  | S n' => pad +:+ repeat_string pad n'
  end.

(** [s.padStart(targetLength, pad)] for a one-character [pad]. *)
Definition padStart (s : string) (targetLength : nat) (pad : string) : string :=
  repeat_string pad (targetLength - String.length s) +:+ s.

(** [String(n).padStart(2, "0")] *)
Definition pad2 (n : Z) : string := padStart (String_of_Z n) 2 "0".

(** [a.localeCompare(b)]: negative, zero or positive.  The planner compares
    ISO dates only, which collate as their code units do. *)
Definition localeCompare (a b : string) : Z :=
  match String.compare a b with
  | Lt => -1
  | Eq => 0
  | Gt => 1
  end.

End JSString.

Import JSString.

(** ** The insertion-ordered [Map] keyed by strings *)

Module JSMap.

Definition t (V : Type) : Type := list (string * V).

Definition empty {V} : t V := [].

(** [m.set(k, v)]: an existing key keeps its position, a new key goes last. *)
Fixpoint set {V} (m : t V) (k : string) (v : V) : t V :=
  match m with
  | [] => [(k, v)]
  | (k', v') :: m' =>
      if String.eqb k' k then (k, v) :: m' else (k', v') :: set m' k v
  end.

(** [m.get(k)], [None] for undefined. *)
Fixpoint get {V} (m : t V) (k : string) : option V :=
  match m with
  | [] => None
  | (k', v') :: m' => if String.eqb k' k then Some v' else get m' k
  end.

(** [m.entries()], in insertion order. *)
Definition entries {V} (m : t V) : list (string * V) := m.

End JSMap.

(** ** planner.js *)

(** A provisional text pixel, the value type of [textPlanMap]. *)
Module Entry.
Record t : Type := mk {
  date : string;
  isText : bool;
  char : string;
  row : Z;
  col : Z
}.
End Entry.

(** A plan unit, the element type of the plan. *)
Module Unit.
Record t : Type := mk {
  date : string;
  commits : Z;
  char : string;
  row : Z;
  col : Z
}.
End Unit.

(** Modelled from the spec: the glyph bitmaps held by the font table of
    [./fonts], which is not among the sources.  Every glyph has exactly seven
    rows (the invariant [src/test.js] checks on the table), so [matrix[row]]
    is a row for each [row] of the pixel loops; a row is a list of numbers of
    any length. *)
Record glyph : Type := mkGlyph {
  glyphRows : list (list Z);
  glyphRows_length : length glyphRows = 7%nat
}.

Module Planner.

Definition getGraphStartDate (year : Z) : Date :=
  let jan1 := newDate year 0 1 in
  let dayOfWeek := getDay jan1 in
  let startDate := jan1 in
  setDate startDate (d ← getDate jan1; w ← dayOfWeek; Some (d - w)).

Definition offsetToDate (graphStart : Date) (week day : Z) : Date :=
  let date := graphStart in
  setDate date ((λ g, g + week * 7 + day) <$> getDate graphStart).

Definition formatDate (date : Date) : string :=
  let y := getFullYear date in
  let m := padStart (String_of_number ((λ x, x + 1) <$> getMonth date)) 2 "0" in
  let d := padStart (String_of_number (getDate date)) 2 "0" in
  String_of_number y +:+ "-" +:+ m +:+ "-" +:+ d.

(** The state of the layout loop. *)
Record LayoutState : Type := mkLayout {
  currentWeek : Z;
  textPlanMap : JSMap.t Entry.t;
  warnings : list string
}.

Definition warn (st : LayoutState) (line : string) : LayoutState :=
  {| currentWeek := currentWeek st;
     textPlanMap := textPlanMap st;
     warnings := warnings st ++ [line] |}.

Definition notFoundWarning (charKey : string) : string :=
  "Warning: Character '" +:+ charKey +:+ "' not found in font, skipping".

Definition tooLongWarning (charKey : string) : string :=
  "Warning: Text too long, stopping at character '" +:+ charKey +:+ "'".

(** [matrix[0].length] *)
Definition charWidthOf (matrix : glyph) : Z :=
  Z.of_nat (length (default [] (glyphRows matrix !! 0%nat))).

(** [matrix[row][col]], [None] when the column is out of the row. *)
Definition cell (matrix : glyph) (row col : Z) : option Z :=
  r ← glyphRows matrix !! Z.to_nat row; r !! Z.to_nat col.

Section WithFont.

(** [FONT] of [./fonts], which is not among the sources: the table is a
    parameter.  [toUpperCase] is [String.prototype.toUpperCase]. *)
Variable FONT : gmap string glyph.
Variable toUpperCase : string → string.

(** The time zone of the host, through which the leveling loop reads and
    sets its [Date] object. *)
Variable tz : JSTime.TimeZone.

Section Layout.

Variable year : Z.
Variable graphStart : Date.

(** The body of the two pixel loops. *)
Definition placePixel (charKey : string) (matrix : glyph) (week : Z)
    (m : JSMap.t Entry.t) (row col : Z) : JSMap.t Entry.t :=
  if bool_decide (cell matrix row col = Some 1) then
    let date := offsetToDate graphStart (week + col) row in
    let dateStr := formatDate date in
    if bool_decide (getFullYear date = Some year) then
      JSMap.set m dateStr
        {| Entry.date := dateStr; Entry.isText := true;
           Entry.char := charKey; Entry.row := row; Entry.col := week + col |}
    else m
  else m.

(** [for row in 0..6; for col in 0..charWidth-1] *)
Definition placeGlyph (charKey : string) (matrix : glyph) (week : Z)
    (m : JSMap.t Entry.t) : JSMap.t Entry.t :=
  foldl (λ m row,
           foldl (λ m col, placePixel charKey matrix week m row col)
                 m (seqZ 0 (charWidthOf matrix)))
        m (seqZ 0 7).

(** One turn of the character loop once [charKey] is known; [continue] runs
    the remaining turns.  A missing glyph warns and continues, a glyph that
    does not fit warns and breaks. *)
Definition visit (charKey : string) (continue : LayoutState → LayoutState)
    (st : LayoutState) : LayoutState :=
  match FONT !! charKey with
  | None => continue (warn st (notFoundWarning charKey))
  | Some matrix =>
      let charWidth := charWidthOf matrix in
      if 53 <? currentWeek st + charWidth then
        warn st (tooLongWarning charKey)
      else
        continue
          {| currentWeek := currentWeek st + charWidth + 1;
             textPlanMap :=
               placeGlyph charKey matrix (currentWeek st) (textPlanMap st);
             warnings := warnings st |}
  end.

(** The character loop from position [ci] on, [s] being [upperText] from
    [ci]: "<" followed by "3" is the key "<3" and takes two positions. *)
Fixpoint scan (s : string) (st : LayoutState) : LayoutState :=
  match s with
  | EmptyString => st
  | String c rest =>
      match rest with
      | String c' rest' =>
          if Ascii.eqb c "<"%char && Ascii.eqb c' "3"%char
          then visit "<3" (scan rest') st
          else visit (String c "") (scan rest) st
      | EmptyString => visit (String c "") (scan rest) st
      end
  end.

End Layout.

Definition layout (text : string) (year startWeek : Z) : LayoutState :=
  scan year (getGraphStartDate year) (toUpperCase text)
    {| currentWeek := startWeek; textPlanMap := JSMap.empty; warnings := [] |}.

Section Emission.

Variable commitsPerPixel : Z.
Variable m : JSMap.t Entry.t.

(** The body of the leveling loop for the day [d]: what it pushes. *)
Definition levelDay (globalBackgroundLevel : Z) (scrapedExisting : gmap string Z)
    (d : Date) : list Unit.t :=
  let dateStr := formatDate d in
  let existing := default 0 (scrapedExisting !! dateStr) in
  let textEntry := JSMap.get m dateStr in
  let targetLevel :=
    match textEntry with
    | Some _ => globalBackgroundLevel + commitsPerPixel
    | None => globalBackgroundLevel
    end in
  let neededCommits := Z.max 0 (targetLevel - existing) in
  if 0 <? neededCommits then
    [ {| Unit.date := dateStr;
         Unit.commits := neededCommits;
         Unit.char := from_option Entry.char "bg" textEntry;
         Unit.row := from_option Entry.row (-1) textEntry;
         Unit.col := from_option Entry.col (-1) textEntry |} ]
  else [].

(** [for (d = new Date(startDate); d <= endDate; d.setDate(d.getDate() + 1))],
    with the number of turns bounded by [fuel].  [d] and [endDate] are time
    values: the test compares them, [formatDate] reads the local calendar
    day of [d], and [setDate] keeps the local time of day of [d]. *)
Fixpoint levelLoop (fuel : nat) (globalBackgroundLevel : Z)
    (scrapedExisting : gmap string Z) (d endDate : JSTime.Date)
    (plan : list Unit.t) : list Unit.t :=
  match fuel with
  | O => plan
  | S fuel' =>
      if JSTime.le d endDate then
        levelLoop fuel' globalBackgroundLevel scrapedExisting
          (JSTime.setDate tz d ((λ x, x + 1) <$> JSTime.getDate tz d)) endDate
          (plan ++ levelDay globalBackgroundLevel scrapedExisting
                     (JSTime.localDay tz d))
      else plan
  end.

(** The no-background branch: one unit per entry, in insertion order. *)
Definition textUnits : list Unit.t :=
  (λ kv : string * Entry.t,
     {| Unit.date := Entry.date kv.2;
        Unit.commits := commitsPerPixel;
        Unit.char := Entry.char kv.2;
        Unit.row := Entry.row kv.2;
        Unit.col := Entry.col kv.2 |}) <$> JSMap.entries m.

End Emission.

(** [plan.sort((a, b) => a.date.localeCompare(b.date))]: the sort is stable;
    a stable sort has one possible result, computed here by insertion. *)
Fixpoint sortInsert (u : Unit.t) (l : list Unit.t) : list Unit.t :=
  match l with
  | [] => [u]
  | v :: l' =>
      if localeCompare (Unit.date u) (Unit.date v) <=? 0
      then u :: v :: l'
      else v :: sortInsert u l'
  end.

Definition sortByDate (plan : list Unit.t) : list Unit.t :=
  foldr sortInsert [] plan.

(** The local calendar day moves on with every turn and never passes that
    of [endDate], and a year has at most 366 days: the leveling loop ends by
    its own test within this many turns (lemmas [loopFrom_fuel] and
    [levelLoop_fuel]). *)
Definition yearFuel : nat := 367.

(** The emitted plan before the sort. *)
Definition emit (year commitsPerPixel : Z) (globalBackgroundLevel : option Z)
    (scrapedExisting : gmap string Z) (m : JSMap.t Entry.t) : list Unit.t :=
  match globalBackgroundLevel with
  | Some level =>
      let startDate := JSTime.newDate tz year 0 1 in
      let endDate := JSTime.newDate tz year 11 31 in
      levelLoop commitsPerPixel m yearFuel level scrapedExisting
        startDate endDate []
  | None => textUnits commitsPerPixel m
  end.

(** [generatePlan(text, year, commitsPerPixel, startWeek,
    globalBackgroundLevel, scrapedExisting)]; [None] is [null]. *)
Definition generatePlan (text : string) (year commitsPerPixel startWeek : Z)
    (globalBackgroundLevel : option Z) (scrapedExisting : gmap string Z)
    : list Unit.t :=
  let st := layout text year startWeek in
  sortByDate
    (emit year commitsPerPixel globalBackgroundLevel scrapedExisting
       (textPlanMap st)).

(** The lines [generatePlan] writes with [console.warn]. *)
Definition generatePlan_warnings (text : string) (year startWeek : Z)
    : list string :=
  warnings (layout text year startWeek).

End WithFont.

(** The grid of [buildGrid]: seven rows of 53 cells. *)
Definition emptyGrid : list (list Z) := replicate 7 (replicate 53 0).

(** The body of the loop of [buildGrid]: [grid[entry.row][entry.col] =
    entry.commits] for an entry inside the grid, nothing otherwise. *)
Definition gridPut (grid : list (list Z)) (entry : Unit.t) : list (list Z) :=
  if (0 <=? Unit.row entry) && (Unit.row entry <? 7)
     && (0 <=? Unit.col entry) && (Unit.col entry <? 53)
  then alter (λ line, <[Z.to_nat (Unit.col entry) := Unit.commits entry]> line)
         (Z.to_nat (Unit.row entry)) grid
  else grid.

Definition buildGrid (plan : list Unit.t) : list (list Z) :=
  foldl gridPut emptyGrid plan.

(** [[...new Set(chars)]]: the distinct values in the order of their first
    appearance. *)
Definition setAdd (seen : list string) (c : string) : list string :=
  if bool_decide (c ∈ seen) then seen else seen ++ [c].

Definition distinct (chars : list string) : list string :=
  foldl setAdd [] chars.

(** The result of [getPlanStats]. *)
Module Stats.
Record t : Type := mk {
  totalDays : Z;
  totalCommits : Z;
  uniqueChars : list string;
  dateRange : string * string
}.
End Stats.

Definition getPlanStats (plan : list Unit.t) : Stats.t :=
  {| Stats.totalDays := Z.of_nat (length plan);
     Stats.totalCommits := foldl (λ sum e, sum + Unit.commits e) 0 plan;
     Stats.uniqueChars := distinct (Unit.char <$> plan);
     Stats.dateRange :=
       match plan with
       | [] => ("N/A", "N/A")
       | first :: _ =>
           (Unit.date first, from_option Unit.date "" (last plan))
       end |}.

End Planner.


(** ** tracker.js *)

Module Tracker.

(** The value stored under a date in [data.completed]. *)
Module Done.
Record t : Type := mk {
  commits : Z;
  completedAt : string
}.
End Done.

(** The tracker data of [commits.json]. *)
Record TrackerData : Type := mkData {
  completed : gmap string Done.t;
  lastRun : option string;
  text : option string;
  year : option Z
}.

(** The tracker file of a data directory: absent, unreadable as JSON, or
    holding tracker data. *)
Inductive TrackerFile : Type :=
  | Missing
  | Corrupt
  | Stored (data : TrackerData).

Definition emptyTracker : TrackerData :=
  {| completed := ∅; lastRun := None; text := None; year := None |}.

Definition loadTracker (file : TrackerFile) : TrackerData :=
  match file with
  | Missing => emptyTracker
  | Corrupt => emptyTracker
  | Stored data => data
  end.

Definition saveTracker (data : TrackerData) : TrackerFile := Stored data.

(** [markCompleted(date, commits)]; [now1] and [now2] are the two readings
    of the clock.  The result is the tracker file afterwards. *)
Definition markCompleted (date : string) (commits : Z) (now1 now2 : string)
    (file : TrackerFile) : TrackerFile :=
  let data := loadTracker file in
  saveTracker
    {| completed :=
         <[date := {| Done.commits := commits; Done.completedAt := now1 |}]>
           (completed data);
       lastRun := Some now2;
       text := text data;
       year := year data |}.

(** A pending entry: the fields of the plan unit, then the two annotations. *)
Module Pending.
Record t : Type := mk {
  date : string;
  commits : Z;
  char : string;
  row : Z;
  col : Z;
  pendingCommits : Z;
  doneCommits : Z
}.

(** The plan unit an entry was spread from. *)
Definition unit (p : t) : Unit.t :=
  {| Unit.date := date p; Unit.commits := commits p; Unit.char := char p;
     Unit.row := row p; Unit.col := col p |}.
End Pending.

(** [data.completed[date] ? data.completed[date].commits : 0] *)
Definition doneOf (data : TrackerData) (date : string) : Z :=
  match completed data !! date with
  | Some r => Done.commits r
  | None => 0
  end.

(** The callback of [plan.map] in [getPending]. *)
Definition annotate (data : TrackerData) (entry : Unit.t) : Pending.t :=
  let done := doneOf data (Unit.date entry) in
  {| Pending.date := Unit.date entry;
     Pending.commits := Unit.commits entry;
     Pending.char := Unit.char entry;
     Pending.row := Unit.row entry;
     Pending.col := Unit.col entry;
     Pending.pendingCommits := Z.max 0 (Unit.commits entry - done);
     Pending.doneCommits := done |}.

Definition getPending (plan : list Unit.t) (file : TrackerFile)
    : list Pending.t :=
  let data := loadTracker file in
  List.filter (λ entry, 0 <? Pending.pendingCommits entry)
    (annotate data <$> plan).

Definition resetTracker (file : TrackerFile) : TrackerFile := Missing.

End Tracker.

(** ** A small font, an ASCII [toUpperCase] and two time zones for the
    examples *)

Module Demo.

Definition upperChar (c : ascii) : ascii :=
  let n := nat_of_ascii c in
  if (97 <=? n)%nat && (n <=? 122)%nat then ascii_of_nat (n - 32) else c.

Fixpoint asciiUpper (s : string) : string :=
  match s with
  | EmptyString => EmptyString
  | String c s' => String (upperChar c) (asciiUpper s')
  end.

Definition glyphH : glyph :=
  mkGlyph
    [ [1;0;0;0;1]; [1;0;0;0;1]; [1;0;0;0;1]; [1;1;1;1;1];
      [1;0;0;0;1]; [1;0;0;0;1]; [1;0;0;0;1] ]
    eq_refl.

Definition glyphI : glyph :=
  mkGlyph
    [ [1;1;1]; [0;1;0]; [0;1;0]; [0;1;0]; [0;1;0]; [0;1;0]; [1;1;1] ]
    eq_refl.

Definition glyphHeart : glyph :=
  mkGlyph
    [ [0;0;0;0;0;0;0]; [0;1;1;0;1;1;0]; [1;1;1;1;1;1;1]; [1;1;1;1;1;1;1];
      [0;1;1;1;1;1;0]; [0;0;1;1;1;0;0]; [0;0;0;1;0;0;0] ]
    eq_refl.

Definition font : gmap string glyph :=
  {[ "H" := glyphH; "I" := glyphI; "<3" := glyphHeart ]}.

(** The state after "I" is placed at week 45 of 2026. *)
Definition afterI : Planner.LayoutState :=
  {| Planner.currentWeek := 49;
     Planner.textPlanMap :=
       Planner.placeGlyph 2026 (Planner.getGraphStartDate 2026) "I" glyphI 45 JSMap.empty;
     Planner.warnings := [] |}.

(** The state after "H" is placed at week 1 of 2026. *)
Definition afterH : Planner.LayoutState :=
  {| Planner.currentWeek := 7;
     Planner.textPlanMap :=
       Planner.placeGlyph 2026 (Planner.getGraphStartDate 2026) "H" glyphH 1 JSMap.empty;
     Planner.warnings := [] |}.

(** The clock changes of America/Santiago in 2026, taken for the whole
    zone: summer time (three hours behind universal time) until
    2026-04-05T03:00Z, when the clocks go back from midnight to 23:00;
    standard time (four hours behind) until 2026-09-06T04:00Z, when the
    clocks go forward from midnight to 01:00; summer time from then on. *)
Definition santiagoTZA : Z → bool → Z :=
  JSTime.twoShifts (-3 * JSTime.msPerHour) (-4 * JSTime.msPerHour)
    (JSTime.MakeDate 20548 (3 * JSTime.msPerHour))
    (JSTime.MakeDate 20702 (4 * JSTime.msPerHour)).

Definition santiago : JSTime.TimeZone :=
  JSTime.mkZone santiagoTZA
    ltac:(unfold santiagoTZA; JSTime.zone_cases)
    ltac:(unfold santiagoTZA; JSTime.zone_cases)
    ltac:(unfold santiagoTZA; JSTime.zone_cases).

(** The clock changes of Europe/Berlin in 2026, taken for the whole zone:
    one hour ahead of universal time until 2026-03-29T01:00Z, when the
    clocks go forward from 02:00 to 03:00; two hours ahead until
    2026-10-25T01:00Z, when they go back from 03:00 to 02:00. *)
Definition berlinTZA : Z → bool → Z :=
  JSTime.twoShifts (1 * JSTime.msPerHour) (2 * JSTime.msPerHour)
    (JSTime.MakeDate 20541 (1 * JSTime.msPerHour))
    (JSTime.MakeDate 20751 (1 * JSTime.msPerHour)).

Definition berlin : JSTime.TimeZone :=
  JSTime.mkZone berlinTZA
    ltac:(unfold berlinTZA; JSTime.zone_cases)
    ltac:(unfold berlinTZA; JSTime.zone_cases)
    ltac:(unfold berlinTZA; JSTime.zone_cases).

Definition twoDays : list Unit.t :=
  [ Unit.mk "2026-01-04" 20 "H" 0 1; Unit.mk "2026-01-05" 20 "H" 1 1 ].

Definition twoDaysDone : Tracker.TrackerFile :=
  Tracker.markCompleted "2026-01-05" 20 "t3" "t4"
    (Tracker.markCompleted "2026-01-04" 25 "t1" "t2" Tracker.Missing).

End Demo.

(** ** committer.js: [makeCommits] *)

Module Committer.

(** [makeCommits(repoPath, date, count, charLabel, dryRun)] returns how many
    of its [count] turns end in [committed++].  What a turn does to the
    repository is left out; [git i] says whether turn [i] (append to the
    file, [git add], [git commit]) goes through without throwing.  A dry run
    counts every turn. *)
Definition makeCommits (git : Z → bool) (count : Z) (dryRun : bool) : Z :=
  foldl (λ committed i, if dryRun || git i then committed + 1 else committed)
    0 (seqZ 0 count).

End Committer.

(** ** index.js: the loop of [executeCommits] *)

Module Index.

(** What the loop of [executeCommits] leaves behind: its counters, the
    tracker file, and the commits made, one pair [(date, commitsMade)] for
    each call of [makeCommits]. *)
Record Run : Type := mkRun {
  completed : Z;
  commitsThisRun : Z;
  hitLimit : bool;
  file : Tracker.TrackerFile;
  made : list (string * Z)
}.

Section Execute.

(** [batchLimit] is [config.batchLimit || 0]; [git k i] is the outcome of
    turn [i] of the [k]-th call of [makeCommits]; [clock k] gives the two
    readings of the clock in the [k]-th call of [markCompleted]. *)
Variable batchLimit : Z.
Variable git : Z → Z → bool.
Variable clock : Z → string * string.

(** [for (const entry of pending)]: stop at the first entry that would pass
    the batch limit, otherwise commit, mark and count. *)
Fixpoint executeLoop (pending : list Tracker.Pending.t) (st : Run) : Run :=
  match pending with
  | [] => st
  | entry :: rest =>
      if (0 <? batchLimit)
         && (batchLimit <? commitsThisRun st + Tracker.Pending.commits entry)
      then
        {| completed := completed st; commitsThisRun := commitsThisRun st;
           hitLimit := true; file := file st; made := made st |}
      else
        let commitsMade :=
          Committer.makeCommits (git (completed st))
            (Tracker.Pending.commits entry) false in
        executeLoop rest
          {| completed := completed st + 1;
             commitsThisRun := commitsThisRun st + commitsMade;
             hitLimit := hitLimit st;
             file :=
               Tracker.markCompleted (Tracker.Pending.date entry) commitsMade
                 (clock (completed st)).1 (clock (completed st)).2 (file st);
             made := made st ++ [(Tracker.Pending.date entry, commitsMade)] |}
  end.

(** [executeCommits(config, plan)] on the tracker file [f]: nothing happens
    when nothing is pending.  The repository set-up, the progress lines and
    the push are left out. *)
Definition executeCommits (plan : list Unit.t) (f : Tracker.TrackerFile)
    : Run :=
  let pending := Tracker.getPending plan f in
  executeLoop pending
    {| completed := 0; commitsThisRun := 0; hitLimit := false;
       file := f; made := [] |}.

End Execute.

End Index.

(** ** Vocabulary of the statements *)

(** Whether [getPending] keeps a unit, decided on the unit itself. *)
Definition stillPending (data : Tracker.TrackerData) (u : Unit.t) : bool :=
  0 <? Z.max 0 (Unit.commits u - Tracker.doneOf data (Unit.date u)).

(** The glyph key the character loop reads at the head of [s], and the text
    left after it ([None] at the end of the text). *)
Definition nextKey (s : string) : option (string * string) :=
  match s with
  | EmptyString => None
  | String c rest =>
      match rest with
      | String c' rest' =>
          if Ascii.eqb c "<"%char && Ascii.eqb c' "3"%char
          then Some ("<3", rest')
          else Some (String c "", rest)
      | EmptyString => Some (String c "", rest)
      end
  end.

(** What holds of every entry [(k, e)] of [textPlanMap]: [e] was recorded
    under its own date for a filled cell of the glyph of [Entry.char e],
    placed at some week [week >= lo] where it fits, and the cell's day lies
    in [year]. *)
Definition pixelEntry (FONT : gmap string glyph) (year : Z) (graphStart : Date)
    (lo : Z) (kv : string * Entry.t) : Prop :=
  let e := kv.2 in
  Entry.date e = kv.1
  ∧ Entry.isText e = true
  ∧ (String.length (Entry.char e) = 1%nat ∨ Entry.char e = "<3")
  ∧ ∃ matrix week c t,
      FONT !! Entry.char e = Some matrix
      ∧ lo ≤ week ∧ week + Planner.charWidthOf matrix ≤ 53
      ∧ 0 ≤ Entry.row e < 7
      ∧ 0 ≤ c < Planner.charWidthOf matrix
      ∧ Entry.col e = week + c
      ∧ Planner.cell matrix (Entry.row e) c = Some 1
      ∧ Planner.offsetToDate graphStart (Entry.col e) (Entry.row e) = Some t
      ∧ YearFromDay t = year
      ∧ kv.1 = Planner.formatDate (Some t).

(** The invariant of the character loop started at week [lo]. *)
Definition layoutInv (FONT : gmap string glyph) (year : Z) (graphStart : Date)
    (lo : Z) (st : Planner.LayoutState) : Prop :=
  lo ≤ Planner.currentWeek st
  ∧ Forall (pixelEntry FONT year graphStart lo) (Planner.textPlanMap st)
  ∧ NoDup (Planner.textPlanMap st).*1.

(** The unit the planner emits for an entry of [textPlanMap]. *)
Definition unitOfEntry (commits : Z) (e : Entry.t) : Unit.t :=
  {| Unit.date := Entry.date e; Unit.commits := commits;
     Unit.char := Entry.char e; Unit.row := Entry.row e;
     Unit.col := Entry.col e |}.

(** The local calendar days at which the leveling loop, started on [d],
    passes its test against [endDate], in order: the days whose date string
    the loop body reads. *)
Fixpoint loopFrom (tz : JSTime.TimeZone) (fuel : nat) (d endDate : JSTime.Date)
    : list Z :=
  match fuel with
  | O => []
  | S fuel' =>
      match d with
      | Some t =>
          if JSTime.le d endDate then
            JSTime.Day (JSTime.LocalTime tz t)
              :: loopFrom tz fuel'
                   (JSTime.setDate tz d ((λ x, x + 1) <$> JSTime.getDate tz d))
                   endDate
          else []
      | None => []
      end
  end.

(** The days the leveling loop of [generatePlan] visits for [year]. *)
Definition loopDays (tz : JSTime.TimeZone) (year : Z) : list Z :=
  loopFrom tz Planner.yearFuel
    (JSTime.newDate tz year 0 1) (JSTime.newDate tz year 11 31).

(** The days of the year the [Date] constructor makes of [year], January 1
    to December 31. *)
Definition yearDays (year : Z) : list Z :=
  seqZ (DayFromYear (MakeFullYear year)) (DaysInYear (MakeFullYear year)).

(** No clock change of the zone skips the local midnight of a day of the
    year the [Date] constructor makes of [year]. *)
Definition midnightsKept (tz : JSTime.TimeZone) (year : Z) : Prop :=
  ∀ day, YearFromDay day = MakeFullYear year →
    JSTime.LocalTime tz (JSTime.UTC tz (JSTime.MakeDate day 0))
      = JSTime.MakeDate day 0.

(** Ascending order of the date strings. *)
Definition dateLe (a b : Unit.t) : Prop :=
  (Unit.date a ≤ Unit.date b)%string.

(** The units of a plan dated [dateStr]. *)
Definition unitsOn (dateStr : string) (plan : list Unit.t) : list Unit.t :=
  filter (λ u, Unit.date u = dateStr) plan.

(** The level a day is to reach: [B + P] when the day carries a text pixel
    in [m], [B] otherwise. *)
Definition levelTarget (m : JSMap.t Entry.t) (B P : Z) (dateStr : string) : Z :=
  match JSMap.get m dateStr with
  | Some _ => B + P
  | None => B
  end.

(** [E.get(d, 0)] *)
Definition existingOn (E : gmap string Z) (dateStr : string) : Z :=
  default 0 (E !! dateStr).

(** Leveling correctness for one call of [generatePlan] with background
    level [B]: every calendar day [d] of [year] has exactly one unit, with
    [commits = max(0, target(d) - E.get(d, 0))], when that is positive, and
    no unit when the existing count meets the target. *)
Definition levelingCorrect (FONT : gmap string glyph)
    (toUpperCase : string → string) (tz : JSTime.TimeZone)
    (text : string) (year P startWeek B : Z)
    (E : gmap string Z) : Prop :=
  let m := Planner.textPlanMap (Planner.layout FONT toUpperCase text year startWeek) in
  let plan :=
    Planner.generatePlan FONT toUpperCase tz text year P startWeek (Some B) E in
  ∀ d, YearFromDay d = year →
    let dateStr := Planner.formatDate (Some d) in
    let need := Z.max 0 (levelTarget m B P dateStr - existingOn E dateStr) in
    (0 < need → ∃ u, unitsOn dateStr plan = [u] ∧ Unit.commits u = need)
    ∧ (levelTarget m B P dateStr ≤ existingOn E dateStr →
       unitsOn dateStr plan = []).

(** The turns of the character loop as a step relation: [loopAt s0 st0 s st]
    says that the loop started on the text [s0] in state [st0] comes to the
    head of a turn with the text [s] left and the state [st].  A turn that
    skips an unsupported key or places a glyph leads to the next one; the
    turn that breaks leads nowhere. *)
Inductive loopAt (FONT : gmap string glyph) (year : Z) (graphStart : Date)
    (s0 : string) (st0 : Planner.LayoutState)
    : string → Planner.LayoutState → Prop :=
  | loopAt_start : loopAt FONT year graphStart s0 st0 s0 st0
  | loopAt_skip s key rest st :
      loopAt FONT year graphStart s0 st0 s st →
      nextKey s = Some (key, rest) →
      FONT !! key = None →
      loopAt FONT year graphStart s0 st0 rest
        (Planner.warn st (Planner.notFoundWarning key))
  | loopAt_place s key rest matrix st :
      loopAt FONT year graphStart s0 st0 s st →
      nextKey s = Some (key, rest) →
      FONT !! key = Some matrix →
      Planner.currentWeek st + Planner.charWidthOf matrix ≤ 53 →
      loopAt FONT year graphStart s0 st0 rest
        {| Planner.currentWeek :=
             Planner.currentWeek st + Planner.charWidthOf matrix + 1;
           Planner.textPlanMap :=
             Planner.placeGlyph year graphStart key matrix
               (Planner.currentWeek st) (Planner.textPlanMap st);
           Planner.warnings := Planner.warnings st |}.

(** The state in which [generatePlan] enters the character loop. *)
Definition initialState (startWeek : Z) : Planner.LayoutState :=
  {| Planner.currentWeek := startWeek;
     Planner.textPlanMap := JSMap.empty;
     Planner.warnings := [] |}.

(** The commits the ledger of a tracker file records for a date, 0 without a
    record. *)
Definition ledgerCount (f : Tracker.TrackerFile) (date : string) : Z :=
  Tracker.doneOf (Tracker.loadTracker f) date.

(** The pair the loop of [executeCommits] logs for a pending entry when every
    turn of [makeCommits] succeeds: the entry's full [commits]. *)
Definition fullyMade (p : Tracker.Pending.t) : string * Z :=
  (Tracker.Pending.date p, Z.max 0 (Tracker.Pending.commits p)).

(** The count of the last pair for [date] in a log of commits made. *)
Fixpoint lastMade (date : string) (log : list (string * Z)) : option Z :=
  match log with
  | [] => None
  | (d, k) :: log' =>
      match lastMade date log' with
      | Some k' => Some k'
      | None => if String.eqb d date then Some k else None
      end
  end.

(** The total of a list of counts. *)
Definition sumOf (counts : list Z) : Z := foldr Z.add 0 counts.

(** A run of [executeCommits] in which every turn of [makeCommits]
    succeeds. *)
Definition allSucceed (git : Z → Z → bool) : Prop := ∀ k i, git k i = true.

(** The year of the days a plan can hold: with leveling the year the [Date]
    constructor makes of [year], without leveling [year] itself. *)
Definition planYear (B : option Z) (year : Z) : Z :=
  match B with
  | Some _ => MakeFullYear year
  | None => year
  end.

(** All the keys the character loop reads from [s] when it does not break,
    in order. *)
Fixpoint keysOf (s : string) : list string :=
  match s with
  | EmptyString => []
  | String c rest =>
      match rest with
      | String c' rest' =>
          if Ascii.eqb c "<"%char && Ascii.eqb c' "3"%char
          then "<3" :: keysOf rest'
          else String c "" :: keysOf rest
      | EmptyString => String c "" :: keysOf rest
      end
  end.

(** [grid[row][col]], [None] outside the grid. *)
Definition gridCell (grid : list (list Z)) (row col : Z) : option Z :=
  line ← grid !! Z.to_nat row; line !! Z.to_nat col.

(** The test of [buildGrid]: the unit's coordinates lie in the grid. *)
Definition onGrid (u : Unit.t) : bool :=
  (0 <=? Unit.row u) && (Unit.row u <? 7)
  && (0 <=? Unit.col u) && (Unit.col u <? 53).

(** The last unit of a plan placed at [(row, col)]. *)
Definition lastAt (row col : Z) (plan : list Unit.t) : option Unit.t :=
  foldl (λ found u,
           if (Unit.row u =? row) && (Unit.col u =? col) then Some u else found)
    None plan.

(** The shape of the grid: seven rows of 53 cells. *)
Definition gridShape (grid : list (list Z)) : Prop :=
  length grid = 7%nat ∧ Forall (λ line, length line = 53%nat) grid.

(** The test on which the loop of [executeCommits] breaks at the entry [p],
    [soFar] commits having been made in the run:
    [batchLimit > 0 && commitsThisRun + entry.commits > batchLimit]. *)
Definition overLimit (batchLimit soFar : Z) (p : Tracker.Pending.t) : Prop :=
  0 < batchLimit ∧ batchLimit < soFar + Tracker.Pending.commits p.

(** * Proofs *)

(** ** The calendar *)

Ltac divmod := Z.div_mod_to_equations; lia.

Section Calendar.

Lemma DayFromYear_succ y : DayFromYear (y + 1) = DayFromYear y + DaysInYear y.
Proof.
  unfold DayFromYear, DaysInYear.
  destruct (Z.eqb_spec (y mod 4) 0); simpl; [|divmod].
  destruct (Z.eqb_spec (y mod 100) 0); simpl; [|divmod].
  destruct (Z.eqb_spec (y mod 400) 0); simpl; divmod.
Qed.

Lemma DaysInYear_range y : DaysInYear y = 365 \/ DaysInYear y = 366.
Proof. unfold DaysInYear. repeat case_match; auto. Qed.

Lemma DayFromYear_mono a b : a <= b -> DayFromYear a <= DayFromYear b.
Proof. unfold DayFromYear. intros. divmod. Qed.

Lemma DayFromYear_strict a b : a < b -> DayFromYear a < DayFromYear b.
Proof. unfold DayFromYear. intros. divmod. Qed.

Lemma YearFromDay_spec t :
  DayFromYear (YearFromDay t) <= t < DayFromYear (YearFromDay t + 1).
Proof.
  unfold YearFromDay.
  set (y0 := 1970 + 400 * t / 146097).
  assert (DayFromYear (y0 - 1) <= t < DayFromYear (y0 + 2)) as Hb.
  { unfold DayFromYear, y0. divmod. }
  destruct (Z.ltb_spec t (DayFromYear y0)).
  - replace (y0 - 1 + 1) with y0 by lia. lia.
  - destruct (Z.leb_spec (DayFromYear (y0 + 1)) t).
    + replace (y0 + 1 + 1) with (y0 + 2) by lia. lia.
    + lia.
Qed.

Lemma YearFromDay_unique t y :
  DayFromYear y <= t < DayFromYear (y + 1) -> YearFromDay t = y.
Proof.
  intros Hy. pose proof (YearFromDay_spec t) as Hs.
  destruct (Z.lt_trichotomy (YearFromDay t) y) as [Hlt | [Heq | Hgt]]; [|done|].
  - pose proof (DayFromYear_mono (YearFromDay t + 1) y). lia.
  - pose proof (DayFromYear_mono (y + 1) (YearFromDay t)). lia.
Qed.

Lemma YearFromDay_iff t y :
  YearFromDay t = y <-> DayFromYear y <= t < DayFromYear (y + 1).
Proof.
  split; [intros <-; apply YearFromDay_spec | apply YearFromDay_unique].
Qed.

Lemma InLeapYear_range t : InLeapYear t = 0 \/ InLeapYear t = 1.
Proof. unfold InLeapYear. case_match; auto. Qed.

Lemma DayWithinYear_range t :
  0 <= DayWithinYear t < 365 + InLeapYear t.
Proof.
  unfold DayWithinYear, InLeapYear.
  pose proof (YearFromDay_spec t) as Hs.
  rewrite DayFromYear_succ in Hs.
  destruct (DaysInYear_range (YearFromDay t)) as [E | E];
    rewrite E in Hs |- *; change (365 =? 366) with false;
    change (366 =? 366) with true; cbv iota; lia.
Qed.

Lemma MonthFromDay_range t : 0 <= MonthFromDay t <= 11.
Proof. unfold MonthFromDay. repeat case_match; lia. Qed.

Lemma DateFromDay_range t : 1 <= DateFromDay t <= 31.
Proof.
  unfold DateFromDay, MonthFromDay.
  pose proof (DayWithinYear_range t). pose proof (InLeapYear_range t).
  repeat match goal with
  | |- context [DayWithinYear t <? ?n] =>
      destruct (Z.ltb_spec (DayWithinYear t) n); [simpl; lia|]
  end.
  simpl. lia.
Qed.

(** Rebuilding a day from its own year and month: [setDate] moves a date by
    the difference of the day-of-month. *)
Lemma MakeDay_roundtrip t n :
  MakeDay (YearFromDay t) (MonthFromDay t) n = t + (n - DateFromDay t).
Proof.
  pose proof (MonthFromDay_range t) as Hm.
  unfold MakeDay, DateFromDay, DayWithinYear.
  rewrite Z.div_small, Z.mod_small by lia.
  replace (YearFromDay t + 0) with (YearFromDay t) by lia.
  fold (InLeapYear t). lia.
Qed.

Lemma MakeDay_jan1 y : MakeDay y 0 1 = DayFromYear y.
Proof.
  unfold MakeDay. change (0 / 12) with 0. change (0 mod 12) with 0.
  replace (y + 0) with y by lia. unfold MonthStart. lia.
Qed.

Lemma MakeDay_dec31 y : MakeDay y 11 31 = DayFromYear (y + 1) - 1.
Proof.
  unfold MakeDay. change (11 / 12) with 0. change (11 mod 12) with 11.
  replace (y + 0) with y by lia. rewrite DayFromYear_succ. unfold MonthStart.
  destruct (DaysInYear_range y) as [E | E]; rewrite E;
    [change (365 =? 366) with false | change (366 =? 366) with true];
    cbv iota; lia.
Qed.

Lemma setDate_shift t k :
  setDate (Some t) (Some (DateFromDay t + k)) = TimeClip (t + k).
Proof.
  unfold setDate. simpl. rewrite MakeDay_roundtrip. f_equal. lia.
Qed.

End Calendar.

(** ** Formatted dates *)

Import Planner.

Section Formatting.

Lemma string_app_split (s1 s2 t1 t2 : string) :
  String.length s1 = String.length s2 →
  s1 +:+ t1 = s2 +:+ t2 → s1 = s2 ∧ t1 = t2.
Proof.
  revert s2. induction s1 as [|c s1 IH]; intros [|c' s2] Hlen Heq;
    simpl in *; try done.
  injection Heq as -> Heq. destruct (IH s2) as [-> ->]; [lia | done | done].
Qed.

Lemma pad2_length n : 0 ≤ n ≤ 99 → String.length (pad2 n) = 2%nat.
Proof.
  intros Hn.
  assert (Forall (λ n, String.length (pad2 n) = 2%nat) (seqZ 0 100)) as HF.
  { apply (bool_decide_unpack _). vm_compute. exact I. }
  rewrite Forall_seqZ in HF. apply HF. lia.
Qed.

Lemma pad2_inj a b : 0 ≤ a ≤ 99 → 0 ≤ b ≤ 99 → pad2 a = pad2 b → a = b.
Proof.
  intros Ha Hb.
  assert (Forall (λ a, Forall (λ b, pad2 a = pad2 b → a = b) (seqZ 0 100))
            (seqZ 0 100)) as HF.
  { apply (bool_decide_unpack _). vm_compute. exact I. }
  rewrite Forall_seqZ in HF. specialize (HF a ltac:(lia)).
  rewrite Forall_seqZ in HF. apply HF. lia.
Qed.

Lemma formatDate_Some t :
  formatDate (Some t) =
    String_of_Z (YearFromDay t) +:+ "-" +:+ pad2 (MonthFromDay t + 1)
      +:+ "-" +:+ pad2 (DateFromDay t).
Proof. reflexivity. Qed.

(** Within one year the formatted date determines the day. *)
Lemma formatDate_inj_year a b :
  YearFromDay a = YearFromDay b →
  formatDate (Some a) = formatDate (Some b) → a = b.
Proof.
  intros Hy. rewrite !formatDate_Some, Hy. intros Heq.
  apply (inj (String.app _)) in Heq. apply (inj (String.app _)) in Heq.
  pose proof (MonthFromDay_range a). pose proof (MonthFromDay_range b).
  pose proof (DateFromDay_range a). pose proof (DateFromDay_range b).
  apply string_app_split in Heq as [Hm Hd];
    [|rewrite !pad2_length by lia; done].
  apply (inj (String.app _)) in Hd.
  apply pad2_inj in Hm; [|lia..]. apply pad2_inj in Hd; [|lia..].
  pose proof (MakeDay_roundtrip a (DateFromDay a)) as Ha.
  pose proof (MakeDay_roundtrip b (DateFromDay b)) as Hb.
  replace (MonthFromDay a) with (MonthFromDay b) in Ha by lia.
  rewrite Hy, Hd in Ha. lia.
Qed.

End Formatting.

(** ** The insertion-ordered map *)

Section MapFacts.

Context {V : Type}.
Implicit Types (m : JSMap.t V) (k : string) (v : V).

Lemma String_eqb_decide (a b : string) : String.eqb a b = bool_decide (a = b).
Proof.
  destruct (String.eqb_spec a b) as [-> | Hne].
  - by rewrite bool_decide_eq_true_2.
  - by rewrite bool_decide_eq_false_2.
Qed.

Lemma set_keys m k v :
  (JSMap.set m k v).*1 = if bool_decide (k ∈ m.*1) then m.*1 else m.*1 ++ [k].
Proof.
  induction m as [|[k' v'] m IH]; [done|]. cbn [JSMap.set].
  rewrite String_eqb_decide. destruct (decide (k' = k)) as [-> | Hne].
  - rewrite bool_decide_eq_true_2 by done. cbn.
    rewrite bool_decide_eq_true_2; [done | left].
  - rewrite bool_decide_eq_false_2 by done. cbn. rewrite IH.
    destruct (decide (k ∈ m.*1)) as [Hin | Hnin].
    + rewrite !bool_decide_eq_true_2; [done | by right | done].
    + rewrite !bool_decide_eq_false_2; [done | set_solver | done].
Qed.

Lemma set_NoDup m k v : NoDup m.*1 → NoDup (JSMap.set m k v).*1.
Proof.
  intros Hm. rewrite set_keys. case_bool_decide; [done|].
  apply NoDup_app. split_and!; [done | set_solver | apply NoDup_singleton].
Qed.

Lemma elem_of_set m k v kv :
  kv ∈ JSMap.set m k v → kv = (k, v) ∨ kv ∈ m.
Proof.
  induction m as [|[k' v'] m IH]; cbn [JSMap.set].
  - set_solver.
  - case_match; set_solver.
Qed.

Lemma set_Forall (P : string * V → Prop) m k v :
  P (k, v) → Forall P m → Forall P (JSMap.set m k v).
Proof.
  rewrite !Forall_forall. intros Hkv Hm kv [-> | Hin]%elem_of_set; auto.
Qed.

Lemma get_Some_elem m k v : JSMap.get m k = Some v → (k, v) ∈ m.
Proof.
  induction m as [|[k' v'] m IH]; cbn [JSMap.get]; [done|].
  rewrite String_eqb_decide. destruct (decide (k' = k)) as [-> | Hne].
  - rewrite bool_decide_eq_true_2 by done. intros [= ->]. left.
  - rewrite bool_decide_eq_false_2 by done. intros. right. auto.
Qed.

Lemma get_None_keys m k : JSMap.get m k = None ↔ k ∉ m.*1.
Proof.
  induction m as [|[k' v'] m IH]; cbn [JSMap.get]; [set_solver|].
  rewrite String_eqb_decide. destruct (decide (k' = k)) as [-> | Hne].
  - rewrite bool_decide_eq_true_2 by done. set_solver.
  - rewrite bool_decide_eq_false_2 by done. rewrite IH. set_solver.
Qed.

Lemma elem_get_NoDup m k v : NoDup m.*1 → (k, v) ∈ m → JSMap.get m k = Some v.
Proof.
  induction m as [|[k' v'] m IH]; cbn [JSMap.get]; [set_solver|].
  rewrite fmap_cons, NoDup_cons. intros [Hk Hm].
  rewrite String_eqb_decide, elem_of_cons.
  destruct (decide (k' = k)) as [-> | Hne].
  - rewrite bool_decide_eq_true_2 by done. intros [[= ->] | Hin]; [done|].
    exfalso. apply Hk. apply list_elem_of_fmap. by exists (k, v).
  - rewrite bool_decide_eq_false_2 by done.
    intros [[= -> ->] | Hin]; [done | auto].
Qed.

End MapFacts.

(** ** The layout loop *)

Section LayoutFacts.

Variable FONT : gmap string glyph.
Variable year : Z.
Variable graphStart : Date.

Local Abbreviation scan := (Planner.scan FONT year graphStart).
Local Abbreviation visit := (Planner.visit FONT year graphStart).
Local Abbreviation placeGlyph := (Planner.placeGlyph year graphStart).
Local Abbreviation placePixel := (Planner.placePixel year graphStart).
Local Abbreviation pixelEntry := (pixelEntry FONT year graphStart).
Local Abbreviation layoutInv := (layoutInv FONT year graphStart).

Lemma scan_step s key rest st :
  nextKey s = Some (key, rest) → scan s st = visit key (scan rest) st.
Proof.
  destruct s as [|c [|c' rest']]; cbn; [done | by intros [= <- <-] |].
  destruct (_ && _); by intros [= <- <-].
Qed.

Lemma nextKey_shape s key rest :
  nextKey s = Some (key, rest) → String.length key = 1%nat ∨ key = "<3".
Proof.
  destruct s as [|c [|c' rest']]; cbn; [done | intros [= <- <-]; by left |].
  destruct (_ && _); intros [= <- <-]; [by right | by left].
Qed.

(** Induction on the turns of the character loop: a property of the state
    kept by a warning and by the placement of a glyph that fits is kept by
    the whole loop. *)
Lemma scan_invariant (Inv : LayoutState → Prop) :
  (∀ st line, Inv st → Inv (warn st line)) →
  (∀ st key matrix,
     Inv st → String.length key = 1%nat ∨ key = "<3" →
     FONT !! key = Some matrix →
     currentWeek st + charWidthOf matrix ≤ 53 →
     Inv {| currentWeek := currentWeek st + charWidthOf matrix + 1;
            textPlanMap := placeGlyph key matrix (currentWeek st) (textPlanMap st);
            warnings := warnings st |}) →
  ∀ s st, Inv st → Inv (scan s st).
Proof.
  intros Hwarn Hplace.
  assert (∀ key k, String.length key = 1%nat ∨ key = "<3" →
            (∀ st, Inv st → Inv (k st)) →
            ∀ st, Inv st → Inv (visit key k st)) as Hvisit.
  { intros key k Hkey Hk st Hst. unfold Planner.visit.
    destruct (FONT !! key) as [matrix|] eqn:Hfont; [|by apply Hk, Hwarn].
    destruct (Z.ltb_spec 53 (currentWeek st + charWidthOf matrix));
      [by apply Hwarn|].
    apply Hk. by apply Hplace. }
  assert (∀ s, (∀ st, Inv st → Inv (scan s st))
               ∧ ∀ c st, Inv st → Inv (scan (String c s) st)) as H.
  { induction s as [|c' s [IH1 IH2]].
    - split; [done|]. intros c st Hst. cbn. apply Hvisit; [by left | done..].
    - split; [apply IH2|]. intros c st Hst.
      destruct (Ascii.eqb c "<" && Ascii.eqb c' "3") eqn:E.
      + rewrite (scan_step _ "<3" s) by (cbn; by rewrite E).
        apply Hvisit; [by right | done..].
      + rewrite (scan_step _ (String c "") (String c' s))
          by (cbn; by rewrite E).
        apply Hvisit; [by left | apply IH2 | done]. }
  intros s. apply H.
Qed.

(** The pixel loops read rows the glyph has: [matrix[row]] is defined for
    each of the seven rows. *)
Lemma glyph_row_defined (matrix : glyph) row :
  0 ≤ row < 7 → is_Some (glyphRows matrix !! Z.to_nat row).
Proof.
  intros Hrow. apply lookup_lt_is_Some. rewrite glyphRows_length. lia.
Qed.

Lemma foldl_invariant {A B} (P : A → Prop) (f : A → B → A) (l : list B) a :
  (∀ a x, x ∈ l → P a → P (f a x)) → P a → P (foldl f a l).
Proof.
  revert a. induction l as [|x l IH]; intros a Hf Ha; [done|].
  cbn. apply IH; [|apply Hf; [left | done]].
  intros a' y Hy. apply Hf. by right.
Qed.

Lemma placeGlyph_invariant (P : JSMap.t Entry.t → Prop) key matrix week m :
  (∀ m row col,
     0 ≤ row < 7 → 0 ≤ col < charWidthOf matrix →
     P m → P (placePixel key matrix week m row col)) →
  P m → P (placeGlyph key matrix week m).
Proof.
  intros Hpix Hm. unfold Planner.placeGlyph.
  apply foldl_invariant; [|done].
  intros m1 row Hrow%elem_of_seqZ Hm1.
  apply foldl_invariant; [|done].
  intros m2 col Hcol%elem_of_seqZ Hm2. apply Hpix; [lia..|done].
Qed.

Lemma placePixel_cases key matrix week m row col :
  placePixel key matrix week m row col = m
  ∨ ∃ t, cell matrix row col = Some 1
         ∧ offsetToDate graphStart (week + col) row = Some t
         ∧ YearFromDay t = year
         ∧ placePixel key matrix week m row col =
             JSMap.set m (formatDate (Some t))
               {| Entry.date := formatDate (Some t); Entry.isText := true;
                  Entry.char := key; Entry.row := row;
                  Entry.col := week + col |}.
Proof.
  unfold Planner.placePixel.
  destruct (decide (cell matrix row col = Some 1)) as [Hc | Hc];
    [rewrite bool_decide_eq_true_2 by done
    |rewrite bool_decide_eq_false_2 by done; by left].
  destruct (offsetToDate graphStart (week + col) row) as [t|] eqn:Ht;
    [|rewrite bool_decide_eq_false_2 by done; by left].
  destruct (decide (getFullYear (Some t) = Some year)) as [Hy | Hy];
    [rewrite bool_decide_eq_true_2 by done
    |rewrite bool_decide_eq_false_2 by done; by left].
  right. exists t. injection Hy as Hy. done.
Qed.

Lemma scan_layoutInv lo s st : layoutInv lo st → layoutInv lo (scan s st).
Proof.
  apply scan_invariant; clear s st.
  - by intros st line.
  - intros st key matrix (Hlo & Hall & Hnd) Hkey Hfont Hfit.
    assert (0 ≤ charWidthOf matrix) by (unfold charWidthOf; lia).
    split_and!; cbn; [lia|..].
    + apply (placeGlyph_invariant (Forall (pixelEntry lo))); [|done].
      intros m row col Hrow Hcol Hm.
      destruct (placePixel_cases key matrix (currentWeek st) m row col)
        as [-> | (t & Hc & Ht & Hy & ->)]; [done|].
      apply set_Forall; [|done].
      split_and!; cbn; [done..|].
      exists matrix, (currentWeek st), col, t. split_and!; done || lia.
    + apply (placeGlyph_invariant (λ m, NoDup m.*1)); [|done].
      intros m row col _ _ Hm.
      destruct (placePixel_cases key matrix (currentWeek st) m row col)
        as [-> | (t & _ & _ & _ & ->)]; [done|].
      by apply set_NoDup.
Qed.

Lemma visit_missing key k st :
  FONT !! key = None → visit key k st = k (warn st (notFoundWarning key)).
Proof. unfold Planner.visit. by intros ->. Qed.

Lemma visit_overflow key matrix k st :
  FONT !! key = Some matrix → 53 < currentWeek st + charWidthOf matrix →
  visit key k st = warn st (tooLongWarning key).
Proof.
  unfold Planner.visit. intros -> Hov. by rewrite (proj2 (Z.ltb_lt _ _)).
Qed.

Lemma visit_place key matrix k st :
  FONT !! key = Some matrix → currentWeek st + charWidthOf matrix ≤ 53 →
  visit key k st =
    k {| currentWeek := currentWeek st + charWidthOf matrix + 1;
         textPlanMap := placeGlyph key matrix (currentWeek st) (textPlanMap st);
         warnings := warnings st |}.
Proof.
  unfold Planner.visit. intros -> Hfit. by rewrite (proj2 (Z.ltb_ge _ _)).
Qed.

(** The loop from a turn it comes to is the rest of the loop. *)
Lemma loopAt_scan s0 st0 s st :
  loopAt FONT year graphStart s0 st0 s st → scan s0 st0 = scan s st.
Proof.
  induction 1 as [|s key rest st Hat IH Hkey Hfont
                  |s key rest matrix st Hat IH Hkey Hfont Hfit]; [done|..].
  - by rewrite IH, (scan_step s key rest), visit_missing.
  - by rewrite IH, (scan_step s key rest), (visit_place key matrix).
Qed.

(** The loop only adds lines to the log. *)
Lemma scan_warnings s st :
  ∃ more, warnings (scan s st) = warnings st ++ more.
Proof.
  apply (scan_invariant (λ st', ∃ more, warnings st' = warnings st ++ more)).
  - intros st' line [more Hm]. exists (more ++ [line]). cbn.
    by rewrite Hm, app_assoc.
  - intros st' key matrix [more Hm] _ _ _. by exists more.
  - exists []. by rewrite app_nil_r.
Qed.

End LayoutFacts.

(** ** Time values and the turns of the leveling loop *)

Section LoopFacts.

Variable tz : JSTime.TimeZone.

Local Abbreviation LocalTime := (JSTime.LocalTime tz).
Local Abbreviation UTC := (JSTime.UTC tz).

(** The date the loop header leaves in [d] for the next turn. *)
Local Abbreviation turn d :=
  (JSTime.setDate tz d ((λ x, x + 1) <$> JSTime.getDate tz d)).

(** Local midnight of a day. *)
Local Abbreviation midnight day := (JSTime.MakeDate day 0).

Lemma msTimeClip_inv t d :
  JSTime.TimeClip t = Some d → d = t ∧ Z.abs t ≤ 8640000000000000.
Proof.
  unfold JSTime.TimeClip.
  destruct (Z.leb_spec (Z.abs t) 8640000000000000); [|done]. by intros [= <-].
Qed.

Lemma msTimeClip_valid t :
  Z.abs t ≤ 8640000000000000 → JSTime.TimeClip t = Some t.
Proof. intros. unfold JSTime.TimeClip. by rewrite (proj2 (Z.leb_le _ _)). Qed.

Lemma TimeWithinDay_range t : 0 ≤ JSTime.TimeWithinDay t < JSTime.msPerDay.
Proof. unfold JSTime.TimeWithinDay, JSTime.msPerDay. divmod. Qed.

Lemma Day_MakeDate day time :
  0 ≤ time < JSTime.msPerDay → JSTime.Day (JSTime.MakeDate day time) = day.
Proof. unfold JSTime.Day, JSTime.MakeDate, JSTime.msPerDay. intros. divmod. Qed.

Lemma Day_mono t1 t2 : t1 ≤ t2 → JSTime.Day t1 ≤ JSTime.Day t2.
Proof. unfold JSTime.Day, JSTime.msPerDay. intros. divmod. Qed.

Lemma local_forward t : t ≤ LocalTime (UTC t).
Proof. apply (JSTime.zone_forward tz). Qed.

Lemma local_midnight day : JSTime.Day (LocalTime (UTC (midnight day))) = day.
Proof. apply (JSTime.zone_midnight tz). Qed.

Lemma local_days t1 t2 :
  t1 ≤ t2 → JSTime.Day (LocalTime t1) ≤ JSTime.Day (LocalTime t2).
Proof. apply (JSTime.zone_days tz). Qed.

(** The time values of the local midnights are in the order of their
    days. *)
Lemma midnight_mono k1 k2 : k1 ≤ k2 → UTC (midnight k1) ≤ UTC (midnight k2).
Proof.
  intros Hk. destruct (Z.le_gt_cases (UTC (midnight k1)) (UTC (midnight k2)))
    as [Hle | Hgt]; [done|].
  assert (JSTime.Day (LocalTime (UTC (midnight k2)))
            ≤ JSTime.Day (LocalTime (UTC (midnight k1)))) as Hd
    by (apply local_days; lia).
  rewrite !local_midnight in Hd. assert (k1 = k2) as -> by lia. lia.
Qed.

Lemma midnight_strict k1 k2 : k1 < k2 → UTC (midnight k1) < UTC (midnight k2).
Proof.
  intros Hk. pose proof (midnight_mono k1 k2 ltac:(lia)) as Hle.
  destruct (decide (UTC (midnight k1) = UTC (midnight k2))) as [Heq | Hne];
    [|lia].
  pose proof (local_midnight k1) as H1. rewrite Heq, local_midnight in H1. lia.
Qed.

(** One turn: the day after the local day of [d], at the local time of day
    of [d]. *)
Lemma turn_Some t :
  turn (Some t) =
    JSTime.TimeClip
      (UTC (JSTime.MakeDate (JSTime.Day (LocalTime t) + 1)
              (JSTime.TimeWithinDay (LocalTime t)))).
Proof.
  unfold JSTime.setDate, JSTime.getDate, JSTime.localDay.
  cbn [fmap option_fmap option_map mbind option_bind getDate].
  rewrite MakeDay_roundtrip. do 3 f_equal. lia.
Qed.

Lemma turn_None : turn None = None.
Proof. done. Qed.

(** Every turn takes the local clock to a later calendar day. *)
Lemma turn_later t t' :
  turn (Some t) = Some t' →
  JSTime.Day (LocalTime t) < JSTime.Day (LocalTime t').
Proof.
  rewrite turn_Some. intros [-> _]%msTimeClip_inv.
  set (local := JSTime.MakeDate (JSTime.Day (LocalTime t) + 1)
                  (JSTime.TimeWithinDay (LocalTime t))).
  pose proof (Day_mono _ _ (local_forward local)) as Hd.
  unfold local in Hd at 1.
  rewrite Day_MakeDate in Hd by apply TimeWithinDay_range. lia.
Qed.

Lemma newDate_local year monthIndex day t :
  JSTime.newDate tz year monthIndex day = Some t →
  t = UTC (midnight (MakeDay (MakeFullYear year) monthIndex day))
  ∧ JSTime.Day (LocalTime t) = MakeDay (MakeFullYear year) monthIndex day.
Proof.
  unfold JSTime.newDate. intros [-> _]%msTimeClip_inv. split; [done|].
  apply local_midnight.
Qed.

Lemma loopFrom_None_l fuel e : loopFrom tz fuel None e = [].
Proof. by destruct fuel. Qed.

Lemma loopFrom_None_r fuel d : loopFrom tz fuel d None = [].
Proof. destruct fuel; [done|]. by destruct d. Qed.

Lemma loopFrom_step fuel t e :
  loopFrom tz (S fuel) (Some t) (Some e) =
    if t <=? e
    then JSTime.Day (LocalTime t) :: loopFrom tz fuel (turn (Some t)) (Some e)
    else [].
Proof. done. Qed.

(** The days the loop visits lie between the local days of its two dates. *)
Lemma loopFrom_bounds fuel t e x :
  x ∈ loopFrom tz fuel (Some t) (Some e) →
  JSTime.Day (LocalTime t) ≤ x ≤ JSTime.Day (LocalTime e).
Proof.
  revert t. induction fuel as [|fuel IH]; intros t; [by intros ?%elem_of_nil|].
  rewrite loopFrom_step. destruct (Z.leb_spec t e) as [Hle | Hgt];
    [|by intros ?%elem_of_nil].
  intros [-> | Hx]%elem_of_cons.
  - split; [lia | by apply local_days].
  - destruct (turn (Some t)) as [t'|] eqn:Hturn;
      [|by rewrite loopFrom_None_l in Hx; apply elem_of_nil in Hx].
    apply turn_later in Hturn. apply IH in Hx. lia.
Qed.

Lemma loopFrom_increasing fuel d e : StronglySorted Z.lt (loopFrom tz fuel d e).
Proof.
  destruct e as [e|]; [|rewrite loopFrom_None_r; constructor].
  revert d. induction fuel as [|fuel IH]; intros d; [constructor|].
  destruct d as [t|]; [|constructor].
  rewrite loopFrom_step. destruct (Z.leb_spec t e); [|constructor].
  constructor; [apply IH|]. apply Forall_forall. intros x Hx.
  destruct (turn (Some t)) as [t'|] eqn:Hturn;
    [|by rewrite loopFrom_None_l in Hx; apply elem_of_nil in Hx].
  apply turn_later in Hturn. apply loopFrom_bounds in Hx. lia.
Qed.

(** With more turns allowed than there are days from the local day of [d]
    to that of [endDate], the loop ends by its own test: more fuel changes
    nothing. *)
Lemma loopFrom_fuel fuel n t e :
  JSTime.Day (LocalTime e) - JSTime.Day (LocalTime t) < Z.of_nat fuel →
  loopFrom tz (fuel + n) (Some t) (Some e) = loopFrom tz fuel (Some t) (Some e).
Proof.
  revert t. induction fuel as [|fuel IH]; intros t Hfuel.
  - destruct n as [|n]; [done|]. change (0 + S n)%nat with (S n).
    rewrite loopFrom_step. destruct (Z.leb_spec t e) as [Hle | Hgt]; [|done].
    apply local_days in Hle. lia.
  - change (S fuel + n)%nat with (S (fuel + n)). rewrite !loopFrom_step.
    destruct (Z.leb_spec t e) as [Hle | Hgt]; [|done]. f_equal.
    destruct (turn (Some t)) as [t'|] eqn:Hturn;
      [|by rewrite !loopFrom_None_l].
    apply turn_later in Hturn. apply IH. lia.
Qed.

Lemma elem_of_loopDays year t :
  t ∈ loopDays tz year →
  is_Some (JSTime.newDate tz year 0 1) ∧ is_Some (JSTime.newDate tz year 11 31)
  ∧ YearFromDay t = MakeFullYear year.
Proof.
  unfold loopDays.
  destruct (JSTime.newDate tz year 0 1) as [s|] eqn:Hs;
    [|by rewrite loopFrom_None_l; intros ?%elem_of_nil].
  destruct (JSTime.newDate tz year 11 31) as [e|] eqn:He;
    [|by rewrite loopFrom_None_r; intros ?%elem_of_nil].
  intros Ht%loopFrom_bounds.
  apply newDate_local in Hs as [_ Hs]. apply newDate_local in He as [_ He].
  rewrite Hs, He, MakeDay_jan1, MakeDay_dec31 in Ht.
  split_and!; [done | done |]. apply YearFromDay_iff. lia.
Qed.

Lemma loopDays_increasing year : StronglySorted Z.lt (loopDays tz year).
Proof. apply loopFrom_increasing. Qed.

Lemma NoDup_loopDays year : NoDup (loopDays tz year).
Proof.
  generalize (loopDays_increasing year). generalize (loopDays tz year).
  induction 1 as [|t l _ IH Ht]; constructor; [|done].
  intros Hin. eapply Forall_forall in Ht; [|exact Hin]. lia.
Qed.

(** The fuel of [emit] is enough for every year and every zone. *)
Lemma loopDays_fuel year n :
  loopFrom tz (yearFuel + n)
    (JSTime.newDate tz year 0 1) (JSTime.newDate tz year 11 31)
  = loopDays tz year.
Proof.
  unfold loopDays.
  destruct (JSTime.newDate tz year 0 1) as [s|] eqn:Hs;
    [|by rewrite !loopFrom_None_l].
  destruct (JSTime.newDate tz year 11 31) as [e|] eqn:He;
    [|by rewrite !loopFrom_None_r].
  apply loopFrom_fuel.
  apply newDate_local in Hs as [_ Hs]. apply newDate_local in He as [_ He].
  rewrite Hs, He, MakeDay_jan1, MakeDay_dec31, DayFromYear_succ.
  unfold yearFuel. destruct (DaysInYear_range (MakeFullYear year)); lia.
Qed.

(** When no local midnight of the year is skipped, the loop visits the
    days of the year one by one, from January 1 to December 31. *)
Lemma loopFrom_kept year fuel k :
  midnightsKept tz year →
  let first := DayFromYear (MakeFullYear year) in
  let last := DayFromYear (MakeFullYear year + 1) - 1 in
  Z.abs (UTC (midnight first)) ≤ 8640000000000000 →
  Z.abs (UTC (midnight last)) ≤ 8640000000000000 →
  first ≤ k ≤ last + 1 →
  last - k + 1 ≤ Z.of_nat fuel →
  loopFrom tz fuel (JSTime.TimeClip (UTC (midnight k))) (Some (UTC (midnight last)))
    = seqZ k (last - k + 1).
Proof.
  intros Hkept first last Hfirst Hlast. revert k.
  induction fuel as [|fuel IH]; intros k Hk Hfuel.
  { rewrite seqZ_nil by lia. by destruct (JSTime.TimeClip _). }
  destruct (decide (k = last + 1)) as [-> | Hne].
  - rewrite seqZ_nil by lia.
    destruct (JSTime.TimeClip (UTC (midnight (last + 1)))) as [t|] eqn:Ht;
      [|done].
    apply msTimeClip_inv in Ht as [-> _]. rewrite loopFrom_step.
    pose proof (midnight_strict last (last + 1) ltac:(lia)).
    by rewrite (proj2 (Z.leb_gt _ _)) by lia.
  - pose proof (midnight_mono first k ltac:(lia)).
    pose proof (midnight_mono k last ltac:(lia)).
    rewrite msTimeClip_valid by lia. rewrite loopFrom_step.
    rewrite (proj2 (Z.leb_le _ _)) by lia.
    rewrite (seqZ_cons k) by lia. rewrite local_midnight. f_equal.
    rewrite turn_Some.
    assert (LocalTime (UTC (midnight k)) = midnight k) as ->.
    { apply Hkept. apply YearFromDay_iff. fold first. unfold last in *. lia. }
    rewrite Day_MakeDate by (unfold JSTime.msPerDay; lia).
    replace (JSTime.TimeWithinDay (midnight k)) with 0
      by (unfold JSTime.TimeWithinDay, JSTime.MakeDate, JSTime.msPerDay; divmod).
    rewrite IH by lia. f_equal; lia.
Qed.

Lemma loopDays_kept year :
  midnightsKept tz year →
  is_Some (JSTime.newDate tz year 0 1) →
  is_Some (JSTime.newDate tz year 11 31) →
  loopDays tz year = yearDays year.
Proof.
  intros Hkept [s Hs] [e He]. unfold loopDays, yearDays.
  rewrite He. pose proof Hs as Hs'. pose proof He as He'.
  unfold JSTime.newDate in Hs, He. cbv zeta in Hs, He.
  rewrite MakeDay_jan1 in Hs. rewrite MakeDay_dec31 in He.
  apply msTimeClip_inv in Hs as [_ Hsv]. apply msTimeClip_inv in He as [-> Hev].
  unfold JSTime.newDate. cbv zeta. rewrite MakeDay_jan1.
  rewrite (loopFrom_kept year); [| done | done | done | |].
  - f_equal. rewrite DayFromYear_succ. lia.
  - rewrite DayFromYear_succ.
    destruct (DaysInYear_range (MakeFullYear year)); lia.
  - rewrite DayFromYear_succ. unfold yearFuel.
    destruct (DaysInYear_range (MakeFullYear year)); lia.
Qed.

End LoopFacts.

(** ** Emission and sort *)

Section EmitFacts.

Variable tz : JSTime.TimeZone.
Variable commitsPerPixel : Z.
Variable m : JSMap.t Entry.t.

Local Abbreviation levelDay := (Planner.levelDay commitsPerPixel m).
Local Abbreviation levelLoop := (Planner.levelLoop tz commitsPerPixel m).
Local Abbreviation emit := (Planner.emit tz).

Lemma TimeClip_valid t : Z.abs t ≤ 100000000 → TimeClip t = Some t.
Proof. intros. unfold TimeClip. by rewrite (proj2 (Z.leb_le _ _)). Qed.

Lemma TimeClip_inv t d : TimeClip t = Some d → d = t ∧ Z.abs t ≤ 100000000.
Proof.
  unfold TimeClip. destruct (Z.leb_spec (Z.abs t) 100000000); [|done].
  by intros [= <-].
Qed.

(** The loop pushes [levelDay] of each day it visits, in turn. *)
Lemma levelLoop_loopFrom fuel level E d e plan :
  levelLoop fuel level E d e plan =
    plan ++ (loopFrom tz fuel d e ≫= λ t, levelDay level E (Some t)).
Proof.
  revert d plan. induction fuel as [|fuel IH]; intros d plan.
  { cbn. by rewrite app_nil_r. }
  cbn [Planner.levelLoop loopFrom].
  destruct d as [t|]; [|cbn; by rewrite app_nil_r].
  destruct (JSTime.le (Some t) e); [|cbn; by rewrite app_nil_r].
  rewrite IH, bind_cons, app_assoc. done.
Qed.

(** The loop of [emit] ends by its own test: more fuel gives the same
    plan. *)
Lemma levelLoop_fuel year level E n :
  levelLoop (yearFuel + n) level E
    (JSTime.newDate tz year 0 1) (JSTime.newDate tz year 11 31) []
  = levelLoop yearFuel level E
      (JSTime.newDate tz year 0 1) (JSTime.newDate tz year 11 31) [].
Proof.
  rewrite !levelLoop_loopFrom, loopDays_fuel. reflexivity.
Qed.

Lemma newDate_jan1 year s :
  newDate year 0 1 = Some s →
  s = DayFromYear (MakeFullYear year) ∧ Z.abs s ≤ 100000000.
Proof.
  unfold newDate. rewrite MakeDay_jan1. by intros [-> ?]%TimeClip_inv.
Qed.

Lemma emit_leveling year level E :
  emit year commitsPerPixel (Some level) E m =
    loopDays tz year ≫= λ t, levelDay level E (Some t).
Proof.
  unfold Planner.emit, loopDays. cbv zeta.
  rewrite levelLoop_loopFrom. apply app_nil_l.
Qed.

Lemma emit_text year E :
  emit year commitsPerPixel None E m = unitOfEntry commitsPerPixel <$> m.*2.
Proof.
  unfold Planner.emit, textUnits, JSMap.entries. by rewrite <- list_fmap_compose.
Qed.

End EmitFacts.

Section SortFacts.

Lemma localeCompare_le a b : localeCompare a b ≤ 0 ↔ (a ≤ b)%string.
Proof.
  unfold localeCompare, String.le, String.leb.
  destruct (String.compare a b); cbn; intuition (done || lia).
Qed.

Lemma sortInsert_Permutation u l : sortInsert u l ≡ₚ u :: l.
Proof.
  induction l as [|v l IH]; cbn; [done|].
  case_match; [done|]. by rewrite IH, Permutation_swap.
Qed.

Lemma sortByDate_Permutation plan : sortByDate plan ≡ₚ plan.
Proof.
  induction plan as [|u plan IH]; cbn; [done|].
  by rewrite sortInsert_Permutation, IH.
Qed.

Lemma elem_of_sortByDate u plan : u ∈ sortByDate plan ↔ u ∈ plan.
Proof. by rewrite sortByDate_Permutation. Qed.

#[local] Instance dateLe_trans : Transitive dateLe.
Proof. intros a b c. unfold dateLe. apply transitivity. Qed.

Lemma sortInsert_sorted u l :
  StronglySorted dateLe l → StronglySorted dateLe (sortInsert u l).
Proof.
  induction 1 as [|v l Hl IH Hv]; cbn; [by repeat constructor|].
  destruct (Z.leb_spec (localeCompare (Unit.date u) (Unit.date v)) 0)
    as [Hle%localeCompare_le | Hgt].
  - constructor; [by constructor|]. constructor; [done|].
    eapply Forall_impl; [exact Hv|]. intros w Hw. by trans v.
  - constructor; [done|]. rewrite sortInsert_Permutation.
    constructor; [|done]. unfold dateLe.
    destruct (total String.le (Unit.date u) (Unit.date v)) as [Huv | Hvu];
      [|done].
    apply localeCompare_le in Huv. lia.
Qed.

Lemma sortByDate_sorted plan : StronglySorted dateLe (sortByDate plan).
Proof.
  induction plan as [|u plan IH]; cbn; [constructor|].
  by apply sortInsert_sorted.
Qed.

End SortFacts.

(** ** The tracker: pending entries *)

Section Pending.

Import Tracker.

Implicit Types (plan : list Unit.t) (file : TrackerFile) (u : Unit.t).

Lemma unit_annotate data u : Pending.unit (annotate data u) = u.
Proof. by destruct u. Qed.

Lemma getPending_filter plan file :
  getPending plan file =
    annotate (loadTracker file)
      <$> List.filter (stillPending (loadTracker file)) plan.
Proof.
  unfold getPending. induction plan as [|u plan IH]; [done|].
  cbn [fmap list_fmap List.filter]. fold (annotate (loadTracker file) <$> plan).
  change (0 <? Pending.pendingCommits (annotate (loadTracker file) u))
    with (stillPending (loadTracker file) u).
  destruct (stillPending (loadTracker file) u); cbn; by rewrite IH.
Qed.

Lemma elem_of_filter_bool {A} (f : A → bool) (l : list A) (x : A) :
  x ∈ List.filter f l ↔ x ∈ l ∧ f x = true.
Proof. rewrite !list_elem_of_In. apply filter_In. Qed.

Lemma doneOf_markCompleted date k now1 now2 file :
  doneOf (loadTracker (markCompleted date k now1 now2 file)) date = k.
Proof. unfold doneOf. cbn. by rewrite lookup_insert_eq. Qed.

(** C2. [getPending] returns, in plan order, exactly the units whose
    [pendingCommits = max(0, commits - completed)] is positive, [completed]
    being the ledger's count for the unit's date and 0 without a record; each
    kept entry has the unit's own fields and carries that [pendingCommits] and
    [doneCommits = completed].  A unit of the plan marked completed with [k]
    commits, [0 < k < commits], is pending with [pendingCommits = commits - k]. *)
Theorem getPending_spec plan file :
  let completed := doneOf (loadTracker file) in
  let pendingOf u := Z.max 0 (Unit.commits u - completed (Unit.date u)) in
  Pending.unit <$> getPending plan file
    = List.filter (λ u, 0 <? pendingOf u) plan
  ∧ Forall (λ p, Pending.pendingCommits p = pendingOf (Pending.unit p)
                 ∧ Pending.doneCommits p = completed (Pending.date p)
                 ∧ 0 < Pending.pendingCommits p)
      (getPending plan file)
  ∧ ∀ u k now1 now2,
      u ∈ plan → 0 < k < Unit.commits u →
      ∃ p, p ∈ getPending plan (markCompleted (Unit.date u) k now1 now2 file)
           ∧ Pending.unit p = u
           ∧ Pending.pendingCommits p = Unit.commits u - k
           ∧ Pending.doneCommits p = k.
Proof.
  intros completed pendingOf. split_and!.
  - rewrite getPending_filter, <- list_fmap_compose.
    erewrite (list_fmap_ext _ id); [by rewrite list_fmap_id|].
    intros i u _. apply unit_annotate.
  - rewrite getPending_filter. apply Forall_fmap, Forall_forall.
    intros u [_ Hu]%elem_of_filter_bool. cbn.
    split_and!; [done..|]. by apply Z.ltb_lt in Hu.
  - intros u k now1 now2 Hu Hk.
    set (file' := markCompleted (Unit.date u) k now1 now2 file).
    exists (annotate (loadTracker file') u).
    rewrite getPending_filter, unit_annotate. cbn [Pending.pendingCommits
      Pending.doneCommits annotate]. unfold file'.
    rewrite doneOf_markCompleted. split_and!; [|done|lia|done].
    apply list_elem_of_fmap_2, elem_of_filter_bool. split; [done|].
    unfold stillPending. rewrite doneOf_markCompleted. apply Z.ltb_lt. lia.
Qed.

(** C3. When the ledger holds, for the date of every unit of the plan, a
    record with at least the unit's [commits], nothing is pending. *)
Theorem getPending_all_done plan file :
  (∀ u, u ∈ plan →
     ∃ r, completed (loadTracker file) !! Unit.date u = Some r
          ∧ Unit.commits u ≤ Done.commits r) →
  getPending plan file = [].
Proof.
  intros Hdone. rewrite getPending_filter.
  replace (List.filter _ plan) with (@nil Unit.t); [done|].
  symmetry. induction plan as [|u plan IH]; [done|].
  cbn [List.filter].
  destruct (Hdone u) as (r & Hr & Hle); [left|].
  unfold stillPending at 1, doneOf. rewrite Hr.
  destruct (Z.ltb_spec 0 (Z.max 0 (Unit.commits u - Done.commits r))); [lia|].
  apply IH. intros v Hv. apply Hdone. by right.
Qed.

End Pending.

(** ** The plan *)

Section PlanFacts.

Variable FONT : gmap string glyph.
Variable toUpperCase : string → string.
Variable tz : JSTime.TimeZone.

Local Abbreviation layout := (Planner.layout FONT toUpperCase).
Local Abbreviation generatePlan :=
  (Planner.generatePlan FONT toUpperCase tz).

Implicit Types (text : string) (year P startWeek : Z) (B : option Z)
  (E : gmap string Z) (u : Unit.t).

Lemma layout_layoutInv text year startWeek :
  layoutInv FONT year (getGraphStartDate year) startWeek
    (layout text year startWeek).
Proof.
  apply scan_layoutInv. split_and!; cbn; [lia | constructor | constructor].
Qed.

Lemma layout_entry text year startWeek k e :
  (k, e) ∈ textPlanMap (layout text year startWeek) →
  pixelEntry FONT year (getGraphStartDate year) startWeek (k, e).
Proof.
  intros Hin. destruct (layout_layoutInv text year startWeek) as (_ & Hall & _).
  by eapply Forall_forall in Hall.
Qed.

Lemma layout_get text year startWeek k e :
  JSMap.get (textPlanMap (layout text year startWeek)) k = Some e →
  pixelEntry FONT year (getGraphStartDate year) startWeek (k, e).
Proof. intros ?%get_Some_elem. by eapply layout_entry. Qed.

Lemma elem_of_levelDay P m level E d u :
  u ∈ levelDay P m level E d →
  Unit.date u = formatDate d
  ∧ 0 < Unit.commits u
  ∧ Unit.commits u =
      Z.max 0 (levelTarget m level P (formatDate d) - existingOn E (formatDate d))
  ∧ ((∃ e, JSMap.get m (formatDate d) = Some e
           ∧ Unit.char u = Entry.char e ∧ Unit.row u = Entry.row e
           ∧ Unit.col u = Entry.col e)
     ∨ (JSMap.get m (formatDate d) = None
        ∧ Unit.char u = "bg" ∧ Unit.row u = -1 ∧ Unit.col u = -1)).
Proof.
  unfold Planner.levelDay, levelTarget, existingOn.
  destruct (Z.ltb_spec 0
    (Z.max 0 ((match JSMap.get m (formatDate d) with
               | Some _ => level + P | None => level end)
              - default 0 (E !! formatDate d)))) as [Hpos | Hneg];
    [|by intros ?%elem_of_nil].
  intros ->%list_elem_of_singleton. cbn. split_and!; [done..|].
  destruct (JSMap.get m (formatDate d)) as [e|]; [left; by exists e | by right].
Qed.

(** Where a unit of the plan comes from: the entry of [textPlanMap] for its
    date, or, in leveling mode only, a day without such an entry. *)
Lemma plan_origin text year P startWeek B E u :
  let m := textPlanMap (layout text year startWeek) in
  u ∈ generatePlan text year P startWeek B E →
  (∃ e, JSMap.get m (Unit.date u) = Some e
        ∧ Unit.char u = Entry.char e ∧ Unit.row u = Entry.row e
        ∧ Unit.col u = Entry.col e)
  ∨ (is_Some B ∧ JSMap.get m (Unit.date u) = None
     ∧ Unit.char u = "bg" ∧ Unit.row u = -1 ∧ Unit.col u = -1).
Proof.
  intros m. unfold Planner.generatePlan. rewrite elem_of_sortByDate.
  fold m. destruct B as [level|].
  - rewrite emit_leveling. intros (t & Hu & _)%list_elem_of_bind.
    apply elem_of_levelDay in Hu as (-> & _ & _ & [He | Hbg]); [by left|].
    right. by split.
  - rewrite emit_text.
    intros (e & -> & (kv & -> & Hkv)%list_elem_of_fmap)%list_elem_of_fmap.
    destruct kv as [k e]. left. exists e. cbn. split; [|done].
    pose proof (layout_entry _ _ _ _ _ Hkv) as (Hdate & _). cbn in Hdate.
    rewrite Hdate. apply elem_get_NoDup; [|done].
    apply (layout_layoutInv text year startWeek).
Qed.

Lemma entry_char_not_bg year graphStart lo kv :
  pixelEntry FONT year graphStart lo kv → Entry.char kv.2 ≠ "bg".
Proof.
  intros (_ & _ & [Hlen | Heq] & _) Hbg; rewrite Hbg in *; done.
Qed.

Lemma dates_of_text P (m : JSMap.t Entry.t) :
  Forall (λ kv, Entry.date kv.2 = kv.1) m →
  Unit.date <$> (unitOfEntry P <$> m.*2) = m.*1.
Proof.
  induction 1 as [|[k e] m Hk _ IH]; [done|]. cbn in *. by rewrite Hk, IH.
Qed.

Lemma dates_of_leveling P m level E (l : list Z) :
  Unit.date <$> (l ≫= λ t, levelDay P m level E (Some t))
    `sublist_of` (λ t, formatDate (Some t)) <$> l.
Proof.
  induction l as [|t l IH]; [done|]. rewrite bind_cons, fmap_app, fmap_cons.
  unfold Planner.levelDay at 1. case_match; cbn.
  - by apply sublist_skip.
  - by apply sublist_cons.
Qed.

Lemma formatDate_loopDays year t1 t2 :
  t1 ∈ loopDays tz year → t2 ∈ loopDays tz year →
  formatDate (Some t1) = formatDate (Some t2) → t1 = t2.
Proof.
  intros (_ & _ & H1)%elem_of_loopDays (_ & _ & H2)%elem_of_loopDays.
  apply formatDate_inj_year. congruence.
Qed.

Lemma unitsOn_levelDay_same P m level E d :
  unitsOn (formatDate d) (levelDay P m level E d) = levelDay P m level E d.
Proof.
  unfold unitsOn, Planner.levelDay. case_match; [|done].
  by rewrite filter_cons_True.
Qed.

Lemma unitsOn_levelDay_other P m level E d dateStr :
  formatDate d ≠ dateStr → unitsOn dateStr (levelDay P m level E d) = [].
Proof.
  intros Hne. unfold unitsOn, Planner.levelDay. case_match; [|done].
  by rewrite filter_cons_False.
Qed.

(** Among the days of one year, the units dated as day [d] are those the
    loop pushes on day [d]. *)
Lemma unitsOn_leveling P m level E (l : list Z) d :
  NoDup l → d ∈ l → (∀ t, t ∈ l → YearFromDay t = YearFromDay d) →
  unitsOn (formatDate (Some d)) (l ≫= λ t, levelDay P m level E (Some t))
    = levelDay P m level E (Some d).
Proof.
  assert (∀ l : list Z, d ∉ l → (∀ t, t ∈ l → YearFromDay t = YearFromDay d) →
            unitsOn (formatDate (Some d))
              (l ≫= λ t, levelDay P m level E (Some t)) = []) as Hnot.
  { clear l. induction l as [|t l IH]; intros Hd Hy; [done|].
    rewrite bind_cons. unfold unitsOn. rewrite filter_app.
    fold (unitsOn (formatDate (Some d)) (levelDay P m level E (Some t))).
    rewrite unitsOn_levelDay_other.
    - apply IH; [set_solver|]. intros. apply Hy. by right.
    - intros Heq.
      assert (t = d) as -> by (apply formatDate_inj_year; [apply Hy; left | done]).
      apply Hd. left. }
  induction l as [|t l IH]; intros Hnd Hd Hy; [by apply elem_of_nil in Hd|].
  apply NoDup_cons in Hnd as [Ht Hnd].
  rewrite bind_cons. unfold unitsOn. rewrite filter_app.
  fold (unitsOn (formatDate (Some d)) (levelDay P m level E (Some t))).
  fold (unitsOn (formatDate (Some d)) (l ≫= λ t, levelDay P m level E (Some t))).
  destruct (decide (t = d)) as [-> | Hne].
  - rewrite unitsOn_levelDay_same, Hnot, app_nil_r; [done..|].
    intros. apply Hy. by right.
  - rewrite unitsOn_levelDay_other, IH; [done | done | set_solver | |].
    + intros. apply Hy. by right.
    + intros Heq. apply Hne. apply formatDate_inj_year; [|done]. apply Hy. left.
Qed.

Lemma unitsOn_Permutation dateStr (l1 l2 : list Unit.t) :
  l1 ≡ₚ l2 → unitsOn dateStr l1 ≡ₚ unitsOn dateStr l2.
Proof. intros Hl. unfold unitsOn. by rewrite Hl. Qed.

(** In a leveling plan, the units dated as a day [d] the loop visits are
    those the loop pushes on that day; this holds for every [year]. *)
Lemma unitsOn_plan_leveling text year P startWeek level E d :
  d ∈ loopDays tz year →
  unitsOn (formatDate (Some d))
    (generatePlan text year P startWeek (Some level) E)
  ≡ₚ levelDay P (textPlanMap (layout text year startWeek)) level E (Some d).
Proof.
  intros Hd. unfold Planner.generatePlan. cbv zeta.
  rewrite (unitsOn_Permutation _ _ _ (sortByDate_Permutation _)).
  rewrite emit_leveling, unitsOn_leveling; [done | apply NoDup_loopDays | done |].
  apply elem_of_loopDays in Hd as (_ & _ & Hd).
  intros t (_ & _ & Ht)%elem_of_loopDays. congruence.
Qed.

End PlanFacts.

(** * The claims *)

Section Claims.

Variable FONT : gmap string glyph.
Variable toUpperCase : string → string.
Variable tz : JSTime.TimeZone.

Local Abbreviation layout := (Planner.layout FONT toUpperCase).
Local Abbreviation generatePlan :=
  (Planner.generatePlan FONT toUpperCase tz).
Local Abbreviation generatePlan_warnings :=
  (Planner.generatePlan_warnings FONT toUpperCase).
Local Abbreviation emit := (Planner.emit tz).

Implicit Types (text : string) (year P startWeek : Z) (B : option Z)
  (E : gmap string Z) (u : Unit.t).

Lemma WeekDay_anchor j : WeekDay (j - WeekDay j) = 0.
Proof. unfold WeekDay. divmod. Qed.

Lemma WeekDay_range j : 0 ≤ WeekDay j < 7.
Proof. unfold WeekDay. divmod. Qed.

Lemma getGraphStartDate_anchor year j :
  newDate year 0 1 = Some j →
  getGraphStartDate year = TimeClip (j - WeekDay j).
Proof.
  intros Hj. unfold getGraphStartDate. rewrite Hj.
  cbn [getDate getDay fmap option_fmap option_map mbind option_bind].
  replace (DateFromDay j - WeekDay j) with (DateFromDay j + - WeekDay j) by lia.
  by rewrite setDate_shift.
Qed.

Lemma offsetToDate_Some a week day :
  offsetToDate (Some a) week day = TimeClip (a + (week * 7 + day)).
Proof.
  unfold offsetToDate. cbn [getDate fmap option_fmap option_map].
  replace (DateFromDay a + week * 7 + day)
    with (DateFromDay a + (week * 7 + day)) by lia.
  apply setDate_shift.
Qed.

(** C4. When the loop comes to a key whose glyph does not fit
    ([currentWeek + width > 53]), it stops there: nothing is recorded for it
    or for the text after it, the warning is the last line logged, and
    [generatePlan] returns the plan of the entries recorded so far. *)
Theorem grid_overflow_truncation text year P startWeek B E
    s key rest matrix st :
  loopAt FONT year (getGraphStartDate year) (toUpperCase text)
    (initialState startWeek) s st →
  nextKey s = Some (key, rest) →
  FONT !! key = Some matrix →
  53 < currentWeek st + charWidthOf matrix →
  scan FONT year (getGraphStartDate year) s st = warn st (tooLongWarning key)
  ∧ textPlanMap (layout text year startWeek) = textPlanMap st
  ∧ generatePlan_warnings text year startWeek
      = warnings st ++ [tooLongWarning key]
  ∧ generatePlan text year P startWeek B E
      = sortByDate (emit year P B E (textPlanMap st)).
Proof.
  intros Hat Hkey Hfont Hov.
  assert (scan FONT year (getGraphStartDate year) s st
          = warn st (tooLongWarning key)) as Hstop.
  { rewrite (scan_step _ _ _ s key rest) by done.
    by apply visit_overflow with matrix. }
  assert (layout text year startWeek = warn st (tooLongWarning key)) as Hlay.
  { unfold Planner.layout. fold (initialState startWeek).
    by rewrite (loopAt_scan _ _ _ _ _ _ _ Hat). }
  unfold Planner.generatePlan, Planner.generatePlan_warnings.
  by rewrite Hlay.
Qed.

(** C5. When the loop comes to a key that is not in the font table, it logs
    the warning, leaves [currentWeek] and the recorded entries as they are,
    and goes on with the rest of the text; no unit of the returned plan has
    that key as its [char], and every unit's [char] is the background
    sentinel or a key of the font table. *)
Theorem unsupported_glyph_skip text year P startWeek B E s key rest st :
  loopAt FONT year (getGraphStartDate year) (toUpperCase text)
    (initialState startWeek) s st →
  nextKey s = Some (key, rest) →
  FONT !! key = None →
  let st' := warn st (notFoundWarning key) in
  scan FONT year (getGraphStartDate year) s st
    = scan FONT year (getGraphStartDate year) rest st'
  ∧ layout text year startWeek
      = scan FONT year (getGraphStartDate year) rest st'
  ∧ currentWeek st' = currentWeek st
  ∧ textPlanMap st' = textPlanMap st
  ∧ notFoundWarning key ∈ generatePlan_warnings text year startWeek
  ∧ Forall (λ u, Unit.char u ≠ key
                 ∧ (Unit.char u = "bg" ∨ is_Some (FONT !! Unit.char u)))
      (generatePlan text year P startWeek B E).
Proof.
  intros Hat Hkey Hfont st'.
  assert (scan FONT year (getGraphStartDate year) s st
          = scan FONT year (getGraphStartDate year) rest st') as Hstep.
  { rewrite (scan_step _ _ _ s key rest) by done. by apply visit_missing. }
  assert (layout text year startWeek
          = scan FONT year (getGraphStartDate year) rest st') as Hlay.
  { unfold Planner.layout. fold (initialState startWeek).
    by rewrite (loopAt_scan _ _ _ _ _ _ _ Hat). }
  split_and!; [done..| |].
  - unfold Planner.generatePlan_warnings. rewrite Hlay.
    destruct (scan_warnings FONT year (getGraphStartDate year) rest st')
      as [more ->].
    cbn. set_solver.
  - apply Forall_forall. intros u Hu.
    apply plan_origin in Hu as [(e & He & Hchar & _) | (_ & _ & Hbg & _)].
    + apply layout_get in He as (_ & _ & _ & matrix & _ & _ & _ & Hm & _).
      cbn in Hm. rewrite Hchar. split; [|right; by rewrite Hm].
      intros Heq. rewrite Heq in Hm. congruence.
    + split; [|by left]. rewrite Hbg. intros <-.
      by destruct (nextKey_shape _ _ _ Hkey).
Qed.

(** C6. A filled cell is recorded only when the day [anchor + week*7 + day]
    lies in the target year: a cell whose day lies in another year leaves the
    map as it is, a filled cell whose day lies in the target year is recorded
    under that day, every recorded entry and every text unit of the plan is
    dated by the day of its own cell, a day of the target year; the anchor is
    the Sunday on or before January 1. *)
Theorem target_year_filter text year P startWeek B E :
  let anchor := getGraphStartDate year in
  (∀ key matrix week m row col,
     getFullYear (offsetToDate anchor (week + col) row) ≠ Some year →
     placePixel year anchor key matrix week m row col = m)
  ∧ (∀ key matrix week m row col t,
       cell matrix row col = Some 1 →
       offsetToDate anchor (week + col) row = Some t →
       getFullYear (Some t) = Some year →
       placePixel year anchor key matrix week m row col =
         JSMap.set m (formatDate (Some t))
           {| Entry.date := formatDate (Some t); Entry.isText := true;
              Entry.char := key; Entry.row := row; Entry.col := week + col |})
  ∧ Forall (λ kv, ∃ t,
              offsetToDate anchor (Entry.col kv.2) (Entry.row kv.2) = Some t
              ∧ getFullYear (Some t) = Some year
              ∧ kv.1 = formatDate (Some t)
              ∧ Entry.date kv.2 = kv.1)
      (textPlanMap (layout text year startWeek))
  ∧ Forall (λ u, Unit.char u ≠ "bg" → ∃ t,
              offsetToDate anchor (Unit.col u) (Unit.row u) = Some t
              ∧ getFullYear (Some t) = Some year
              ∧ Unit.date u = formatDate (Some t))
      (generatePlan text year P startWeek B E)
  ∧ (∀ j, newDate year 0 1 = Some j →
       ∃ a, anchor = TimeClip a ∧ WeekDay a = 0 ∧ a ≤ j < a + 7
            ∧ ∀ week day,
                offsetToDate (Some a) week day = TimeClip (a + (week * 7 + day))).
Proof.
  intros anchor. split_and!.
  - intros key matrix week m row col Hy. unfold Planner.placePixel.
    rewrite (bool_decide_eq_false_2 _ Hy). by case_bool_decide.
  - intros key matrix week m row col t Hc Ht Hy. unfold Planner.placePixel.
    rewrite (bool_decide_eq_true_2 _ Hc), Ht.
    by rewrite (bool_decide_eq_true_2 _ Hy).
  - apply Forall_forall. intros [k e] Hin.
    apply layout_entry in Hin
      as (Hd & _ & _ & matrix & week & c & t & _ & _ & _ & _ & _ & _ & _ & Ht & Hy & Hk).
    exists t. cbn in *. by rewrite Hy.
  - apply Forall_forall. intros u Hu Hnbg.
    apply plan_origin in Hu as [(e & He & Hchar & Hrow & Hcol) | (_ & _ & Hbg & _)];
      [|done].
    apply layout_get in He
      as (Hd & _ & _ & matrix & week & c & t & _ & _ & _ & _ & _ & _ & _ & Ht & Hy & Hk).
    exists t. cbn in *. by rewrite Hrow, Hcol, Hy.
  - intros j Hj. exists (j - WeekDay j).
    pose proof (WeekDay_range j).
    split_and!; [by apply getGraphStartDate_anchor | apply WeekDay_anchor
                | lia | lia | apply offsetToDate_Some].
Qed.

(** C7. Every plan is sorted ascending by date string and holds each date at
    most once, with or without leveling. *)
Theorem plan_sorted_unique text year P startWeek B E :
  StronglySorted dateLe (generatePlan text year P startWeek B E)
  ∧ NoDup (Unit.date <$> generatePlan text year P startWeek B E).
Proof.
  split; [apply sortByDate_sorted|].
  unfold Planner.generatePlan. rewrite sortByDate_Permutation.
  destruct (layout_layoutInv FONT toUpperCase text year startWeek)
    as (_ & Hall & Hnd).
  destruct B as [level|].
  - rewrite emit_leveling.
    eapply sublist_NoDup; [|apply dates_of_leveling].
    apply NoDup_fmap_2_strong; [|apply NoDup_loopDays].
    intros t1 t2. apply formatDate_loopDays.
  - rewrite emit_text, dates_of_text; [done|].
    eapply Forall_impl; [exact Hall|]. by intros kv (Hd & _).
Qed.

(** C8. With [startWeek >= 0], every unit that comes from a text pixel has
    its row in [0, 7) and its column in [0, 53). *)
Theorem glyph_containment text year P startWeek B E u :
  0 ≤ startWeek →
  u ∈ generatePlan text year P startWeek B E →
  Unit.char u ≠ "bg" →
  0 ≤ Unit.row u < 7 ∧ 0 ≤ Unit.col u < 53.
Proof.
  intros Hsw Hu Hnbg.
  apply plan_origin in Hu as [(e & He & _ & Hrow & Hcol) | (_ & _ & Hbg & _)];
    [|done].
  apply layout_get in He
    as (_ & _ & _ & matrix & week & c & t & _ & Hlo & Hfit & Hr & Hc & Hcol' & _).
  cbn in *. lia.
Qed.

(** C9. Without leveling the plan does not depend on the existing counts,
    and every unit has [commits = commitsPerPixel]. *)
Theorem no_leveling_ignores_existing text year P startWeek E1 E2 :
  generatePlan text year P startWeek None E1
    = generatePlan text year P startWeek None E2
  ∧ Forall (λ u, Unit.commits u = P) (generatePlan text year P startWeek None E1).
Proof.
  split; [done|]. apply Forall_forall. intros u.
  unfold Planner.generatePlan. rewrite elem_of_sortByDate, emit_text.
  by intros (e & -> & _)%list_elem_of_fmap.
Qed.

(** C10. In every plan a unit has [char = "bg"] exactly when its row and
    column are both -1; such units occur only with a background level, and
    every other unit carries the key and the coordinates of the text-pixel
    entry for its date. *)
Theorem sentinel_coupling text year P startWeek B E :
  Forall (λ u,
            (Unit.char u = "bg" ↔ Unit.row u = -1 ∧ Unit.col u = -1)
            ∧ (Unit.char u = "bg" → is_Some B)
            ∧ (Unit.char u ≠ "bg" →
               ∃ e, JSMap.get (textPlanMap (layout text year startWeek))
                      (Unit.date u) = Some e
                    ∧ Unit.char u = Entry.char e
                    ∧ Unit.row u = Entry.row e
                    ∧ Unit.col u = Entry.col e))
    (generatePlan text year P startWeek B E).
Proof.
  apply Forall_forall. intros u Hu.
  apply plan_origin in Hu
    as [(e & He & Hchar & Hrow & Hcol) | (HB & _ & Hbg & Hrow & Hcol)].
  - pose proof (layout_get _ _ _ _ _ _ _ He) as Hpix.
    pose proof (entry_char_not_bg _ _ _ _ _ Hpix) as Hnbg.
    destruct Hpix as (_ & _ & _ & matrix & week & c & t & _ & _ & _ & Hr & _).
    cbn in *. split_and!.
    + split; [congruence | lia].
    + congruence.
    + intros _. by exists e.
  - split_and!; [done | done | congruence].
Qed.

(** Leveling correctness where the loop does not drift: for a year that the
    [Date] constructor takes as written and whose January 1 and December 31
    are valid dates, in a zone that skips no local midnight of the year, the
    leveling plan has, for every calendar day [d] of the year, exactly one
    unit, with [commits = max(0, target(d) - E.get(d, 0))], when that is
    positive, and no unit when the existing count meets the target. *)
Lemma leveling_correct_kept text year P startWeek level E :
  midnightsKept tz year →
  year < 0 ∨ 99 < year →
  is_Some (JSTime.newDate tz year 0 1) →
  is_Some (JSTime.newDate tz year 11 31) →
  levelingCorrect FONT toUpperCase tz text year P startWeek level E.
Proof.
  intros Hkept Hyr H1 H31 d Hd. cbv zeta.
  set (m := textPlanMap (layout text year startWeek)).
  set (dateStr := formatDate (Some d)).
  assert (MakeFullYear year = year) as Hfull.
  { unfold MakeFullYear. destruct (Z.leb_spec 0 year); [|done].
    destruct (Z.leb_spec year 99); [lia | done]. }
  assert (d ∈ loopDays tz year) as Hin.
  { rewrite loopDays_kept by done. unfold yearDays. apply elem_of_seqZ.
    rewrite Hfull. apply YearFromDay_iff in Hd.
    rewrite DayFromYear_succ in Hd. lia. }
  pose proof (unitsOn_plan_leveling FONT toUpperCase tz text year P startWeek
                level E d Hin) as Hperm.
  fold m dateStr in Hperm.
  unfold Planner.levelDay in Hperm. fold dateStr in Hperm.
  fold (levelTarget m level P dateStr) in Hperm.
  fold (existingOn E dateStr) in Hperm.
  split.
  - intros Hpos. rewrite (proj2 (Z.ltb_lt _ _) Hpos) in Hperm.
    apply Permutation_singleton_r in Hperm. eexists. split; [exact Hperm|done].
  - intros Hmet.
    rewrite (proj2 (Z.ltb_ge _ _)) in Hperm by lia.
    by apply Permutation_nil_r in Hperm.
Qed.

End Claims.

(** * The claims on concrete inputs *)

Section Examples.

Example anchor_2026 : formatDate (getGraphStartDate 2026) = "2025-12-28".
Proof. reflexivity. Qed.

Example leap_day_2024 : formatDate (newDate 2024 1 29) = "2024-02-29".
Proof. reflexivity. Qed.

Example two_digit_year : formatDate (newDate 50 0 1) = "1950-01-01".
Proof. reflexivity. Qed.

Example year_out_of_range : newDate 300000 0 1 = None.
Proof. reflexivity. Qed.

(** "H" at week 0 of 2026: the cells of rows 0 to 3 of the first column fall
    in December 2025 and are dropped. *)
Example first_column_2026 :
  take 3 (generatePlan Demo.font Demo.asciiUpper JSTime.utc "h" 2026 20 0 None ∅) =
    [ Unit.mk "2026-01-01" 20 "H" 4 0; Unit.mk "2026-01-02" 20 "H" 5 0;
      Unit.mk "2026-01-03" 20 "H" 6 0 ].
Proof. vm_compute. reflexivity. Qed.

Example warnings_logged :
  generatePlan_warnings Demo.font Demo.asciiUpper "h?<3i<3<3<3<3<3<3" 2026 1 =
    [ "Warning: Character '?' not found in font, skipping";
      "Warning: Text too long, stopping at character '<3'" ].
Proof. vm_compute. reflexivity. Qed.

Example leveling_2026 :
  take 4 (generatePlan Demo.font Demo.asciiUpper JSTime.utc "h" 2026 20 0 (Some 5)
            {[ "2026-01-01" := 5 ]}) =
    [ Unit.mk "2026-01-01" 20 "H" 4 0; Unit.mk "2026-01-02" 25 "H" 5 0;
      Unit.mk "2026-01-03" 25 "H" 6 0; Unit.mk "2026-01-04" 5 "bg" (-1) (-1) ].
Proof. vm_compute. reflexivity. Qed.

End Examples.

(** C3 on a plan of two days, both marked completed. *)
Lemma getPending_all_done_witness : Tracker.getPending Demo.twoDays Demo.twoDaysDone = [].
Proof.
  apply getPending_all_done. intros u Hu.
  apply elem_of_cons in Hu as [-> | Hu];
    [|apply list_elem_of_singleton in Hu as ->].
  - exists (Tracker.Done.mk 25 "t1"). split; [reflexivity | cbn; lia].
  - exists (Tracker.Done.mk 20 "t3"). split; [reflexivity | cbn; lia].
Defined.

(** C4 on "i<3" from week 45: "I" is placed, the heart does not fit. *)
Lemma grid_overflow_truncation_witness :
  scan Demo.font 2026 (getGraphStartDate 2026) "<3" Demo.afterI
    = warn Demo.afterI (tooLongWarning "<3")
  ∧ textPlanMap (layout Demo.font Demo.asciiUpper "i<3" 2026 45)
      = textPlanMap Demo.afterI
  ∧ generatePlan_warnings Demo.font Demo.asciiUpper "i<3" 2026 45
      = warnings Demo.afterI ++ [tooLongWarning "<3"]
  ∧ generatePlan Demo.font Demo.asciiUpper JSTime.utc "i<3" 2026 20 45 None ∅
      = sortByDate (emit JSTime.utc 2026 20 None ∅ (textPlanMap Demo.afterI)).
Proof.
  apply (grid_overflow_truncation Demo.font Demo.asciiUpper JSTime.utc "i<3" 2026 20 45
           None ∅ "<3" "<3" "" Demo.glyphHeart Demo.afterI).
  - apply (loopAt_place Demo.font 2026 (getGraphStartDate 2026) "I<3"
             (initialState 45) "I<3" "I" "<3" Demo.glyphI (initialState 45)).
    + apply loopAt_start.
    + reflexivity.
    + reflexivity.
    + vm_compute. discriminate.
  - reflexivity.
  - reflexivity.
  - vm_compute. reflexivity.
Defined.

(** C5 on "h?i" from week 1: "?" is not in the font. *)
Lemma unsupported_glyph_skip_witness :
  let st' := warn Demo.afterH (notFoundWarning "?") in
  scan Demo.font 2026 (getGraphStartDate 2026) "?I" Demo.afterH
    = scan Demo.font 2026 (getGraphStartDate 2026) "I" st'
  ∧ layout Demo.font Demo.asciiUpper "h?i" 2026 1
      = scan Demo.font 2026 (getGraphStartDate 2026) "I" st'
  ∧ currentWeek st' = currentWeek Demo.afterH
  ∧ textPlanMap st' = textPlanMap Demo.afterH
  ∧ notFoundWarning "?"
      ∈ generatePlan_warnings Demo.font Demo.asciiUpper "h?i" 2026 1
  ∧ Forall (λ u, Unit.char u ≠ "?"
                 ∧ (Unit.char u = "bg" ∨ is_Some (Demo.font !! Unit.char u)))
      (generatePlan Demo.font Demo.asciiUpper JSTime.utc "h?i" 2026 20 1 (Some 5) ∅).
Proof.
  apply (unsupported_glyph_skip Demo.font Demo.asciiUpper JSTime.utc "h?i" 2026 20 1
           (Some 5) ∅ "?I" "?" "I" Demo.afterH).
  - apply (loopAt_place Demo.font 2026 (getGraphStartDate 2026) "H?I"
             (initialState 1) "H?I" "H" "?I" Demo.glyphH (initialState 1)).
    + apply loopAt_start.
    + reflexivity.
    + reflexivity.
    + vm_compute. discriminate.
  - reflexivity.
  - reflexivity.
Defined.

(** C8 on the first unit of "hi" from week 1. *)
Lemma glyph_containment_witness :
  let u := Unit.mk "2026-01-04" 20 "H" 0 1 in
  0 ≤ 1
  ∧ u ∈ generatePlan Demo.font Demo.asciiUpper JSTime.utc "hi" 2026 20 1 None ∅
  ∧ Unit.char u ≠ "bg"
  ∧ (0 ≤ Unit.row u < 7 ∧ 0 ≤ Unit.col u < 53).
Proof.
  assert (Unit.mk "2026-01-04" 20 "H" 0 1
            ∈ generatePlan Demo.font Demo.asciiUpper JSTime.utc "hi" 2026 20 1 None ∅)
    as Hin by (vm_compute; left).
  split; [lia|]. split; [exact Hin|]. split; [discriminate|].
  apply (glyph_containment Demo.font Demo.asciiUpper JSTime.utc "hi" 2026 20 1 None ∅
           (Unit.mk "2026-01-04" 20 "H" 0 1));
    [lia | exact Hin | discriminate].
Defined.

(** The leveling loop in the zone of Santiago, 2026: local midnight of
    September 6 is skipped, the loop's date comes to 01:00 there and stays
    at 01:00, and on December 31 it is later than the end date. *)
Example santiago_drift :
  JSTime.LocalTime Demo.santiago
    (JSTime.UTC Demo.santiago (JSTime.MakeDate (MakeDay 2026 8 6) 0))
    = JSTime.MakeDate (MakeDay 2026 8 6) JSTime.msPerHour
  ∧ last (loopDays Demo.santiago 2026) = Some (MakeDay 2026 11 30)
  ∧ last (loopDays JSTime.utc 2026) = Some (MakeDay 2026 11 31)
  ∧ last (loopDays Demo.berlin 2026) = Some (MakeDay 2026 11 31).
Proof. vm_compute. done. Qed.

(** C1 fails on the code where the host's zone skips a local midnight of
    the year.  In the zone of Santiago, for the empty text, 2026, one commit
    per pixel, background level 1 and no existing counts, December 31 needs
    one commit, yet the plan has 364 units, the last one dated December 30,
    and none for December 31; in universal time the same call gives 365
    units, the last one dated December 31. *)
Theorem leveling_skips_last_day :
  let plan :=
    generatePlan Demo.font Demo.asciiUpper Demo.santiago "" 2026 1 0 (Some 1) ∅ in
  let m := textPlanMap (layout Demo.font Demo.asciiUpper "" 2026 0) in
  let d := MakeDay 2026 11 31 in
  YearFromDay d = 2026
  ∧ formatDate (Some d) = "2026-12-31"
  ∧ Z.max 0 (levelTarget m 1 1 "2026-12-31" - existingOn ∅ "2026-12-31") = 1
  ∧ length plan = 364%nat
  ∧ Unit.date <$> last plan = Some "2026-12-30"
  ∧ unitsOn "2026-12-31" plan = []
  ∧ ¬ levelingCorrect Demo.font Demo.asciiUpper Demo.santiago "" 2026 1 0 1 ∅
  ∧ length (generatePlan Demo.font Demo.asciiUpper JSTime.utc "" 2026 1 0
              (Some 1) ∅) = 365%nat
  ∧ Unit.date
      <$> last (generatePlan Demo.font Demo.asciiUpper JSTime.utc "" 2026 1 0
                  (Some 1) ∅) = Some "2026-12-31".
Proof.
  cbv zeta.
  assert (unitsOn "2026-12-31"
            (generatePlan Demo.font Demo.asciiUpper Demo.santiago "" 2026 1 0
               (Some 1) ∅) = [])
    as Hnone by (vm_compute; reflexivity).
  split_and!; [reflexivity | reflexivity | reflexivity
              | vm_compute; reflexivity | vm_compute; reflexivity
              | exact Hnone | | vm_compute; reflexivity
              | vm_compute; reflexivity].
  intros Hclaim.
  destruct (Hclaim (MakeDay 2026 11 31) eq_refl) as [Hpos _].
  change (formatDate (Some (MakeDay 2026 11 31))) with "2026-12-31" in Hpos.
  destruct Hpos as (u & Hu & _); [reflexivity|].
  rewrite Hnone in Hu. discriminate.
Qed.

(** * Further properties *)

(** ** The ledger *)

Section Ledger.

Import Tracker.

Implicit Types (plan : list Unit.t) (file : TrackerFile) (u : Unit.t).

Lemma ledgerCount_markCompleted date k now1 now2 file d :
  ledgerCount (markCompleted date k now1 now2 file) d =
    if decide (d = date) then k else ledgerCount file d.
Proof.
  unfold ledgerCount, doneOf. cbn. destruct (decide (d = date)) as [-> | Hne].
  - by rewrite lookup_insert_eq.
  - by rewrite lookup_insert_ne.
Qed.

Lemma stillPending_ext data1 data2 u :
  doneOf data1 (Unit.date u) = doneOf data2 (Unit.date u) →
  stillPending data1 u = stillPending data2 u
  ∧ annotate data1 u = annotate data2 u.
Proof. unfold stillPending, annotate. by intros ->. Qed.

Lemma filter_bool_ext_in {A} (f g : A → bool) (l : list A) :
  (∀ x, x ∈ l → f x = g x) → List.filter f l = List.filter g l.
Proof.
  induction l as [|x l IH]; intros Hfg; [done|]. cbn.
  rewrite (Hfg x) by left. rewrite IH; [done|]. intros y Hy. apply Hfg. by right.
Qed.

Lemma filter_bool_filter {A} (f g : A → bool) (l : list A) :
  List.filter f (List.filter g l) = List.filter (λ x, g x && f x) l.
Proof.
  induction l as [|x l IH]; [done|]. cbn.
  destruct (g x); cbn; [destruct (f x)|]; by rewrite IH.
Qed.

Lemma filter_bool_all {A} (f : A → bool) (l : list A) :
  (∀ x, x ∈ l → f x = true) → List.filter f l = l.
Proof.
  induction l as [|x l IH]; intros Hf; [done|]. cbn.
  rewrite (Hf x) by left. f_equal. apply IH. intros y Hy. apply Hf. by right.
Qed.

Lemma filter_bool_fmap {A B} (h : A → B) (f : B → bool) (l : list A) :
  List.filter f (h <$> l) = h <$> List.filter (λ x, f (h x)) l.
Proof.
  induction l as [|x l IH]; [done|]. cbn. fold (h <$> l).
  destruct (f (h x)); cbn; by rewrite IH.
Qed.

(** X1. [markCompleted] records the count under its date and leaves the
    other dates alone; a second mark on the same date replaces the first (the
    counts do not add up), and the file written is the one a single mark
    would have written. *)
Theorem markCompleted_ledger date k now1 now2 file :
  (∀ d, ledgerCount (markCompleted date k now1 now2 file) d =
          if decide (d = date) then k else ledgerCount file d)
  ∧ lastRun (loadTracker (markCompleted date k now1 now2 file)) = Some now2
  ∧ (∀ k' now3 now4,
       markCompleted date k' now3 now4 (markCompleted date k now1 now2 file)
         = markCompleted date k' now3 now4 file).
Proof.
  split_and!; [apply ledgerCount_markCompleted | done |].
  intros k' now3 now4. unfold markCompleted, saveTracker. cbn.
  by rewrite insert_insert_eq.
Qed.

(** X2. A missing tracker file, an unreadable one and a reset one all read
    as the empty ledger: every unit with positive [commits] is pending in
    full, with [doneCommits = 0]. *)
Theorem getPending_without_ledger plan file :
  getPending plan Missing = getPending plan Corrupt
  ∧ getPending plan (resetTracker file) = getPending plan Missing
  ∧ Pending.unit <$> getPending plan Missing
      = List.filter (λ u, 0 <? Unit.commits u) plan
  ∧ Forall (λ p, Pending.pendingCommits p = Pending.commits p
                 ∧ Pending.doneCommits p = 0)
      (getPending plan Missing).
Proof.
  split_and!; [done | done | |].
  - rewrite getPending_filter, <- list_fmap_compose.
    erewrite (list_fmap_ext _ id); [rewrite list_fmap_id|].
    + apply filter_bool_ext_in. intros u _. unfold stillPending, doneOf. cbn.
      rewrite lookup_empty. destruct (Z.ltb_spec 0 (Unit.commits u));
        [apply Z.ltb_lt | apply Z.ltb_ge]; lia.
    + intros i u _. apply unit_annotate.
  - rewrite getPending_filter. apply Forall_fmap, Forall_forall.
    intros u [_ Hu]%elem_of_filter_bool. unfold stillPending, doneOf in Hu.
    cbn in *. unfold doneOf. cbn. rewrite lookup_empty in *.
    apply Z.ltb_lt in Hu. split; [lia | done].
Qed.

(** X3. For every pending entry the two annotations add up to the unit's
    [commits], and [pendingCommits] is positive. *)
Theorem getPending_accounts plan file :
  Forall (λ p, Pending.pendingCommits p + Pending.doneCommits p
                 = Pending.commits p
               ∧ 0 < Pending.pendingCommits p)
    (getPending plan file).
Proof.
  rewrite getPending_filter. apply Forall_fmap, Forall_forall.
  intros u [_ Hu]%elem_of_filter_bool. unfold stillPending in Hu.
  apply Z.ltb_lt in Hu. cbn. lia.
Qed.

Lemma getPending_mark_frame plan file date k now1 now2 :
  List.filter (λ p, negb (String.eqb (Pending.date p) date))
    (getPending plan (markCompleted date k now1 now2 file))
  = List.filter (λ p, negb (String.eqb (Pending.date p) date))
      (getPending plan file).
Proof.
  rewrite !getPending_filter, !filter_bool_fmap. cbn [annotate Pending.date].
  rewrite !filter_bool_filter.
  induction plan as [|u plan IH]; [done|]. cbn [List.filter].
  destruct (String.eqb_spec (Unit.date u) date) as [Heq | Hne].
  - rewrite !andb_false_r. apply IH.
  - rewrite !andb_true_r.
    destruct (stillPending_ext (loadTracker (markCompleted date k now1 now2 file))
                (loadTracker file) u) as [-> Hann].
    { pose proof (ledgerCount_markCompleted date k now1 now2 file (Unit.date u)) as H.
      by rewrite decide_False in H. }
    destruct (stillPending (loadTracker file) u); [|apply IH].
    cbn [fmap list_fmap]. f_equal; [done | apply IH].
Qed.

(** X4. Marking a date touches the pending entries of that date only; when
    the count marked covers every unit of the plan on that date, the pending
    list afterwards is the one before without that date. *)
Theorem getPending_after_mark plan file date k now1 now2 :
  List.filter (λ p, negb (String.eqb (Pending.date p) date))
    (getPending plan (markCompleted date k now1 now2 file))
  = List.filter (λ p, negb (String.eqb (Pending.date p) date))
      (getPending plan file)
  ∧ ((∀ u, u ∈ plan → Unit.date u = date → Unit.commits u ≤ k) →
     getPending plan (markCompleted date k now1 now2 file)
     = List.filter (λ p, negb (String.eqb (Pending.date p) date))
         (getPending plan file)).
Proof.
  split; [apply getPending_mark_frame|].
  intros Hcover. rewrite <- (getPending_mark_frame plan file date k now1 now2).
  symmetry. apply filter_bool_all. intros p Hp.
  rewrite getPending_filter in Hp.
  apply list_elem_of_fmap in Hp as (u & -> & [Hu Hpend]%elem_of_filter_bool).
  cbn. destruct (String.eqb_spec (Unit.date u) date) as [Heq | Hne]; [|done].
  exfalso. unfold stillPending in Hpend. apply Z.ltb_lt in Hpend.
  pose proof (ledgerCount_markCompleted date k now1 now2 file (Unit.date u)) as H.
  rewrite decide_True in H by done. unfold ledgerCount in H.
  rewrite H in Hpend. specialize (Hcover u Hu Heq). lia.
Qed.

Lemma lastMade_None d (log : list (string * Z)) :
  d ∉ log.*1 → lastMade d log = None.
Proof.
  induction log as [|[d' k] log IH]; [done|]. cbn.
  intros [Hne Hnin]%not_elem_of_cons. rewrite IH by done.
  destruct (String.eqb_spec d' d); [congruence | done].
Qed.

Lemma lastMade_NoDup d k (log : list (string * Z)) :
  NoDup log.*1 → (d, k) ∈ log → lastMade d log = Some k.
Proof.
  induction log as [|[d' k'] log IH]; [by intros _ ?%elem_of_nil|].
  cbn. intros [Hnin Hnd]%NoDup_cons [[= -> ->] | Hin]%elem_of_cons.
  - rewrite lastMade_None by done. by rewrite String.eqb_refl.
  - by rewrite IH.
Qed.

Lemma NoDup_fmap_eq {A B} (f : A → B) (l : list A) x y :
  NoDup (f <$> l) → x ∈ l → y ∈ l → f x = f y → x = y.
Proof.
  induction l as [|z l IH]; [by intros _ ?%elem_of_nil|].
  cbn. intros [Hnin Hnd]%NoDup_cons [-> | Hx]%elem_of_cons [-> | Hy]%elem_of_cons Hf.
  - done.
  - exfalso. apply Hnin. rewrite Hf. by apply list_elem_of_fmap_2.
  - exfalso. apply Hnin. rewrite <- Hf. by apply list_elem_of_fmap_2.
  - by apply IH.
Qed.

Lemma getPending_dates plan f :
  Pending.date <$> getPending plan f `sublist_of` Unit.date <$> plan.
Proof.
  rewrite getPending_filter, <- list_fmap_compose.
  induction plan as [|u plan IH]; [done|]. cbn [List.filter].
  destruct (stillPending (loadTracker f) u); cbn.
  - by apply sublist_skip.
  - by apply sublist_cons.
Qed.

Lemma elem_of_getPending plan f p :
  p ∈ getPending plan f ↔
    ∃ u, u ∈ plan ∧ stillPending (loadTracker f) u = true
         ∧ p = annotate (loadTracker f) u.
Proof.
  rewrite getPending_filter, list_elem_of_fmap.
  setoid_rewrite elem_of_filter_bool. naive_solver.
Qed.

(** The pending list after the ledger changed on the dates [D] so as to
    cover the plan's units there, and nowhere else. *)
Lemma getPending_covered plan f f' (D : list string) :
  (∀ u, u ∈ plan → Unit.date u ∉ D →
        ledgerCount f' (Unit.date u) = ledgerCount f (Unit.date u)) →
  (∀ u, u ∈ plan → Unit.date u ∈ D →
        Unit.commits u ≤ ledgerCount f' (Unit.date u)) →
  getPending plan f' =
    List.filter (λ p, negb (bool_decide (Pending.date p ∈ D)))
      (getPending plan f).
Proof.
  rewrite !getPending_filter, filter_bool_fmap. cbn [annotate Pending.date].
  rewrite filter_bool_filter.
  induction plan as [|u plan IH]; intros Hout Hin; [done|]. cbn [List.filter].
  assert (annotate (loadTracker f') <$> List.filter (stillPending (loadTracker f')) plan
          = annotate (loadTracker f) <$>
              List.filter (λ x, stillPending (loadTracker f) x
                                && negb (bool_decide (Unit.date x ∈ D))) plan)
    as Htail.
  { apply IH; intros v Hv; [apply Hout | apply Hin]; by right. }
  destruct (decide (Unit.date u ∈ D)) as [HD | HD].
  - rewrite (bool_decide_eq_true_2 _ HD), andb_false_r.
    specialize (Hin u ltac:(left) HD). unfold ledgerCount in Hin.
    unfold stillPending at 1.
    destruct (Z.ltb_spec 0 (Z.max 0 (Unit.commits u
                - doneOf (loadTracker f') (Unit.date u)))); [lia | done].
  - rewrite (bool_decide_eq_false_2 _ HD), andb_true_r.
    specialize (Hout u ltac:(left) HD).
    destruct (stillPending_ext (loadTracker f') (loadTracker f) u Hout)
      as [-> Hann].
    destruct (stillPending (loadTracker f) u); [|done].
    cbn [fmap list_fmap]. f_equal; [done | exact Htail].
Qed.

Lemma filter_out_prefix (proc rest : list Pending.t) :
  NoDup (Pending.date <$> (proc ++ rest)) →
  List.filter (λ p, negb (bool_decide (Pending.date p ∈ Pending.date <$> proc)))
    (proc ++ rest) = rest.
Proof.
  rewrite fmap_app. intros (Hp & Hdisj & Hr)%NoDup_app.
  rewrite List.filter_app.
  rewrite (filter_bool_ext_in _ (λ _, false) proc).
  - rewrite (filter_bool_all _ rest).
    + clear. by induction proc.
    + intros p Hin. apply negb_true_iff, bool_decide_eq_false_2.
      intros Hd. apply (Hdisj _ Hd). by apply list_elem_of_fmap_2.
  - intros p Hin. apply negb_false_iff, bool_decide_eq_true_2.
    by apply list_elem_of_fmap_2.
Qed.

End Ledger.

(** ** Making the commits *)

Section Run.

Import Tracker Committer Index.

Lemma count_turns_range (ok : Z → bool) (l : list Z) acc :
  acc ≤ foldl (λ committed i, if ok i then committed + 1 else committed) acc l
      ≤ acc + Z.of_nat (length l).
Proof.
  revert acc. induction l as [|i l IH]; intros acc; cbn [foldl length]; [lia|].
  destruct (ok i); specialize (IH (acc + 1)) as H1; specialize (IH acc) as H0;
    lia.
Qed.

Lemma count_turns_all (ok : Z → bool) (l : list Z) acc :
  (∀ i, i ∈ l → ok i = true) →
  foldl (λ committed i, if ok i then committed + 1 else committed) acc l
    = acc + Z.of_nat (length l).
Proof.
  revert acc. induction l as [|i l IH]; intros acc Hok; cbn [foldl length]; [lia|].
  rewrite (Hok i) by left. rewrite IH; [lia|]. intros j Hj. apply Hok. by right.
Qed.

Lemma count_turns_none (ok : Z → bool) (l : list Z) acc :
  (∀ i, i ∈ l → ok i = false) →
  foldl (λ committed i, if ok i then committed + 1 else committed) acc l = acc.
Proof.
  revert acc. induction l as [|i l IH]; intros acc Hok; cbn [foldl]; [done|].
  rewrite (Hok i) by left. apply IH. intros j Hj. apply Hok. by right.
Qed.

Lemma makeCommits_range git count dryRun :
  0 ≤ makeCommits git count dryRun ≤ Z.max 0 count.
Proof.
  unfold makeCommits.
  pose proof (count_turns_range (λ i, dryRun || git i) (seqZ 0 count) 0) as H.
  rewrite length_seqZ in H. lia.
Qed.

Lemma makeCommits_all git count dryRun :
  (∀ i, 0 ≤ i < count → dryRun || git i = true) →
  makeCommits git count dryRun = Z.max 0 count.
Proof.
  intros Hok. unfold makeCommits.
  rewrite (count_turns_all (λ i, dryRun || git i)).
  - rewrite length_seqZ. lia.
  - intros i Hi%elem_of_seqZ. apply Hok. lia.
Qed.

(** X5. [makeCommits] returns between 0 and [count] (0 for a [count] that is
    not positive); it returns [count] on a dry run and when every turn
    succeeds, and 0 when no turn does. *)
Theorem makeCommits_counts git count :
  (∀ dryRun, 0 ≤ makeCommits git count dryRun ≤ Z.max 0 count)
  ∧ makeCommits git count true = Z.max 0 count
  ∧ ((∀ i, 0 ≤ i < count → git i = true) →
     makeCommits git count false = Z.max 0 count)
  ∧ ((∀ i, 0 ≤ i < count → git i = false) →
     makeCommits git count false = 0).
Proof.
  split_and!.
  - intros dryRun. apply makeCommits_range.
  - by apply makeCommits_all.
  - intros Hok. apply makeCommits_all. intros i Hi. by rewrite Hok.
  - intros Hko. unfold makeCommits. apply (count_turns_none (λ i, false || git i)).
    intros i Hi%elem_of_seqZ. cbn. apply Hko. lia.
Qed.

Variable batchLimit : Z.
Variable git : Z → Z → bool.
Variable clock : Z → string * string.

Local Abbreviation executeLoop := (Index.executeLoop batchLimit git clock).
Local Abbreviation executeCommits := (Index.executeCommits batchLimit git clock).

(** What one run of the loop does, read off its log: the entries processed
    are a prefix of the pending list, each logged under its date with a count
    between 0 and its [commits]; the loop stops early only at the batch
    limit; the counters follow the log; and the ledger holds, for each date,
    the count of the last call for that date. *)
Lemma executeLoop_log pending st :
  ∃ proc rest new,
    pending = proc ++ rest
    ∧ made (executeLoop pending st) = made st ++ new
    ∧ Forall2 (λ p dk, dk.1 = Pending.date p
                       ∧ 0 ≤ dk.2 ≤ Z.max 0 (Pending.commits p)) proc new
    ∧ (allSucceed git → new = fullyMade <$> proc)
    ∧ (rest = [] ∧ hitLimit (executeLoop pending st) = hitLimit st
       ∨ hitLimit (executeLoop pending st) = true ∧ 0 < batchLimit ∧ rest ≠ [])
    ∧ completed (executeLoop pending st)
        = completed st + Z.of_nat (length proc)
    ∧ commitsThisRun (executeLoop pending st)
        = commitsThisRun st + sumOf new.*2
    ∧ ∀ d, ledgerCount (file (executeLoop pending st)) d
           = from_option id (ledgerCount (file st) d) (lastMade d new).
Proof.
  revert st. induction pending as [|entry pending IH]; intros st.
  { exists [], [], []. cbn [Index.executeLoop].
    split_and!; [done | by rewrite app_nil_r | constructor | done | by left
                | cbn; lia | unfold sumOf; cbn; lia | done]. }
  destruct ((0 <? batchLimit)
            && (batchLimit <? commitsThisRun st + Pending.commits entry)) eqn:Hlim.
  { cbn [Index.executeLoop]. rewrite Hlim. exists [], (entry :: pending), [].
    apply andb_true_iff in Hlim as [Hpos%Z.ltb_lt _].
    split_and!; [done | cbn; by rewrite app_nil_r | constructor | done
                | by right | cbn; lia | unfold sumOf; cbn; lia | done]. }
  set (k := makeCommits (git (completed st)) (Pending.commits entry) false).
  set (st1 := {| completed := completed st + 1;
                 commitsThisRun := commitsThisRun st + k;
                 hitLimit := hitLimit st;
                 file := markCompleted (Pending.date entry) k
                           (clock (completed st)).1 (clock (completed st)).2
                           (file st);
                 made := made st ++ [(Pending.date entry, k)] |}).
  change (Index.executeLoop batchLimit git clock (entry :: pending) st)
    with (if (0 <? batchLimit)
             && (batchLimit <? commitsThisRun st + Pending.commits entry)
          then {| completed := completed st; commitsThisRun := commitsThisRun st;
                  hitLimit := true; file := file st; made := made st |}
          else executeLoop pending st1).
  rewrite Hlim.
  destruct (IH st1) as (proc & rest & new & Hsplit & Hmade & Hall & Hsucc & Hstop
                        & Hcompl & Hsum & Hled).
  exists (entry :: proc), rest, ((Pending.date entry, k) :: new).
  split_and!.
  - by rewrite Hsplit.
  - rewrite Hmade. cbn. by rewrite <- app_assoc.
  - constructor; [|done]. cbn. split; [done|]. apply makeCommits_range.
  - intros Hok. rewrite (Hsucc Hok). rewrite fmap_cons. f_equal.
    unfold fullyMade. f_equal. apply makeCommits_all. intros i _. apply Hok.
  - destruct Hstop as [[Hr Hh] | (Hh & Hpos & Hrest)]; [left | right]; done.
  - rewrite Hcompl. cbn. lia.
  - rewrite Hsum. unfold sumOf. cbn. lia.
  - intros d. rewrite Hled. cbn [lastMade file st1].
    rewrite ledgerCount_markCompleted.
    destruct (lastMade d new) as [k'|]; [done|].
    destruct (String.eqb_spec (Pending.date entry) d) as [<- | Hne]; cbn.
    + by rewrite decide_True.
    + by rewrite decide_False.
Qed.

Lemma executeLoop_limit pending st :
  0 < batchLimit → commitsThisRun st ≤ batchLimit →
  commitsThisRun (executeLoop pending st) ≤ batchLimit.
Proof.
  intros Hpos. revert st. induction pending as [|entry pending IH]; intros st Hst;
    [done|]. cbn [Index.executeLoop].
  destruct (Z.ltb_spec 0 batchLimit); [|lia]. cbn [andb].
  destruct (Z.ltb_spec batchLimit (commitsThisRun st + Pending.commits entry));
    [done|].
  apply IH. cbn.
  pose proof (makeCommits_range (git (completed st)) (Pending.commits entry) false).
  lia.
Qed.

Lemma executeLoop_nolimit pending st :
  batchLimit ≤ 0 → hitLimit (executeLoop pending st) = hitLimit st.
Proof.
  intros Hno. destruct (executeLoop_log pending st)
    as (_ & _ & _ & _ & _ & _ & _ & [[_ Hh] | (_ & Hpos & _)] & _); [done | lia].
Qed.

(** X6. A run of [executeCommits] handles a prefix of the pending list in
    order and stops early only on a positive batch limit; [completed] and
    [commitsThisRun] are the length and the total of the log of commits made;
    with a positive batch limit the run never makes more commits than the
    limit; and afterwards the ledger holds for each date the count of the
    last [makeCommits] call for it, and what it held before for the other
    dates. *)
Theorem executeCommits_accounts plan f :
  let run := executeCommits plan f in
  (∃ proc rest,
     getPending plan f = proc ++ rest
     ∧ (made run).*1 = Pending.date <$> proc
     ∧ (hitLimit run = false → rest = [])
     ∧ (batchLimit ≤ 0 → hitLimit run = false))
  ∧ completed run = Z.of_nat (length (made run))
  ∧ commitsThisRun run = sumOf (made run).*2
  ∧ (0 < batchLimit → commitsThisRun run ≤ batchLimit)
  ∧ ∀ d, ledgerCount (file run) d
         = from_option id (ledgerCount f d) (lastMade d (made run)).
Proof.
  intros run. unfold run, Index.executeCommits.
  set (st0 := {| completed := 0; commitsThisRun := 0; hitLimit := false;
                 file := f; made := [] |}).
  destruct (executeLoop_log (getPending plan f) st0)
    as (proc & rest & new & Hsplit & Hmade & Hall & _ & Hstop & Hcompl & Hsum
        & Hled).
  cbn in Hmade. rewrite Hmade.
  assert (new.*1 = Pending.date <$> proc) as Hdates.
  { clear -Hall. induction Hall as [|p dk proc new [Hd _] _ IH]; [done|].
    cbn. by rewrite Hd, IH. }
  split_and!.
  - exists proc, rest. split_and!; [done | done | |].
    + destruct Hstop as [[-> _] | (Hh & _)]; [done | congruence].
    + destruct Hstop as [[_ Hh] | (_ & Hpos & _)]; [done | lia].
  - rewrite Hcompl. cbn. apply Forall2_length in Hall. lia.
  - rewrite Hsum. cbn. lia.
  - intros Hpos. apply executeLoop_limit; [done | cbn; lia].
  - done.
Qed.

(** With every commit succeeding and one unit per date, the run leaves
    pending exactly the entries it did not come to. *)
Lemma executeCommits_rest plan f :
  allSucceed git → NoDup (Unit.date <$> plan) →
  ∃ proc rest,
    getPending plan f = proc ++ rest
    ∧ made (executeCommits plan f) = fullyMade <$> proc
    ∧ getPending plan (file (executeCommits plan f)) = rest
    ∧ (hitLimit (executeCommits plan f) = false → rest = []).
Proof.
  intros Hok Hnd. unfold Index.executeCommits.
  set (st0 := {| completed := 0; commitsThisRun := 0; hitLimit := false;
                 file := f; made := [] |}).
  destruct (executeLoop_log (getPending plan f) st0)
    as (proc & rest & new & Hsplit & Hmade & _ & Hsucc & Hstop & _ & _ & Hled).
  specialize (Hsucc Hok). subst new. cbn in Hmade, Hled.
  assert (NoDup (Pending.date <$> getPending plan f)) as Hndp.
  { eapply sublist_NoDup; [exact Hnd | apply getPending_dates]. }
  assert ((fullyMade <$> proc).*1 = Pending.date <$> proc) as Hdates.
  { rewrite <- list_fmap_compose. done. }
  exists proc, rest. split_and!; [done | done | |].
  - rewrite (getPending_covered plan f _ (Pending.date <$> proc)).
    + rewrite Hsplit. apply filter_out_prefix. by rewrite <- Hsplit.
    + intros u Hu HD. rewrite Hled, lastMade_None; [done|]. by rewrite Hdates.
    + intros u Hu (p & Hdp & Hp)%list_elem_of_fmap.
      assert (p ∈ getPending plan f) as Hpp by (rewrite Hsplit; set_solver).
      apply elem_of_getPending in Hpp as (u' & Hu' & _ & ->).
      cbn in Hdp. assert (u = u') as <- by (by eapply NoDup_fmap_eq).
      rewrite Hled.
      rewrite (lastMade_NoDup _ (Z.max 0 (Unit.commits u))).
      * cbn. lia.
      * rewrite Hdates. rewrite Hsplit, fmap_app in Hndp.
        by apply NoDup_app in Hndp as (? & _).
      * apply list_elem_of_fmap. eexists. split; [|exact Hp]. done.
  - destruct Hstop as [[-> _] | (Hh & _)]; [done | congruence].
Qed.

(** X7. When every commit succeeds on a plan with one unit per date, a run
    makes the full [commits] of each entry it handles, and the pending list
    of the next run is exactly the part of this run's pending list it did not
    come to: nothing is pending after a run that was not stopped by the
    batch limit. *)
Theorem executeCommits_resumes plan f :
  allSucceed git →
  NoDup (Unit.date <$> plan) →
  let run := executeCommits plan f in
  ∃ proc rest,
    getPending plan f = proc ++ rest
    ∧ made run = fullyMade <$> proc
    ∧ getPending plan (file run) = rest
    ∧ (hitLimit run = false → getPending plan (file run) = []).
Proof.
  intros Hok Hnd run.
  destruct (executeCommits_rest plan f Hok Hnd) as (proc & rest & H1 & H2 & H3 & H4).
  exists proc, rest. split_and!; [done..|].
  intros Hh. fold run in H3, H4. rewrite H3. by apply H4.
Qed.

End Run.

Section Rerun.

Import Tracker Committer Index.

Lemma Forall2_elem_of_l {A B} (R : A → B → Prop) (l : list A) (k : list B) x :
  Forall2 R l k → x ∈ l → ∃ y, y ∈ k ∧ R x y.
Proof.
  intros HF (i & Hi)%list_elem_of_lookup.
  destruct (Forall2_lookup_l _ _ _ _ _ HF Hi) as (y & Hy & HR).
  exists y. split; [|done]. apply list_elem_of_lookup. by exists i.
Qed.

(** X8. The loop asks [makeCommits] for the unit's full [commits], not for
    [pendingCommits].  On a plan with one unit per date and no batch limit:
    a pending unit gets [k] commits in a run, between 0 and its [commits];
    if [k] fell short, the next run (every commit succeeding) makes the full
    [commits] on that date again, so the date ends with [k + commits]
    commits made; if [k] was the full count, the next run leaves the date
    alone.  Nothing is pending after the second run. *)
Theorem rerun_after_shortfall plan f git1 clock1 clock2 :
  NoDup (Unit.date <$> plan) →
  let r1 := executeCommits 0 git1 clock1 plan f in
  let r2 := executeCommits 0 (λ _ _, true) clock2 plan (file r1) in
  getPending plan (file r2) = []
  ∧ ∀ u, u ∈ plan → stillPending (loadTracker f) u = true →
      ∃ k, (Unit.date u, k) ∈ made r1
           ∧ 0 ≤ k ≤ Z.max 0 (Unit.commits u)
           ∧ ledgerCount (file r1) (Unit.date u) = k
           ∧ (k < Unit.commits u →
              (Unit.date u, Unit.commits u) ∈ made r2)
           ∧ (Unit.commits u ≤ k → Unit.date u ∉ (made r2).*1).
Proof.
  intros Hnd r1 r2.
  destruct (executeCommits_rest 0 (λ _ _, true) clock2 plan (file r1))
    as (proc2 & rest2 & Hsplit2 & Hmade2 & Hrest2 & Hdone2); [done | done |].
  fold r2 in Hmade2, Hrest2, Hdone2.
  assert (hitLimit r2 = false) as Hnolimit2.
  { unfold r2, executeCommits. by rewrite executeLoop_nolimit. }
  specialize (Hdone2 Hnolimit2). rewrite Hdone2 in *. clear Hdone2.
  rewrite app_nil_r in Hsplit2. rewrite <- Hsplit2 in *. clear Hsplit2.
  split; [done|]. intros u Hu Hpend.
  unfold r1, executeCommits in *.
  set (st0 := {| completed := 0; commitsThisRun := 0; hitLimit := false;
                 file := f; made := [] |}) in *.
  destruct (executeLoop_log 0 git1 clock1 (getPending plan f) st0)
    as (proc & rest & new & Hsplit & Hmade & Hall & _ & Hstop & _ & _ & Hled).
  destruct Hstop as [[-> _] | (_ & Hpos & _)]; [|lia].
  rewrite app_nil_r in Hsplit. subst proc. cbn in Hmade, Hled.
  assert (annotate (loadTracker f) u ∈ getPending plan f) as Hp.
  { rewrite elem_of_getPending. exists u. by split_and!. }
  destruct (Forall2_elem_of_l _ _ _ _ Hall Hp) as ([d k] & Hdk & Hd & Hk).
  cbn in Hd, Hk. subst d.
  assert (new.*1 = Pending.date <$> getPending plan f) as Hdates.
  { clear -Hall. induction Hall as [|p dk ps new [Hd _] _ IH]; [done|].
    cbn. by rewrite Hd, IH. }
  assert (NoDup new.*1) as Hndnew.
  { rewrite Hdates. eapply sublist_NoDup; [exact Hnd | apply getPending_dates]. }
  assert (ledgerCount (file (executeLoop 0 git1 clock1 (getPending plan f) st0))
            (Unit.date u) = k) as Hcount.
  { rewrite Hled, (lastMade_NoDup _ k); done. }
  exists k. rewrite Hmade. split_and!; [exact Hdk | lia | lia | exact Hcount | |].
  - intros Hshort. rewrite Hmade2.
    replace (Unit.date u, Unit.commits u)
      with (fullyMade (annotate
              (loadTracker (file (executeLoop 0 git1 clock1 (getPending plan f) st0))) u)).
    + apply list_elem_of_fmap_2. rewrite elem_of_getPending. exists u.
      split_and!; [done | | done]. unfold stillPending.
      unfold ledgerCount in Hcount. rewrite Hcount. apply Z.ltb_lt. lia.
    + unfold fullyMade. cbn. f_equal. lia.
  - intros Hfull. rewrite Hmade2, <- list_fmap_compose.
    intros (p & Hdp & (u' & Hu' & Hpend' & ->)%elem_of_getPending)%list_elem_of_fmap.
    cbn in Hdp. assert (u = u') as <- by (by eapply NoDup_fmap_eq).
    unfold stillPending in Hpend'. unfold ledgerCount in Hcount.
    rewrite Hcount in Hpend'. apply Z.ltb_lt in Hpend'. lia.
Qed.

End Rerun.

(** ** Dates as strings *)

Section DateStrings.

Lemma string_length_app (s1 s2 : string) :
  String.length (s1 +:+ s2) = (String.length s1 + String.length s2)%nat.
Proof. induction s1 as [|c s1 IH]; simpl; [done | by rewrite IH]. Qed.

Lemma string_app_split_r (s1 s2 t1 t2 : string) :
  String.length t1 = String.length t2 →
  s1 +:+ t1 = s2 +:+ t2 → s1 = s2 ∧ t1 = t2.
Proof.
  intros Hlen Heq. apply string_app_split; [|done].
  apply (f_equal String.length) in Heq. rewrite !string_length_app in Heq. lia.
Qed.

Lemma String_of_Z_inj a b : String_of_Z a = String_of_Z b → a = b.
Proof.
  unfold String_of_Z. intros Heq. apply DecimalZ.to_int_inj.
  assert (∀ z, Z.to_int z ≠ Decimal.Pos Decimal.Nil
               ∧ Z.to_int z ≠ Decimal.Neg Decimal.Nil) as Hnil.
  { intros z. split; intros H; pose proof (f_equal Z.of_int H) as H0;
      rewrite DecimalZ.of_to in H0; cbn in H0; subst z; discriminate. }
  pose proof (NilZero.isi (Z.to_int a) (proj1 (Hnil a)) (proj2 (Hnil a))) as Ha.
  pose proof (NilZero.isi (Z.to_int b) (proj1 (Hnil b)) (proj2 (Hnil b))) as Hb.
  rewrite Heq in Ha. congruence.
Qed.

Lemma formatDate_tail_length t :
  String.length ("-" +:+ pad2 (MonthFromDay t + 1) +:+ "-" +:+ pad2 (DateFromDay t))
    = 6%nat.
Proof.
  pose proof (MonthFromDay_range t). pose proof (DateFromDay_range t).
  rewrite !string_length_app, !pad2_length by lia. done.
Qed.

Lemma formatDate_inj a b :
  formatDate (Some a) = formatDate (Some b) → a = b.
Proof.
  intros Heq. apply formatDate_inj_year; [|done].
  rewrite !formatDate_Some in Heq.
  apply string_app_split_r in Heq as [Hy _];
    [|by rewrite !formatDate_tail_length].
  by apply String_of_Z_inj.
Qed.

(** X9. Distinct days never share a date string: [formatDate] is injective
    on valid dates, across years too. *)
Theorem formatDate_injective a b :
  formatDate (Some a) = formatDate (Some b) → a = b.
Proof. apply formatDate_inj. Qed.

Lemma compare_app_same (p x y : string) :
  String.compare (p +:+ x) (p +:+ y) = String.compare x y.
Proof.
  induction p as [|c p IH]; simpl; [done|].
  destruct (Ascii.compare c c) eqn:Hc; [done|..];
    pose proof (Ascii.compare_antisym c c) as H; rewrite Hc in H; discriminate.
Qed.

Lemma compare_app_lt (x1 x2 r1 r2 : string) :
  String.length x1 = String.length x2 →
  String.compare x1 x2 = Lt →
  String.compare (x1 +:+ r1) (x2 +:+ r2) = Lt.
Proof.
  revert x2. induction x1 as [|c1 x1 IH]; intros [|c2 x2] Hlen Hlt;
    simpl in *; try done.
  destruct (Ascii.compare c1 c2); [|done..]. apply IH; [lia | done].
Qed.

Lemma pad2_lt a b :
  0 ≤ a ≤ 99 → 0 ≤ b ≤ 99 → a < b → String.compare (pad2 a) (pad2 b) = Lt.
Proof.
  intros Ha Hb.
  assert (Forall (λ a, Forall (λ b, a < b →
                                 String.compare (pad2 a) (pad2 b) = Lt)
                          (seqZ 0 100)) (seqZ 0 100)) as HF.
  { apply (bool_decide_unpack _). vm_compute. exact I. }
  rewrite Forall_seqZ in HF. specialize (HF a ltac:(lia)).
  rewrite Forall_seqZ in HF. apply HF. lia.
Qed.

(** Within one year a later day is in a later month, or in the same month at
    a later date. *)
Lemma month_date_order a b :
  YearFromDay a = YearFromDay b → a < b →
  MonthFromDay a < MonthFromDay b
  ∨ (MonthFromDay a = MonthFromDay b ∧ DateFromDay a < DateFromDay b).
Proof.
  intros Hy Hlt.
  assert (DayWithinYear a < DayWithinYear b) as Hd
    by (unfold DayWithinYear; rewrite Hy; lia).
  assert (InLeapYear a = InLeapYear b) as Hl by (unfold InLeapYear; by rewrite Hy).
  pose proof (InLeapYear_range b).
  unfold DateFromDay, MonthFromDay. rewrite Hl.
  repeat match goal with
  | |- context [DayWithinYear a <? ?n] =>
      destruct (Z.ltb_spec (DayWithinYear a) n)
  end;
  repeat match goal with
  | |- context [DayWithinYear b <? ?n] =>
      destruct (Z.ltb_spec (DayWithinYear b) n)
  end; cbn [MonthStart]; lia.
Qed.

(** Within one year the date strings are ordered as the days are. *)
Lemma formatDate_lt a b :
  YearFromDay a = YearFromDay b → a < b →
  String.compare (formatDate (Some a)) (formatDate (Some b)) = Lt.
Proof.
  intros Hy Hlt. rewrite !formatDate_Some, Hy.
  rewrite compare_app_same, compare_app_same.
  pose proof (MonthFromDay_range a). pose proof (MonthFromDay_range b).
  pose proof (DateFromDay_range a). pose proof (DateFromDay_range b).
  destruct (month_date_order a b Hy Hlt) as [Hm | [Hm Hd]].
  - apply compare_app_lt; [by rewrite !pad2_length by lia|].
    apply pad2_lt; lia.
  - rewrite Hm, compare_app_same, compare_app_same. apply pad2_lt; lia.
Qed.

Lemma formatDate_le_inv a b :
  YearFromDay a = YearFromDay b →
  (formatDate (Some a) ≤ formatDate (Some b))%string → a ≤ b.
Proof.
  intros Hy Hle. destruct (Z.le_gt_cases a b) as [|Hgt]; [done|].
  pose proof (formatDate_lt b a (eq_sym Hy) ltac:(lia)) as Hlt.
  unfold String.le, String.leb in Hle.
  rewrite String.compare_antisym, Hlt in Hle. done.
Qed.

Lemma formatDate_le a b :
  YearFromDay a = YearFromDay b → a ≤ b →
  (formatDate (Some a) ≤ formatDate (Some b))%string.
Proof.
  intros Hy Hle. destruct (decide (a = b)) as [-> | Hne]; [done|].
  unfold String.le, String.leb. by rewrite formatDate_lt by (done || lia).
Qed.

End DateStrings.

(** ** More on the plan *)

Section PlanMore.

Variable FONT : gmap string glyph.
Variable toUpperCase : string → string.
Variable tz : JSTime.TimeZone.

Local Abbreviation layout := (Planner.layout FONT toUpperCase).
Local Abbreviation generatePlan :=
  (Planner.generatePlan FONT toUpperCase tz).
Local Abbreviation generatePlan_warnings :=
  (Planner.generatePlan_warnings FONT toUpperCase).

Implicit Types (text : string) (year P startWeek : Z) (B : option Z)
  (E : gmap string Z) (u : Unit.t).

Lemma plan_dates_NoDup text year P startWeek B E :
  NoDup (Unit.date <$> generatePlan text year P startWeek B E).
Proof.
  unfold Planner.generatePlan. rewrite sortByDate_Permutation.
  destruct (layout_layoutInv FONT toUpperCase text year startWeek)
    as (_ & Hall & Hnd).
  destruct B as [level|].
  - rewrite emit_leveling.
    eapply sublist_NoDup; [|apply dates_of_leveling].
    apply NoDup_fmap_2_strong; [|apply NoDup_loopDays].
    intros t1 t2. apply formatDate_loopDays.
  - rewrite emit_text, dates_of_text; [done|].
    eapply Forall_impl; [exact Hall|]. by intros kv (Hd & _).
Qed.

(** Every unit is dated by a day of the plan's year. *)
Lemma plan_unit_day text year P startWeek B E u :
  u ∈ generatePlan text year P startWeek B E →
  ∃ t, Unit.date u = formatDate (Some t) ∧ YearFromDay t = planYear B year.
Proof.
  unfold Planner.generatePlan. rewrite elem_of_sortByDate.
  destruct B as [level|].
  - rewrite emit_leveling. intros (t & Hu & Ht)%list_elem_of_bind.
    apply elem_of_levelDay in Hu as (Hd & _).
    apply elem_of_loopDays in Ht as (_ & _ & Hy). by exists t.
  - rewrite emit_text.
    intros (e & -> & (kv & -> & Hkv)%list_elem_of_fmap)%list_elem_of_fmap.
    destruct kv as [k e].
    apply layout_entry in Hkv
      as (Hd & _ & _ & matrix & week & c & t & _ & _ & _ & _ & _ & _ & _ & _ & Hy & Hk).
    exists t. cbn in *. split; [congruence | done].
Qed.

Lemma dateLe_dates (plan : list Unit.t) :
  StronglySorted dateLe plan →
  StronglySorted (λ a b : string, (a ≤ b)%string) (Unit.date <$> plan).
Proof.
  induction 1 as [|u plan Hs IH Hu]; cbn; constructor; [done|].
  by apply Forall_fmap.
Qed.

Lemma days_of_dates (Y : Z) (dates : list string) :
  Forall (λ d, ∃ t, d = formatDate (Some t) ∧ YearFromDay t = Y) dates →
  ∃ days, dates = (λ t, formatDate (Some t)) <$> days
          ∧ Forall (λ t, YearFromDay t = Y) days.
Proof.
  induction 1 as [|d dates (t & -> & Hy) _ (days & -> & Hdays)].
  - by exists [].
  - exists (t :: days). split; [done | by constructor].
Qed.

Lemma days_increasing (Y : Z) (days : list Z) :
  Forall (λ t, YearFromDay t = Y) days →
  StronglySorted (λ a b : string, (a ≤ b)%string)
    ((λ t, formatDate (Some t)) <$> days) →
  NoDup ((λ t, formatDate (Some t)) <$> days) →
  StronglySorted Z.lt days.
Proof.
  induction 1 as [|t days Hy Hdays IH]; [constructor|].
  cbn. intros [Hs Hle]%StronglySorted_inv [Hnin Hnd]%NoDup_cons.
  constructor; [by apply IH|].
  apply Forall_forall. intros t' Ht'.
  assert (YearFromDay t' = Y) as Hy' by (by eapply Forall_forall in Hdays).
  rewrite Forall_fmap, Forall_forall in Hle. specialize (Hle t' Ht'). cbn in Hle.
  apply formatDate_le_inv in Hle; [|congruence].
  destruct (decide (t = t')) as [-> | Hne]; [|lia].
  exfalso. apply Hnin. by apply (list_elem_of_fmap_2 (λ t, formatDate (Some t))).
Qed.

(** X10. A plan is in calendar order: its dates are the date strings of a
    strictly increasing list of days, all of one year (the target year
    without leveling, the year the [Date] constructor makes of it with
    leveling). *)
Theorem plan_chronological text year P startWeek B E :
  ∃ days,
    Unit.date <$> generatePlan text year P startWeek B E
      = (λ t, formatDate (Some t)) <$> days
    ∧ StronglySorted Z.lt days
    ∧ Forall (λ t, getFullYear (Some t) = Some (planYear B year)) days.
Proof.
  destruct (days_of_dates (planYear B year)
              (Unit.date <$> generatePlan text year P startWeek B E))
    as (days & Hdates & Hdays).
  { apply Forall_fmap, Forall_forall. intros u Hu. by eapply plan_unit_day. }
  exists days. split_and!; [done | |].
  - apply (days_increasing (planYear B year)); [done | |]; rewrite <- Hdates.
    + apply dateLe_dates, sortByDate_sorted.
    + apply plan_dates_NoDup.
  - eapply Forall_impl; [exact Hdays|]. intros t Ht. cbn. by rewrite Ht.
Qed.

(** X11. Glyph rows are weekdays and glyph columns are weeks: every text
    unit is dated by the day [anchor + 7 * col + row], whose weekday
    ([getDay]) is its [row]. *)
Theorem text_unit_weekday text year P startWeek B E :
  Forall (λ u, Unit.char u ≠ "bg" →
               ∃ a t, getGraphStartDate year = Some a
                      ∧ t = a + 7 * Unit.col u + Unit.row u
                      ∧ Unit.date u = formatDate (Some t)
                      ∧ getDay (Some t) = Some (Unit.row u))
    (generatePlan text year P startWeek B E).
Proof.
  apply Forall_forall. intros u Hu Hnbg.
  apply plan_origin in Hu as [(e & He & _ & Hrow & Hcol) | (_ & _ & Hbg & _)];
    [|done].
  apply layout_get in He
    as (_ & _ & _ & matrix & week & c & t & _ & _ & _ & Hr & _ & _ & _ & Ht & _ & Hk).
  cbn in *. rewrite Hrow, Hcol.
  destruct (getGraphStartDate year) as [a|] eqn:Ha; [|done].
  rewrite offsetToDate_Some in Ht. apply TimeClip_inv in Ht as [-> _].
  assert (WeekDay a = 0) as Hsun.
  { destruct (newDate year 0 1) as [j|] eqn:Hj.
    - rewrite (getGraphStartDate_anchor year j Hj) in Ha.
      apply TimeClip_inv in Ha as [-> _]. apply WeekDay_anchor.
    - unfold getGraphStartDate in Ha. by rewrite Hj in Ha. }
  exists a, (a + (Entry.col e * 7 + Entry.row e)).
  split_and!; [done | lia | done |].
  cbn. f_equal. unfold WeekDay in *. divmod.
Qed.

Lemma sortByDate_sorted_id (plan : list Unit.t) :
  StronglySorted dateLe plan → sortByDate plan = plan.
Proof.
  induction 1 as [|u plan Hs IH Hu]; [done|].
  change (sortByDate (u :: plan)) with (sortInsert u (sortByDate plan)).
  rewrite IH. destruct plan as [|v plan]; [done|]. cbn [sortInsert].
  apply Forall_cons in Hu as [Huv _]. unfold dateLe in Huv.
  apply localeCompare_le in Huv. by rewrite (proj2 (Z.leb_le _ _) Huv).
Qed.

Lemma leveling_emit_sorted P m level E (Y : Z) (days : list Z) :
  Forall (λ t, YearFromDay t = Y) days →
  StronglySorted Z.lt days →
  StronglySorted dateLe (days ≫= λ t, levelDay P m level E (Some t)).
Proof.
  intros Hy. induction 1 as [|t days Hs IH Ht]; [constructor|].
  apply Forall_cons in Hy as [Hyt Hy]. rewrite bind_cons.
  destruct (levelDay P m level E (Some t)) as [|u [|]] eqn:Hday.
  - by apply IH.
  - cbn. constructor; [by apply IH|].
    assert (Unit.date u = formatDate (Some t)) as Hu.
    { apply (elem_of_levelDay P m level E (Some t) u). rewrite Hday. left. }
    apply Forall_forall. intros v (t' & Hv & Ht')%list_elem_of_bind.
    apply elem_of_levelDay in Hv as (Hdv & _).
    unfold dateLe. rewrite Hu, Hdv. apply formatDate_le.
    + rewrite Hyt. symmetry. by eapply Forall_forall in Hy.
    + eapply Forall_forall in Ht; [|done]. lia.
  - exfalso. unfold Planner.levelDay in Hday. by case_match.
Qed.

Lemma loopDays_year year :
  Forall (λ t, YearFromDay t = MakeFullYear year) (loopDays tz year).
Proof. apply Forall_forall. by intros t (_ & _ & Ht)%elem_of_loopDays. Qed.

Lemma generatePlan_leveling text year P startWeek level E :
  generatePlan text year P startWeek (Some level) E =
    loopDays tz year ≫=
      λ t, levelDay P (textPlanMap (layout text year startWeek)) level E (Some t).
Proof.
  unfold Planner.generatePlan. cbv zeta. rewrite emit_leveling.
  apply sortByDate_sorted_id.
  apply (leveling_emit_sorted _ _ _ _ (MakeFullYear year));
    [apply loopDays_year | apply loopDays_increasing].
Qed.

(** X12. In a zone that skips no local midnight of the year, and for a
    year whose January 1 and December 31 are valid dates: with a positive
    background level, a non-negative [commitsPerPixel] and no existing
    counts, the leveling plan has one unit for every day from January 1 to
    December 31, in calendar order, each with [level] commits or, on a
    text-pixel day, [level + commitsPerPixel]; that is 365 or 366 units. *)
Theorem leveling_covers_year text year P startWeek level :
  0 < level → 0 ≤ P →
  midnightsKept tz year →
  is_Some (JSTime.newDate tz year 0 1) →
  is_Some (JSTime.newDate tz year 11 31) →
  let plan := generatePlan text year P startWeek (Some level) ∅ in
  Unit.date <$> plan = (λ t, formatDate (Some t)) <$> yearDays year
  ∧ Forall (λ u, Unit.commits u =
                   levelTarget (textPlanMap (layout text year startWeek))
                     level P (Unit.date u)) plan
  ∧ Z.of_nat (length plan) = DaysInYear (MakeFullYear year)
  ∧ (length plan = 365%nat ∨ length plan = 366%nat).
Proof.
  intros Hlevel HP Hkept H1 H31 plan.
  set (m := textPlanMap (layout text year startWeek)).
  assert (∀ t, ∃ u, levelDay P m level ∅ (Some t) = [u]
                    ∧ Unit.date u = formatDate (Some t)
                    ∧ Unit.commits u = levelTarget m level P (formatDate (Some t)))
    as Hday.
  { intros t. unfold Planner.levelDay, levelTarget. rewrite lookup_empty.
    change (default 0 None) with 0.
    destruct (JSMap.get m (formatDate (Some t))) as [e|];
      rewrite (proj2 (Z.ltb_lt 0 _)) by lia;
      eexists; split_and!; try done; cbn; lia. }
  assert (plan = yearDays year ≫= λ t, levelDay P m level ∅ (Some t)) as Hplan.
  { unfold plan. rewrite generatePlan_leveling. fold m.
    by rewrite loopDays_kept. }
  assert (Unit.date <$> plan = (λ t, formatDate (Some t)) <$> yearDays year)
    as Hdates.
  { rewrite Hplan. clear Hplan. induction (yearDays year) as [|t l IH]; [done|].
    rewrite bind_cons. destruct (Hday t) as (u & -> & Hu & _).
    cbn. by rewrite Hu, IH. }
  assert (Z.of_nat (length plan) = DaysInYear (MakeFullYear year)) as Hlen.
  { apply (f_equal length) in Hdates. rewrite !length_fmap in Hdates.
    rewrite Hdates. unfold yearDays. rewrite length_seqZ.
    destruct (DaysInYear_range (MakeFullYear year)); lia. }
  split_and!; [done | | done |].
  - rewrite Hplan. apply Forall_forall.
    intros u (t & Hu & _)%list_elem_of_bind.
    destruct (Hday t) as (u' & Hu' & Hd & Hc). rewrite Hu' in Hu.
    apply list_elem_of_singleton in Hu as ->. by rewrite Hd.
  - destruct (DaysInYear_range (MakeFullYear year)); lia.
Qed.

(** X13. Every unit of a leveling plan has positive [commits]; without
    leveling the units have positive [commits] when [commitsPerPixel] is
    positive. *)
Theorem plan_commits_positive text year P startWeek level E :
  Forall (λ u, 0 < Unit.commits u)
    (generatePlan text year P startWeek (Some level) E)
  ∧ (0 < P →
     Forall (λ u, 0 < Unit.commits u)
       (generatePlan text year P startWeek None E)).
Proof.
  split.
  - rewrite generatePlan_leveling. apply Forall_forall.
    intros u (t & Hu & _)%list_elem_of_bind.
    by apply elem_of_levelDay in Hu as (_ & Hpos & _).
  - intros HP. apply Forall_forall. intros u.
    unfold Planner.generatePlan. rewrite elem_of_sortByDate, emit_text.
    by intros (e & -> & _)%list_elem_of_fmap.
Qed.

End PlanMore.

(** ** The grid of [buildGrid] *)

Section Grid.

Implicit Types (grid : list (list Z)) (plan : list Unit.t) (u : Unit.t).

Lemma onGrid_spec u :
  onGrid u = true ↔ 0 ≤ Unit.row u < 7 ∧ 0 ≤ Unit.col u < 53.
Proof.
  unfold onGrid. rewrite !andb_true_iff, !Z.leb_le, !Z.ltb_lt. lia.
Qed.

Lemma gridPut_off grid u : onGrid u = false → gridPut grid u = grid.
Proof. unfold gridPut, onGrid. by intros ->. Qed.

Lemma gridPut_on grid u :
  onGrid u = true →
  gridPut grid u =
    alter (λ line, <[Z.to_nat (Unit.col u) := Unit.commits u]> line)
      (Z.to_nat (Unit.row u)) grid.
Proof. unfold gridPut, onGrid. by intros ->. Qed.

Lemma emptyGrid_shape : gridShape emptyGrid.
Proof. split; [done|]. unfold emptyGrid. by repeat constructor. Qed.

Lemma gridPut_shape grid u : gridShape grid → gridShape (gridPut grid u).
Proof.
  intros [Hlen Hall]. destruct (onGrid u) eqn:Hon;
    [rewrite gridPut_on by done | by rewrite gridPut_off].
  split; [by rewrite length_alter|].
  apply Forall_forall. intros line (i & Hi)%list_elem_of_lookup.
  destruct (decide (i = Z.to_nat (Unit.row u))) as [-> | Hne].
  - rewrite list_lookup_alter_eq in Hi.
    destruct (grid !! Z.to_nat (Unit.row u)) as [line0|] eqn:Hline0; [|done].
    cbn in Hi. injection Hi as <-. rewrite length_insert.
    eapply Forall_forall in Hall; [exact Hall|]. by eapply list_elem_of_lookup_2.
  - rewrite list_lookup_alter_ne in Hi by done.
    eapply Forall_forall in Hall; [exact Hall|]. by eapply list_elem_of_lookup_2.
Qed.

Lemma gridPut_cell grid u r c :
  gridShape grid → 0 ≤ r < 7 → 0 ≤ c < 53 →
  gridCell (gridPut grid u) r c =
    if (Unit.row u =? r) && (Unit.col u =? c) then Some (Unit.commits u)
    else gridCell grid r c.
Proof.
  intros [Hlen Hall] Hr Hc.
  destruct (Z.eqb_spec (Unit.row u) r) as [Hur | Hur];
    destruct (Z.eqb_spec (Unit.col u) c) as [Huc | Huc]; cbn [andb].
  - rewrite gridPut_on by (apply onGrid_spec; lia).
    unfold gridCell. rewrite Hur, Huc, list_lookup_alter_eq.
    destruct (grid !! Z.to_nat r) as [line|] eqn:Hline.
    + cbn. apply list_lookup_insert_eq.
      eapply Forall_forall in Hall; [|by eapply list_elem_of_lookup_2].
      cbn in Hall. lia.
    + apply lookup_ge_None in Hline. lia.
  - destruct (onGrid u) eqn:Hon; [|by rewrite gridPut_off].
    apply onGrid_spec in Hon. rewrite gridPut_on by (apply onGrid_spec; lia).
    unfold gridCell. rewrite Hur, list_lookup_alter_eq.
    destruct (grid !! Z.to_nat r) as [line|]; [|done]. cbn.
    apply list_lookup_insert_ne. lia.
  - destruct (onGrid u) eqn:Hon; [|by rewrite gridPut_off].
    apply onGrid_spec in Hon. rewrite gridPut_on by (apply onGrid_spec; lia).
    unfold gridCell. rewrite list_lookup_alter_ne by lia. done.
  - destruct (onGrid u) eqn:Hon; [|by rewrite gridPut_off].
    apply onGrid_spec in Hon. rewrite gridPut_on by (apply onGrid_spec; lia).
    unfold gridCell. rewrite list_lookup_alter_ne by lia. done.
Qed.

Lemma buildGrid_snoc plan u :
  buildGrid (plan ++ [u]) = gridPut (buildGrid plan) u.
Proof. unfold buildGrid. by rewrite foldl_app. Qed.

Lemma lastAt_snoc r c plan u :
  lastAt r c (plan ++ [u]) =
    if (Unit.row u =? r) && (Unit.col u =? c) then Some u else lastAt r c plan.
Proof. unfold lastAt. by rewrite foldl_app. Qed.

Lemma buildGrid_shape plan : gridShape (buildGrid plan).
Proof.
  induction plan as [|u plan IH] using rev_ind; [apply emptyGrid_shape|].
  rewrite buildGrid_snoc. by apply gridPut_shape.
Qed.

Lemma emptyGrid_cell r c :
  0 ≤ r < 7 → 0 ≤ c < 53 → gridCell emptyGrid r c = Some 0.
Proof.
  intros Hr Hc. unfold gridCell, emptyGrid.
  rewrite lookup_replicate_2 by lia.
  change (replicate 53 0 !! Z.to_nat c = Some 0).
  apply lookup_replicate_2. lia.
Qed.

Lemma buildGrid_cell plan r c :
  0 ≤ r < 7 → 0 ≤ c < 53 →
  gridCell (buildGrid plan) r c
    = Some (from_option Unit.commits 0 (lastAt r c plan)).
Proof.
  intros Hr Hc. induction plan as [|u plan IH] using rev_ind.
  - by apply emptyGrid_cell.
  - rewrite buildGrid_snoc, lastAt_snoc, gridPut_cell
      by (done || apply buildGrid_shape).
    by destruct (_ && _).
Qed.

Lemma lastAt_Some r c plan u :
  lastAt r c plan = Some u → u ∈ plan ∧ Unit.row u = r ∧ Unit.col u = c.
Proof.
  induction plan as [|v plan IH] using rev_ind; [done|].
  rewrite lastAt_snoc.
  destruct (Z.eqb_spec (Unit.row v) r); destruct (Z.eqb_spec (Unit.col v) c);
    cbn [andb]; try (intros (? & ? & ?)%IH; split; [set_solver | done]).
  intros [= <-]. split; [set_solver | done].
Qed.

Lemma lastAt_None r c plan u :
  lastAt r c plan = None → u ∈ plan → ¬ (Unit.row u = r ∧ Unit.col u = c).
Proof.
  induction plan as [|v plan IH] using rev_ind; [by intros _ ?%elem_of_nil|].
  rewrite lastAt_snoc.
  destruct (Z.eqb_spec (Unit.row v) r); destruct (Z.eqb_spec (Unit.col v) c);
    cbn [andb]; try done;
    intros Hnone [Hu | ->%list_elem_of_singleton]%elem_of_app;
    (by apply IH) || lia.
Qed.

Lemma buildGrid_filter plan :
  buildGrid (List.filter onGrid plan) = buildGrid plan.
Proof.
  unfold buildGrid. generalize emptyGrid.
  induction plan as [|u plan IH]; intros grid; [done|]. cbn.
  destruct (onGrid u) eqn:Hon; cbn; [apply IH|].
  rewrite (gridPut_off grid u Hon). apply IH.
Qed.

(** X14. [buildGrid] always returns seven rows of 53 cells; each cell holds
    the [commits] of the last unit of the plan placed there, and 0 when there
    is none; units outside the grid, such as the background units at
    (-1, -1), do not show. *)
Theorem buildGrid_cells plan :
  gridShape (buildGrid plan)
  ∧ Forall (λ r, Forall (λ c,
        gridCell (buildGrid plan) r c
          = Some (from_option Unit.commits 0 (lastAt r c plan)))
      (seqZ 0 53)) (seqZ 0 7)
  ∧ buildGrid (List.filter onGrid plan) = buildGrid plan
  ∧ (Forall (λ u, onGrid u = false) plan → buildGrid plan = emptyGrid).
Proof.
  split_and!.
  - apply buildGrid_shape.
  - apply Forall_seqZ. intros r Hr. apply Forall_seqZ. intros c Hc.
    apply buildGrid_cell; lia.
  - apply buildGrid_filter.
  - intros Hoff. rewrite <- buildGrid_filter.
    replace (List.filter onGrid plan) with (@nil Unit.t); [done|].
    symmetry. induction Hoff as [|u plan Hu _ IH]; [done|]. cbn. by rewrite Hu.
Qed.

End Grid.

Section GridOfPlan.

Variable FONT : gmap string glyph.
Variable toUpperCase : string → string.
Variable tz : JSTime.TimeZone.

Local Abbreviation layout := (Planner.layout FONT toUpperCase).
Local Abbreviation generatePlan :=
  (Planner.generatePlan FONT toUpperCase tz).

(** Two units of a plan in the same cell of the grid are the same unit. *)
Lemma plan_cell_unique text year P startWeek B E (u v : Unit.t) :
  u ∈ generatePlan text year P startWeek B E →
  v ∈ generatePlan text year P startWeek B E →
  onGrid u = true →
  Unit.row u = Unit.row v → Unit.col u = Unit.col v → u = v.
Proof.
  intros Hu Hv Hon Hrow Hcol. apply onGrid_spec in Hon.
  eapply NoDup_fmap_eq; [apply plan_dates_NoDup | done | done |].
  pose proof Hu as Hu'. pose proof Hv as Hv'.
  apply plan_origin in Hu' as [(e & He & _ & Hre & Hce) | (_ & _ & _ & Hr & _)];
    [|lia].
  apply plan_origin in Hv' as [(e' & He' & _ & Hre' & Hce') | (_ & _ & _ & Hr & _)];
    [|lia].
  apply layout_get in He
    as (_ & _ & _ & ? & ? & ? & t & _ & _ & _ & _ & _ & _ & _ & Ht & _ & Hk).
  apply layout_get in He'
    as (_ & _ & _ & ? & ? & ? & t' & _ & _ & _ & _ & _ & _ & _ & Ht' & _ & Hk').
  cbn in *. rewrite Hk, Hk'. do 2 f_equal.
  rewrite <- Hre, <- Hce, Hrow, Hcol, Hre', Hce' in Ht. congruence.
Qed.

(** X15. In the grid of a generated plan no unit is overwritten: the cell of
    every unit inside the grid holds that unit's [commits]; background units
    lie outside the grid. *)
Theorem buildGrid_of_plan text year P startWeek B E :
  let plan := generatePlan text year P startWeek B E in
  Forall (λ u, onGrid u = true →
               gridCell (buildGrid plan) (Unit.row u) (Unit.col u)
                 = Some (Unit.commits u)) plan
  ∧ Forall (λ u, Unit.char u = "bg" → onGrid u = false) plan.
Proof.
  intros plan. split; apply Forall_forall; intros u Hu.
  - intros Hon. pose proof (proj1 (onGrid_spec u) Hon) as [Hr Hc].
    rewrite buildGrid_cell by done.
    destruct (lastAt (Unit.row u) (Unit.col u) plan) as [v|] eqn:Hlast.
    + apply lastAt_Some in Hlast as (Hv & Hrow & Hcol).
      by rewrite (plan_cell_unique _ _ _ _ _ _ u v Hu Hv Hon).
    + exfalso. by apply (lastAt_None _ _ _ u Hlast Hu).
  - intros Hbg.
    apply plan_origin in Hu as [(e & He & Hchar & _) | (_ & _ & _ & Hr & _)].
    + apply layout_get in He. apply entry_char_not_bg in He. cbn in He. congruence.
    + unfold onGrid. rewrite Hr. done.
Qed.

End GridOfPlan.

(** ** The summary of [getPlanStats] *)

Section StatsFacts.

Implicit Types (plan : list Unit.t) (u : Unit.t) (seen chars : list string).

Lemma setAdd_cases seen c :
  (c ∈ seen ∧ setAdd seen c = seen) ∨ ((c ∉ seen) ∧ setAdd seen c = seen ++ [c]).
Proof.
  unfold setAdd. destruct (decide (c ∈ seen)) as [Hin | Hout].
  - left. by rewrite bool_decide_eq_true_2.
  - right. by rewrite bool_decide_eq_false_2.
Qed.

Lemma distinct_snoc chars c : distinct (chars ++ [c]) = setAdd (distinct chars) c.
Proof. unfold distinct. by rewrite foldl_app. Qed.

Lemma distinct_facts chars :
  NoDup (distinct chars)
  ∧ (∀ c, c ∈ distinct chars ↔ c ∈ chars)
  ∧ (distinct chars) `sublist_of` chars.
Proof.
  induction chars as [|c chars (Hnd & Hmem & Hsub)] using rev_ind.
  - split_and!; [constructor | done | done].
  - rewrite distinct_snoc.
    destruct (setAdd_cases (distinct chars) c) as [[Hin ->] | [Hout ->]].
    + split_and!; [done | | by apply sublist_inserts_r].
      intros c'. rewrite elem_of_app, list_elem_of_singleton, <- Hmem.
      split; [by left | by intros [? | ->]].
    + split_and!.
      * apply NoDup_app. split_and!; [done | | apply NoDup_singleton].
        by intros c' Hc' ->%list_elem_of_singleton.
      * intros c'. by rewrite !elem_of_app, Hmem.
      * by apply sublist_app.
Qed.

Lemma sum_commits_from (a : Z) plan :
  foldl (λ sum e, sum + Unit.commits e) a plan
    = a + sumOf (Unit.commits <$> plan).
Proof.
  unfold sumOf. revert a. induction plan as [|u plan IH]; intros a; cbn; [lia|].
  rewrite IH. lia.
Qed.

Lemma sumOf_bounds (lo : Z) (counts : list Z) :
  Forall (λ k, lo ≤ k) counts → lo * Z.of_nat (length counts) ≤ sumOf counts.
Proof.
  unfold sumOf. induction 1 as [|k counts Hk _ IH]; cbn [foldr length]; lia.
Qed.

Lemma sumOf_const (k : Z) (counts : list Z) :
  Forall (λ k', k' = k) counts → sumOf counts = k * Z.of_nat (length counts).
Proof.
  unfold sumOf. induction 1 as [|k' counts -> _ IH]; cbn [foldr length]; lia.
Qed.

Lemma sorted_last_max plan z :
  StronglySorted dateLe plan → last plan = Some z →
  Forall (λ u, dateLe u z) plan.
Proof.
  induction 1 as [|u plan Hs IH Hu]; [constructor|].
  destruct plan as [|v plan].
  - intros [= <-]. apply Forall_cons. split; [|constructor].
    unfold dateLe. reflexivity.
  - rewrite last_cons_cons. intros Hlast. constructor; [|by apply IH].
    eapply Forall_forall in Hu; [exact Hu|]. by apply last_Some_elem_of.
Qed.

(** X16. The summary of any plan: [totalCommits] is the sum of the units'
    commits, and [uniqueChars] lists every [char] of the plan once, in the
    order of the plan. *)
Theorem getPlanStats_summary plan :
  let s := getPlanStats plan in
  let chars := Unit.char <$> plan in
  Stats.totalCommits s = sumOf (Unit.commits <$> plan)
  ∧ NoDup (Stats.uniqueChars s)
  ∧ (∀ c, c ∈ Stats.uniqueChars s ↔ c ∈ chars)
  ∧ (Stats.uniqueChars s) `sublist_of` chars
  ∧ Z.of_nat (length (Stats.uniqueChars s)) ≤ Stats.totalDays s.
Proof.
  intros s chars. destruct (distinct_facts chars) as (Hnd & Hmem & Hsub).
  split_and!; [| done | done | done |].
  - cbn. rewrite sum_commits_from. lia.
  - apply sublist_length in Hsub. unfold chars in Hsub.
    rewrite length_fmap in Hsub. cbn. unfold chars. lia.
Qed.

End StatsFacts.

Section StatsOfPlan.

Variable FONT : gmap string glyph.
Variable toUpperCase : string → string.
Variable tz : JSTime.TimeZone.

Local Abbreviation layout := (Planner.layout FONT toUpperCase).
Local Abbreviation generatePlan :=
  (Planner.generatePlan FONT toUpperCase tz).

Implicit Types (text : string) (year P startWeek : Z) (B : option Z)
  (E : gmap string Z) (u : Unit.t).

Lemma generatePlan_sorted text year P startWeek B E :
  StronglySorted dateLe (generatePlan text year P startWeek B E).
Proof. apply sortByDate_sorted. Qed.

Lemma plan_date_length text year P startWeek B E u :
  u ∈ generatePlan text year P startWeek B E →
  (6 ≤ String.length (Unit.date u))%nat.
Proof.
  intros (t & -> & _)%plan_unit_day.
  rewrite formatDate_Some, string_length_app, formatDate_tail_length. lia.
Qed.

Lemma increasing_length (l : list Z) (a b : Z) :
  StronglySorted Z.lt l → Forall (λ x, a ≤ x < b) l →
  Z.of_nat (length l) ≤ Z.max 0 (b - a).
Proof.
  intros Hs. revert a. induction Hs as [|x l _ IH Hx]; intros a Hin; [cbn; lia|].
  apply Forall_cons in Hin as [Hxa Hin].
  assert (Forall (λ y, x + 1 ≤ y < b) l) as Hl.
  { apply Forall_forall. intros y Hy.
    eapply Forall_forall in Hx; [|exact Hy].
    eapply Forall_forall in Hin; [|exact Hy]. cbn in Hin. lia. }
  specialize (IH (x + 1) Hl). cbn [length]. lia.
Qed.

Lemma loopDays_length_le year : Z.of_nat (length (loopDays tz year)) ≤ 366.
Proof.
  pose proof (increasing_length (loopDays tz year)
                (DayFromYear (MakeFullYear year))
                (DayFromYear (MakeFullYear year + 1))
                (loopDays_increasing tz year)) as Hlen.
  rewrite DayFromYear_succ in Hlen.
  destruct (DaysInYear_range (MakeFullYear year));
    (etrans; [apply Hlen|]; [|lia]);
    apply Forall_forall; intros t (_ & _ & Ht)%elem_of_loopDays;
    apply YearFromDay_iff in Ht; rewrite DayFromYear_succ in Ht; lia.
Qed.

Lemma bind_length_le {A} (f : A → list Unit.t) (l : list A) :
  (∀ x, length (f x) ≤ 1)%nat → (length (l ≫= f) ≤ length l)%nat.
Proof.
  intros Hf. induction l as [|x l IH]; cbn; [lia|].
  rewrite length_app. specialize (Hf x). lia.
Qed.

Lemma levelDay_length P m level E d :
  (length (levelDay P m level E d) ≤ 1)%nat.
Proof. unfold Planner.levelDay. cbv zeta. case_match; cbn; lia. Qed.

Lemma plan_text_commits text year P startWeek E u :
  u ∈ generatePlan text year P startWeek None E → Unit.commits u = P.
Proof.
  unfold Planner.generatePlan. rewrite elem_of_sortByDate, emit_text.
  by intros (e & -> & _)%list_elem_of_fmap.
Qed.

Lemma plan_leveling_commits text year P startWeek level E u :
  u ∈ generatePlan text year P startWeek (Some level) E → 1 ≤ Unit.commits u.
Proof.
  rewrite generatePlan_leveling. intros (t & Hu & _)%list_elem_of_bind.
  apply elem_of_levelDay in Hu as (_ & Hpos & _). lia.
Qed.

(** X17. The summary of a generated plan: [dateRange] runs from the earliest
    to the latest date of the plan and is N/A only for the empty plan;
    without leveling [totalCommits] is [commitsPerPixel] times [totalDays];
    with leveling there are at most 366 days and at least one commit for
    each. *)
Theorem getPlanStats_of_plan text year P startWeek B E :
  let plan := generatePlan text year P startWeek B E in
  let s := getPlanStats plan in
  Forall (λ u, (fst (Stats.dateRange s) ≤ Unit.date u)%string
               ∧ (Unit.date u ≤ snd (Stats.dateRange s))%string) plan
  ∧ (plan = [] ↔ Stats.dateRange s = ("N/A", "N/A"))
  ∧ (B = None → Stats.totalCommits s = P * Stats.totalDays s)
  ∧ (is_Some B →
     Stats.totalDays s ≤ 366 ∧ Stats.totalDays s ≤ Stats.totalCommits s).
Proof.
  intros plan s.
  pose proof (generatePlan_sorted text year P startWeek B E) as Hsorted.
  fold plan in Hsorted.
  assert (∀ u, u ∈ plan → (6 ≤ String.length (Unit.date u))%nat) as Hlen
    by (intros u; apply plan_date_length).
  split_and!.
  - subst s. destruct plan as [|first rest] eqn:Hplan; [constructor|].
    cbn [getPlanStats Stats.dateRange fst snd].
    destruct (last (first :: rest)) as [z|] eqn:Hz;
      [|by apply last_None in Hz].
    pose proof (sorted_last_max _ _ Hsorted Hz) as Hmax. cbn [from_option].
    apply StronglySorted_inv in Hsorted as [_ Hmin].
    apply Forall_cons. split.
    + split; [done|]. by apply Forall_cons in Hmax as [? _].
    + apply Forall_cons in Hmax as [_ Hmax].
      apply Forall_and. split; [exact Hmin | exact Hmax].
  - subst s. destruct plan as [|first rest]; [done|].
    split; [done|]. cbn. intros [= Hfirst _].
    specialize (Hlen first ltac:(left)). rewrite Hfirst in Hlen. cbn in Hlen. lia.
  - intros ->. subst s. cbn [getPlanStats Stats.totalDays Stats.totalCommits].
    rewrite sum_commits_from.
    rewrite (sumOf_const P), length_fmap; [lia|].
    apply Forall_fmap, Forall_forall. intros u. apply (plan_text_commits text year P startWeek E).
  - intros [level ->]. subst s.
    cbn [getPlanStats Stats.totalDays Stats.totalCommits].
    rewrite sum_commits_from.
    assert (Forall (λ k, 1 ≤ k) (Unit.commits <$> plan)) as Hpos.
    { apply Forall_fmap, Forall_forall. intros u.
      apply (plan_leveling_commits text year P startWeek level E). }
    apply sumOf_bounds in Hpos. rewrite length_fmap in Hpos.
    split; [|lia]. subst plan. rewrite generatePlan_leveling.
    pose proof (loopDays_length_le year).
    pose proof (bind_length_le
      (λ t, levelDay P (textPlanMap (layout text year startWeek)) level E (Some t))
      (loopDays tz year) (λ t, levelDay_length _ _ _ _ _)).
    lia.
Qed.

End StatsOfPlan.

(** ** Texts without a supported character *)

Section Unsupported.

Variable FONT : gmap string glyph.
Variable toUpperCase : string → string.
Variable tz : JSTime.TimeZone.

Local Abbreviation layout := (Planner.layout FONT toUpperCase).
Local Abbreviation generatePlan :=
  (Planner.generatePlan FONT toUpperCase tz).
Local Abbreviation generatePlan_warnings :=
  (Planner.generatePlan_warnings FONT toUpperCase).

Implicit Types (text : string) (year P startWeek : Z) (B : option Z)
  (E : gmap string Z) (u : Unit.t).

Lemma keysOf_step s key rest :
  nextKey s = Some (key, rest) → keysOf s = key :: keysOf rest.
Proof.
  destruct s as [|c [|c' rest']]; cbn; [done | by intros [= <- <-] |].
  destruct (_ && _); by intros [= <- <-].
Qed.

Lemma scan_all_missing year graphStart s st :
  (∀ key, key ∈ keysOf s → FONT !! key = None) →
  Planner.scan FONT year graphStart s st =
    {| currentWeek := currentWeek st;
       textPlanMap := textPlanMap st;
       warnings := warnings st ++ (notFoundWarning <$> keysOf s) |}.
Proof.
  revert st.
  enough ((∀ st, (∀ key, key ∈ keysOf s → FONT !! key = None) →
             Planner.scan FONT year graphStart s st =
               {| currentWeek := currentWeek st;
                  textPlanMap := textPlanMap st;
                  warnings := warnings st ++ (notFoundWarning <$> keysOf s) |})
          ∧ ∀ c st, (∀ key, key ∈ keysOf (String c s) → FONT !! key = None) →
             Planner.scan FONT year graphStart (String c s) st =
               {| currentWeek := currentWeek st;
                  textPlanMap := textPlanMap st;
                  warnings :=
                    warnings st ++ (notFoundWarning <$> keysOf (String c s)) |})
    as [H _] by exact H.
  assert (∀ s key rest,
    nextKey s = Some (key, rest) →
    (∀ st, (∀ key, key ∈ keysOf rest → FONT !! key = None) →
       Planner.scan FONT year graphStart rest st =
         {| currentWeek := currentWeek st;
            textPlanMap := textPlanMap st;
            warnings := warnings st ++ (notFoundWarning <$> keysOf rest) |}) →
    ∀ st, (∀ key, key ∈ keysOf s → FONT !! key = None) →
       Planner.scan FONT year graphStart s st =
         {| currentWeek := currentWeek st;
            textPlanMap := textPlanMap st;
            warnings := warnings st ++ (notFoundWarning <$> keysOf s) |})
    as Hstep.
  { intros s0 key rest Hnext IH st Hnone.
    rewrite (scan_step _ _ _ _ _ _ _ Hnext), (keysOf_step _ _ _ Hnext) in *.
    rewrite visit_missing by (apply Hnone; left).
    rewrite IH by (intros key' Hkey'; apply Hnone; by right).
    cbn. by rewrite <- app_assoc. }
  induction s as [|c s [IH0 IH1]].
  - split.
    + intros [w m l] _. cbn. by rewrite app_nil_r.
    + intros c. apply (Hstep _ (String c "") ""); [done|].
      intros [w m l] _. cbn. by rewrite app_nil_r.
  - split; [apply IH1|]. intros c'.
    destruct (nextKey (String c' (String c s))) as [[key rest]|] eqn:Hnext;
      [|by cbn in Hnext; destruct (_ && _)].
    apply (Hstep _ key rest Hnext).
    cbn in Hnext. destruct (_ && _); injection Hnext as <- <-; [apply IH0|].
    apply IH1.
Qed.

Lemma layout_all_missing text year startWeek :
  (∀ key, key ∈ keysOf (toUpperCase text) → FONT !! key = None) →
  layout text year startWeek =
    {| currentWeek := startWeek;
       textPlanMap := JSMap.empty;
       warnings := notFoundWarning <$> keysOf (toUpperCase text) |}.
Proof.
  intros Hnone. unfold Planner.layout. by rewrite scan_all_missing.
Qed.

(** X18. A text none of whose characters has a glyph: every character is
    warned about, in order; the plan without leveling is empty, and a
    leveling plan consists of background units only. *)
Theorem unsupported_text_plan text year P startWeek B E :
  (∀ key, key ∈ keysOf (toUpperCase text) → FONT !! key = None) →
  generatePlan_warnings text year startWeek
    = notFoundWarning <$> keysOf (toUpperCase text)
  ∧ generatePlan text year P startWeek None E = []
  ∧ Forall (λ u, Unit.char u = "bg" ∧ Unit.row u = -1 ∧ Unit.col u = -1)
      (generatePlan text year P startWeek B E)
  ∧ buildGrid (generatePlan text year P startWeek B E) = emptyGrid.
Proof.
  intros Hnone.
  pose proof (layout_all_missing text year startWeek Hnone) as Hlayout.
  assert (Forall (λ u, Unit.char u = "bg" ∧ Unit.row u = -1 ∧ Unit.col u = -1)
            (generatePlan text year P startWeek B E)) as Hbg.
  { apply Forall_forall. intros u Hu.
    apply plan_origin in Hu as [(e & He & _) | (_ & _ & ? & ? & ?)]; [|done].
    rewrite Hlayout in He. done. }
  split_and!; [| | done |].
  - unfold Planner.generatePlan_warnings. by rewrite Hlayout.
  - unfold Planner.generatePlan. cbv zeta. rewrite emit_text, Hlayout. done.
  - rewrite <- buildGrid_filter.
    replace (List.filter onGrid (generatePlan text year P startWeek B E))
      with (@nil Unit.t); [done|].
    symmetry. induction Hbg as [|u plan (_ & Hr & _) _ IH]; [done|].
    cbn. unfold onGrid at 1. rewrite Hr. done.
Qed.

End Unsupported.

(** ** From the plan to the finished run *)

Section EndToEnd.

Import Tracker Index.

Variable FONT : gmap string glyph.
Variable toUpperCase : string → string.
Variable tz : JSTime.TimeZone.

Local Abbreviation generatePlan :=
  (Planner.generatePlan FONT toUpperCase tz).

Implicit Types (text : string) (year P startWeek : Z) (B : option Z)
  (E : gmap string Z) (u : Unit.t).

Lemma getPending_fresh_positive (plan : list Unit.t) :
  Forall (λ u, 0 < Unit.commits u) plan →
  getPending plan Missing = annotate emptyTracker <$> plan.
Proof.
  intros Hpos. rewrite getPending_filter. cbn [loadTracker]. f_equal.
  apply filter_bool_all. intros u Hu.
  eapply Forall_forall in Hpos; [|exact Hu].
  unfold stillPending, doneOf. cbn. rewrite lookup_empty.
  apply Z.ltb_lt. lia.
Qed.

Lemma plan_positive text year P startWeek B E :
  (B = None → 0 < P) →
  Forall (λ u, 0 < Unit.commits u) (generatePlan text year P startWeek B E).
Proof.
  intros HP. apply Forall_forall. intros u Hu. destruct B as [level|].
  - apply plan_leveling_commits in Hu. lia.
  - apply plan_text_commits in Hu. rewrite Hu. by apply HP.
Qed.

(** X19. A first run over a generated plan, with no batch limit and every
    commit going through: the run makes each unit's commits on its date, in
    the order of the plan, its counters are the totals of [getPlanStats],
    and nothing is pending afterwards. *)
Theorem plan_run_completes text year P startWeek B E git clock :
  allSucceed git →
  (B = None → 0 < P) →
  let plan := generatePlan text year P startWeek B E in
  let run := executeCommits 0 git clock plan Missing in
  let s := getPlanStats plan in
  hitLimit run = false
  ∧ made run = (λ u, (Unit.date u, Unit.commits u)) <$> plan
  ∧ completed run = Stats.totalDays s
  ∧ commitsThisRun run = Stats.totalCommits s
  ∧ getPending plan (file run) = [].
Proof.
  intros Hok HP plan run s.
  pose proof (plan_positive text year P startWeek B E HP) as Hpos. fold plan in Hpos.
  pose proof (plan_dates_NoDup FONT toUpperCase tz text year P startWeek B E) as Hnd.
  fold plan in Hnd.
  assert (hitLimit run = false) as Hhit.
  { unfold run, executeCommits. by rewrite executeLoop_nolimit. }
  destruct (executeCommits_rest 0 git clock plan Missing Hok Hnd)
    as (proc & rest & Hsplit & Hmade & Hrest & Hnil).
  fold run in Hmade, Hrest, Hnil. specialize (Hnil Hhit).
  rewrite Hnil in Hsplit, Hrest. rewrite app_nil_r in Hsplit.
  rewrite <- Hsplit, getPending_fresh_positive in Hmade by done.
  assert (made run = (λ u, (Unit.date u, Unit.commits u)) <$> plan) as Hlog.
  { rewrite Hmade, <- list_fmap_compose. apply Forall_fmap_ext_1.
    eapply Forall_impl; [exact Hpos|]. intros u Hu.
    cbn beta in Hu. unfold fullyMade. cbn -[Z.max]. f_equal. lia. }
  destruct (executeLoop_log 0 git clock (getPending plan Missing)
              {| completed := 0; commitsThisRun := 0; hitLimit := false;
                 file := Missing; made := [] |})
    as (proc' & rest' & new & _ & Hnew & Hall & _ & _ & Hcompl & Hsum & _).
  fold (executeCommits 0 git clock plan Missing) in Hnew, Hcompl, Hsum.
  fold run in Hnew, Hcompl, Hsum.
  cbn [made completed commitsThisRun app] in Hnew, Hcompl, Hsum.
  apply Forall2_length in Hall.
  rewrite <- Hnew in Hall, Hsum. rewrite Hlog in Hall, Hsum.
  rewrite length_fmap in Hall. rewrite <- list_fmap_compose in Hsum.
  subst s. cbn [getPlanStats Stats.totalDays Stats.totalCommits].
  rewrite sum_commits_from.
  split_and!; [done | done | lia | | done].
  exact Hsum.
Qed.

End EndToEnd.

(** ** Where the batch limit stops a run *)

Section Batch.

Import Tracker Index.

Variable batchLimit : Z.
Variable git : Z → Z → bool.
Variable clock : Z → string * string.

Local Abbreviation executeLoop := (Index.executeLoop batchLimit git clock).
Local Abbreviation executeCommits := (Index.executeCommits batchLimit git clock).

Lemma executeLoop_break entry pending st :
  0 < batchLimit → batchLimit < commitsThisRun st + Pending.commits entry →
  executeLoop (entry :: pending) st =
    {| completed := completed st; commitsThisRun := commitsThisRun st;
       hitLimit := true; file := file st; made := made st |}.
Proof.
  intros Hpos Hover. cbn [Index.executeLoop].
  by rewrite (proj2 (Z.ltb_lt _ _) Hpos), (proj2 (Z.ltb_lt _ _) Hover).
Qed.

Lemma overLimit_test soFar p :
  (0 <? batchLimit) && (batchLimit <? soFar + Pending.commits p) = false →
  ¬ overLimit batchLimit soFar p.
Proof.
  intros Htest [Hpos Hover].
  by rewrite (proj2 (Z.ltb_lt _ _) Hpos), (proj2 (Z.ltb_lt _ _) Hover) in Htest.
Qed.

(** Where the loop stops: every entry it handles has passed the test on the
    commits made before it, and the entry it stops at, if any, fails the
    test on the commits made in all. *)
Lemma executeLoop_stop pending st :
  ∃ proc rest new,
    pending = proc ++ rest
    ∧ made (executeLoop pending st) = made st ++ new
    ∧ new.*1 = Pending.date <$> proc
    ∧ (∀ i p, proc !! i = Some p →
         ¬ overLimit batchLimit (commitsThisRun st + sumOf (take i new.*2)) p)
    ∧ match rest with
      | [] => hitLimit (executeLoop pending st) = hitLimit st
      | p :: _ =>
          hitLimit (executeLoop pending st) = true
          ∧ overLimit batchLimit (commitsThisRun (executeLoop pending st)) p
      end.
Proof.
  revert st. induction pending as [|entry pending IH]; intros st.
  { exists [], [], []. cbn [Index.executeLoop].
    split_and!; [done | by rewrite app_nil_r | done | done | done]. }
  destruct ((0 <? batchLimit)
            && (batchLimit <? commitsThisRun st + Pending.commits entry)) eqn:Hlim.
  - apply andb_true_iff in Hlim as [Hpos%Z.ltb_lt Hover%Z.ltb_lt].
    rewrite executeLoop_break by done.
    exists [], (entry :: pending), [].
    split_and!; [done | by rewrite app_nil_r | done | done | done | done].
  - set (k := Committer.makeCommits (git (completed st)) (Pending.commits entry)
                false).
    set (st1 := {| completed := completed st + 1;
                   commitsThisRun := commitsThisRun st + k;
                   hitLimit := hitLimit st;
                   file := markCompleted (Pending.date entry) k
                             (clock (completed st)).1 (clock (completed st)).2
                             (file st);
                   made := made st ++ [(Pending.date entry, k)] |}).
    change (Index.executeLoop batchLimit git clock (entry :: pending) st)
      with (if (0 <? batchLimit)
               && (batchLimit <? commitsThisRun st + Pending.commits entry)
            then {| completed := completed st; commitsThisRun := commitsThisRun st;
                    hitLimit := true; file := file st; made := made st |}
            else executeLoop pending st1).
    rewrite Hlim.
    destruct (IH st1) as (proc & rest & new & Hsplit & Hmade & Hdates & Hpass
                          & Hstop).
    exists (entry :: proc), rest, ((Pending.date entry, k) :: new). split_and!.
    + by rewrite Hsplit.
    + rewrite Hmade. unfold st1. cbn [made]. by rewrite <- app_assoc.
    + cbn. by rewrite Hdates.
    + intros [|i] p Hp.
      * cbn in Hp. injection Hp as <-. cbn [take fmap list_fmap].
        unfold sumOf. cbn [foldr]. replace (commitsThisRun st + 0)
          with (commitsThisRun st) by lia.
        by apply overLimit_test.
      * cbn in Hp. specialize (Hpass i p Hp). unfold st1 in Hpass.
        cbn [commitsThisRun] in Hpass. rewrite fmap_cons. cbn [take snd].
        unfold sumOf in *. cbn [foldr].
        replace (commitsThisRun st + (k + foldr Z.add 0 (take i new.*2)))
          with (commitsThisRun st + k + foldr Z.add 0 (take i new.*2)) by lia.
        exact Hpass.
    + exact Hstop.
Qed.

(** X20. A run stops exactly at the first pending entry whose [commits]
    would take the commits made so far past a positive batch limit, and at
    the end of the list otherwise: every entry handled has passed the test
    on the commits made before it, and the entry the run stops at fails it.
    When the first pending entry alone asks for more than the limit, the run
    makes no commit and leaves the tracker file as it was. *)
Theorem executeCommits_stops_at plan f :
  let run := executeCommits plan f in
  (∃ proc rest,
     getPending plan f = proc ++ rest
     ∧ (made run).*1 = Pending.date <$> proc
     ∧ (∀ i p, proc !! i = Some p →
          ¬ overLimit batchLimit (sumOf (take i (made run).*2)) p)
     ∧ match rest with
       | [] => hitLimit run = false
       | p :: _ =>
           hitLimit run = true
           ∧ overLimit batchLimit (commitsThisRun run) p
       end)
  ∧ (∀ p rest,
       getPending plan f = p :: rest →
       0 < batchLimit → batchLimit < Pending.commits p →
       made run = [] ∧ file run = f ∧ hitLimit run = true
       ∧ getPending plan (file run) = getPending plan f).
Proof.
  intros run. split.
  - destruct (executeLoop_stop (getPending plan f)
                {| completed := 0; commitsThisRun := 0; hitLimit := false;
                   file := f; made := [] |})
      as (proc & rest & new & Hsplit & Hmade & Hdates & Hpass & Hstop).
    fold (executeCommits plan f) in Hmade, Hstop. fold run in Hmade, Hstop.
    cbn [made app commitsThisRun hitLimit] in Hmade, Hpass, Hstop.
    rewrite Hmade. exists proc, rest.
    split_and!; [done | exact Hdates | | exact Hstop].
    intros i p Hp. specialize (Hpass i p Hp).
    by replace (0 + sumOf (take i new.*2)) with (sumOf (take i new.*2))
      in Hpass by lia.
  - intros p rest Hpending Hpos Hover. unfold run, Index.executeCommits.
    rewrite Hpending, executeLoop_break by (cbn; lia). done.
Qed.

End Batch.

(** * The further properties on concrete inputs *)

(** X7 on a plan of two days of 20 commits with a batch limit of 30. *)
Lemma executeCommits_resumes_witness :
  ∃ proc rest,
    Tracker.getPending Demo.twoDays Tracker.Missing = proc ++ rest
    ∧ Index.made
        (Index.executeCommits 30 (λ _ _, true) (λ _, ("t1", "t2"))
           Demo.twoDays Tracker.Missing)
      = fullyMade <$> proc
    ∧ Tracker.getPending Demo.twoDays
        (Index.file
           (Index.executeCommits 30 (λ _ _, true) (λ _, ("t1", "t2"))
              Demo.twoDays Tracker.Missing))
      = rest
    ∧ (Index.hitLimit
         (Index.executeCommits 30 (λ _ _, true) (λ _, ("t1", "t2"))
            Demo.twoDays Tracker.Missing) = false →
       Tracker.getPending Demo.twoDays
         (Index.file
            (Index.executeCommits 30 (λ _ _, true) (λ _, ("t1", "t2"))
               Demo.twoDays Tracker.Missing))
       = []).
Proof.
  apply (executeCommits_resumes 30 (λ _ _, true) (λ _, ("t1", "t2"))
           Demo.twoDays Tracker.Missing).
  - intros k i. reflexivity.
  - apply NoDup_cons. split; [|apply NoDup_singleton].
    intros Hin. apply list_elem_of_singleton in Hin. discriminate Hin.
Defined.

(** X8 on the same plan when only the first five commits of each day go
    through in the first run. *)
Lemma rerun_after_shortfall_witness :
  NoDup (Unit.date <$> Demo.twoDays)
  ∧ Tracker.getPending Demo.twoDays
      (Index.file
         (Index.executeCommits 0 (λ _ _, true) (λ _, ("t3", "t4")) Demo.twoDays
            (Index.file
               (Index.executeCommits 0 (λ _ i, i <? 5) (λ _, ("t1", "t2"))
                  Demo.twoDays Tracker.Missing))))
    = [].
Proof.
  assert (NoDup (Unit.date <$> Demo.twoDays)) as Hnd.
  { apply NoDup_cons. split; [|apply NoDup_singleton].
    intros Hin. apply list_elem_of_singleton in Hin. discriminate Hin. }
  split; [exact Hnd|].
  exact (proj1 (rerun_after_shortfall Demo.twoDays Tracker.Missing
                  (λ _ i, i <? 5) (λ _, ("t1", "t2")) (λ _, ("t3", "t4")) Hnd)).
Defined.

(** X9 on January 1, 2026, reached as a day of a month and as the first day
    of a year. *)
Lemma formatDate_injective_witness :
  formatDate (Some (MakeDay 2026 0 1)) = formatDate (Some (DayFromYear 2026))
  ∧ MakeDay 2026 0 1 = DayFromYear 2026.
Proof.
  assert (formatDate (Some (MakeDay 2026 0 1))
            = formatDate (Some (DayFromYear 2026))) as Heq by reflexivity.
  split; [exact Heq|].
  exact (formatDate_injective (MakeDay 2026 0 1) (DayFromYear 2026) Heq).
Defined.

(** X12 on "h" in 2026 with level 5, in the zone of Berlin, whose clock
    changes fall at two and three in the morning. *)
Lemma leveling_covers_year_witness :
  midnightsKept Demo.berlin 2026
  ∧ Unit.date
      <$> generatePlan Demo.font Demo.asciiUpper Demo.berlin "h" 2026 20 0
            (Some 5) ∅
      = (λ t, formatDate (Some t)) <$> yearDays 2026
  ∧ length (generatePlan Demo.font Demo.asciiUpper Demo.berlin "h" 2026 20 0
              (Some 5) ∅) = 365%nat.
Proof.
  assert (midnightsKept Demo.berlin 2026) as Hkept.
  { intros day _.
    unfold JSTime.LocalTime, JSTime.UTC, Demo.berlin, Demo.berlinTZA.
    cbn [JSTime.LocalTZA]. JSTime.zone_cases. }
  assert (is_Some (JSTime.newDate Demo.berlin 2026 0 1)) as H1
    by (vm_compute; eexists; reflexivity).
  assert (is_Some (JSTime.newDate Demo.berlin 2026 11 31)) as H31
    by (vm_compute; eexists; reflexivity).
  destruct (leveling_covers_year Demo.font Demo.asciiUpper Demo.berlin "h" 2026
              20 0 5 ltac:(lia) ltac:(lia) Hkept H1 H31)
    as (Hdates & _ & Hlen & _).
  change (DaysInYear (MakeFullYear 2026)) with 365 in Hlen.
  split_and!; [exact Hkept | exact Hdates | lia].
Defined.

(** X18 on "?!", neither of which is in the demo font. *)
Lemma unsupported_text_plan_witness :
  generatePlan_warnings Demo.font Demo.asciiUpper "?!" 2026 0
    = [notFoundWarning "?"; notFoundWarning "!"]
  ∧ generatePlan Demo.font Demo.asciiUpper JSTime.utc "?!" 2026 20 0 None ∅ = [].
Proof.
  assert (∀ key, key ∈ keysOf (Demo.asciiUpper "?!") →
                 Demo.font !! key = None) as Hnone.
  { intros key Hkey. change (key ∈ ["?"; "!"]) in Hkey.
    apply elem_of_cons in Hkey as [Hkey | Hkey].
    - rewrite Hkey. vm_compute. reflexivity.
    - apply list_elem_of_singleton in Hkey. rewrite Hkey. vm_compute. reflexivity. }
  destruct (unsupported_text_plan Demo.font Demo.asciiUpper JSTime.utc "?!" 2026 20 0 None ∅
              Hnone) as (Hwarn & Hplan & _).
  split; [exact Hwarn | exact Hplan].
Defined.

(** X19 on "hi" from week 1 of 2026, 20 commits a pixel. *)
Lemma plan_run_completes_witness :
  Tracker.getPending
    (generatePlan Demo.font Demo.asciiUpper JSTime.utc "hi" 2026 20 1 None ∅)
    (Index.file
       (Index.executeCommits 0 (λ _ _, true) (λ _, ("t1", "t2"))
          (generatePlan Demo.font Demo.asciiUpper JSTime.utc "hi" 2026 20 1 None ∅)
          Tracker.Missing))
  = [].
Proof.
  assert (allSucceed (λ _ _ : Z, true)) as Hok by (intros k i; reflexivity).
  assert (@None Z = None → 0 < 20) as HP by (intros _; lia).
  destruct (plan_run_completes Demo.font Demo.asciiUpper JSTime.utc "hi" 2026 20 1 None ∅
              (λ _ _, true) (λ _, ("t1", "t2")) Hok HP) as (_ & _ & _ & _ & Hdone).
  exact Hdone.
Defined.
